(** * frida-ipa-dump: the file-reception protocol of [dump.py]

    A shallow embedding of [Task] and [IPADump] from [dump.py]: the Python
    objects and the operating system they act on are one explicit state
    ([World]); every method is a computation in a state-and-exception monad
    whose exceptions are the Python exceptions the source can raise.

    The parts of the environment the source only calls (the [os] module,
    [open], [print], the frida session) are modelled next to it:
    - the file system is a finite map from resolved paths to nodes, with
      POSIX path resolution ([.], [..], repeated slashes; no symbolic
      links);
    - every call into the operating system is recorded in a trace, so that
      "was attempted" is a statement about the trace;
    - a file opened by [open] is a buffered writer, as in Python: the bytes
      written stay in its buffer until the buffer is full or the file is
      closed, and a file object that is no longer referenced is closed by the
      interpreter;
    - what differs from one machine to the next (the size of the buffer, the
      range of time stamps the file system keeps, how deep [rmtree] can
      descend) is a parameter of the state ([Platform]);
    - JSON numbers are integers (floating point values are not modelled). *)

From Stdlib Require Import ZArith String Ascii List Bool Lia.
From stdpp Require Import base option list gmap strings fin_maps.

Open Scope string_scope.
Open Scope Z_scope.

(** ** Python values as they arrive from the agent *)

(** A decoded JSON document. A [dict] keeps its insertion order, as a Python
    [dict] does; lookups take the first binding of a key. *)
#[warnings="-register-all"]
Inductive value : Type :=
| VNone
| VBool (b : bool)
| VInt (n : Z)
| VStr (s : string)
| VList (l : list value)
| VDict (d : list (string * value)).

Abbreviation dict := (list (string * value)).
Abbreviation bytes := (list Byte.byte).

Fixpoint dict_get (k : string) (d : dict) : option value :=
  match d with
  | [] => None
  | (k', v) :: d' => if String.eqb k k' then Some v else dict_get k d'
  end.

Definition dict_mem (k : string) (d : dict) : bool :=
  match dict_get k d with Some _ => true | None => false end.

(** [bool(v)]: Python truthiness. *)
Definition truthy (v : value) : bool :=
  match v with
  | VNone => false
  | VBool b => b
  | VInt n => negb (n =? 0)
  | VStr s => negb (String.eqb s "")
  | VList l => match l with [] => false | _ => true end
  | VDict d => match d with [] => false | _ => true end
  end.

(** [v == s] for a string literal [s]. *)
Definition eq_str (v : value) (s : string) : bool :=
  match v with VStr s' => String.eqb s' s | _ => false end.

(** Keys of [self.tasks]. Python hashes [True] and [1] (and [False] and [0])
    to the same dictionary key; lists and dicts are unhashable. *)
Inductive key : Type :=
| KNone
| KInt (n : Z)
| KStr (s : string).

Global Instance key_eq_dec : EqDecision key.
Proof. solve_decision. Defined.

Global Instance key_countable : Countable key.
Proof.
  refine (inj_countable'
    (fun k => match k with
              | KNone => inl tt
              | KInt n => inr (inl n)
              | KStr s => inr (inr s)
              end)
    (fun x => match x with
              | inl _ => KNone
              | inr (inl n) => KInt n
              | inr (inr s) => KStr s
              end) _).
  intros []; reflexivity.
Defined.

Definition hash_key (v : value) : option key :=
  match v with
  | VNone => Some KNone
  | VBool b => Some (KInt (if b then 1 else 0))
  | VInt n => Some (KInt n)
  | VStr s => Some (KStr s)
  | VList _ | VDict _ => None
  end.

(** ** Strings and [os.path.join] *)

(** [s.startswith(pre)]. *)
Fixpoint startswith (s pre : string) {struct pre} : bool :=
  match pre, s with
  | EmptyString, _ => true
  | String c pre', String d s' => Ascii.eqb c d && startswith s' pre'
  | String _ _, EmptyString => false
  end.

Fixpoint endswith_slash (s : string) : bool :=
  match s with
  | EmptyString => false
  | String c EmptyString => Ascii.eqb c "/"
  | String _ s' => endswith_slash s'
  end.

(** [os.path.join(a, b)] of [posixpath], for two strings. *)
Definition os_path_join (a b : string) : string :=
  if startswith b "/" then b
  else if String.eqb a "" || endswith_slash a then a ++ b
  else a ++ "/" ++ b.

(** ** Exceptions *)

Inductive oserror : Type :=
| FileNotFoundError
| FileExistsError
| IsADirectoryError
| NotADirectoryError
| PermissionError.

Inductive exn : Type :=
| ValueError        (* [local_path]: path is illegal; write to a closed file *)
| KeyError
| TypeError
| AttributeError
| OverflowError
| RecursionError
| OSError (e : oserror)
| SystemExit (code : Z).

Inductive result (A : Type) : Type :=
| Return (a : A)
| Raise (e : exn).
Arguments Return {A} a.
Arguments Raise {A} e.

(** ** The file system and the system-call trace *)

(** A resolved absolute path: its components below [/]. *)
Abbreviation fspath := (list string).

Inductive node : Type :=
| Dir
| File (content : bytes) (times : option (Z * Z)) (mode : Z) (owned : bool).

Inductive syscall : Type :=
| SysOpen (p : string)
| SysWrite (fd : nat) (data : bytes)
| SysClose (fd : nat)
| SysUtime (p : string) (atime mtime : Z)
| SysChmod (p : string) (mode : Z)
| SysMkdir (p : string)
| SysMkdtemp (p : string)
| SysRmtree (p : string).

(** An open file object: the node it was opened on, the offset at which the
    operating system writes next, and the bytes that [write] has accepted
    and that have not reached the file yet. *)
Record ofile : Type := mkOfile {
  of_node : fspath;
  of_pos : nat;
  of_buf : list Byte.byte
}.

(** What depends on the machine: the size of the buffer of a file opened by
    [open] (the block size of the file system), the range of time stamps the
    file system keeps (times outside it are clamped), and the number of
    nested directories [shutil.rmtree] can enter before the interpreter's
    recursion limit stops it. *)
Record Platform : Type := mkPlatform {
  buffer_size : nat;
  time_min : Z;
  time_max : Z;
  rmtree_depth : nat
}.

Inductive printable : Type :=
| PStr (s : string)
| PVal (v : value).

(** ** [class Task] : the record *)

Module Task.
(** [self.file] is the descriptor of the file opened in [__init__]. *)
Record t : Type := mk {
  session : value;
  path : string;
  info : value;
  file : nat
}.
End Task.

(** ** The state: one [IPADump] object and its environment *)

Record World : Type := mkWorld {
  (* IPADump attributes *)
  tempdir : option string;
  tasks : gmap key Task.t;
  verbose : bool;
  session : option nat;        (* [Some n]: attached, [detach()] called n times *)
  (* environment *)
  fs : gmap fspath node;
  ofiles : gmap nat ofile;     (* open file objects *)
  next_fd : nat;
  stdout : list (list printable);
  calls : list syscall;
  platform : Platform
}.

Definition set_tempdir (x : option string) (w : World) : World :=
  mkWorld x (tasks w) (verbose w) (session w) (fs w) (ofiles w) (next_fd w)
          (stdout w) (calls w) (platform w).
Definition set_tasks (x : gmap key Task.t) (w : World) : World :=
  mkWorld (tempdir w) x (verbose w) (session w) (fs w) (ofiles w) (next_fd w)
          (stdout w) (calls w) (platform w).
Definition set_session (x : option nat) (w : World) : World :=
  mkWorld (tempdir w) (tasks w) (verbose w) x (fs w) (ofiles w) (next_fd w)
          (stdout w) (calls w) (platform w).
Definition set_fs (x : gmap fspath node) (w : World) : World :=
  mkWorld (tempdir w) (tasks w) (verbose w) (session w) x (ofiles w) (next_fd w)
          (stdout w) (calls w) (platform w).
Definition set_ofiles (x : gmap nat ofile) (w : World) : World :=
  mkWorld (tempdir w) (tasks w) (verbose w) (session w) (fs w) x (next_fd w)
          (stdout w) (calls w) (platform w).
Definition set_next_fd (x : nat) (w : World) : World :=
  mkWorld (tempdir w) (tasks w) (verbose w) (session w) (fs w) (ofiles w) x
          (stdout w) (calls w) (platform w).
Definition set_stdout (x : list (list printable)) (w : World) : World :=
  mkWorld (tempdir w) (tasks w) (verbose w) (session w) (fs w) (ofiles w)
          (next_fd w) x (calls w) (platform w).
Definition set_calls (x : list syscall) (w : World) : World :=
  mkWorld (tempdir w) (tasks w) (verbose w) (session w) (fs w) (ofiles w)
          (next_fd w) (stdout w) x (platform w).

(** ** The monad: state passing with Python exceptions

    An exception keeps the state reached when it was raised: Python undoes
    nothing. *)

Definition M (A : Type) : Type := World -> result A * World.

Global Instance M_ret : MRet M := fun A a w => (Return a, w).
Global Instance M_bind : MBind M := fun A B f m w =>
  match m w with
  | (Return a, w') => f a w'
  | (Raise e, w') => (Raise e, w')
  end.

Definition raise {A : Type} (e : exn) : M A := fun w => (Raise e, w).
Definition get_world : M World := fun w => (Return w, w).
Definition modify (f : World -> World) : M unit := fun w => (Return tt, f w).

(** [try: m except FileNotFoundError: pass] *)
Definition except_FileNotFoundError (m : M unit) : M unit := fun w =>
  match m w with
  | (Raise (OSError FileNotFoundError), w') => (Return tt, w')
  | r => r
  end.

(** [try: m finally: h] *)
Definition finally {A : Type} (m : M A) (h : M unit) : M A := fun w =>
  match m w with
  | (r, w') =>
      match h w' with
      | (Return _, w'') => (r, w'')
      | (Raise e, w'') => (Raise e, w'')
      end
  end.

Definition print (args : list printable) : M unit :=
  modify (fun w => set_stdout (stdout w ++ [args]) w).

Definition syscall_trace (c : syscall) : M unit :=
  modify (fun w => set_calls (calls w ++ [c]) w).

(** ** The operating system *)

(** [s.split('/')] *)
Fixpoint components_go (cur s : string) : list string :=
  match s with
  | EmptyString => [cur]
  | String c s' =>
      if Ascii.eqb c "/" then cur :: components_go "" s'
      else components_go (cur ++ String c EmptyString) s'
  end.

Definition components (s : string) : list string :=
  List.filter (fun c => negb (String.eqb c "")) (components_go "" s).

(** The root directory always exists. *)
Definition fs_lookup (f : gmap fspath node) (p : fspath) : option node :=
  match p with
  | [] => Some Dir
  | _ => f !! p
  end.

Definition step (cur : fspath) (c : string) : fspath :=
  if String.eqb c "." then cur
  else if String.eqb c ".." then removelast cur
  else cur ++ [c].

(** Path resolution: every component is looked up in a directory that must
    exist; [..] of the root is the root. Relative names are resolved from
    the root (the working directory of the process is taken to be [/]). *)
Fixpoint walk (f : gmap fspath node) (cur : fspath) (cs : list string)
  : oserror + fspath :=
  match cs with
  | [] => inr cur
  | c :: cs' =>
      match fs_lookup f cur with
      | Some Dir => walk f (step cur c) cs'
      | Some (File _ _ _ _) => inl NotADirectoryError
      | None => inl FileNotFoundError
      end
  end.

Definition resolve (f : gmap fspath node) (p : string) : oserror + fspath :=
  if String.eqb p "" then inl FileNotFoundError
  else walk f [] (components p).

Definition new_file_mode : Z := 420.   (* 0o644: 0o666 under a umask of 0o022 *)

(** The number of a new file object: at least [next_fd], and different from
    the number of every file that is open and of every file a task holds
    (the numbers stand for the identity of Python's file objects). *)
Definition new_fd (w : World) : nat :=
  Nat.max (next_fd w)
    (Nat.max
       (map_fold (fun fd (_ : ofile) acc => Nat.max (S fd) acc) 0%nat (ofiles w))
       (map_fold (fun (_ : key) t acc => Nat.max (S (Task.file t)) acc) 0%nat (tasks w))).

(** Whether the process may write to an existing file of mode [md]: the
    owner's write bit decides for its own files, the write bit of the others
    for the files of another owner (the process is not the superuser and
    shares no group with other owners). *)
Definition writable (md : Z) (owned : bool) : bool :=
  Z.testbit md (if owned then 7 else 1).

(** [open(p, 'wb')]: create or truncate, position 0, empty buffer. *)
Definition os_open_wb (p : string) : M nat :=
  syscall_trace (SysOpen p);;
  w ← get_world;
  match resolve (fs w) p with
  | inl e => raise (OSError e)
  | inr n =>
      let opened (nd : node) : M nat :=
        modify (fun w => set_next_fd (S (new_fd w))
                  (set_ofiles (<[new_fd w := mkOfile n 0 []]> (ofiles w))
                     (set_fs (<[n := nd]> (fs w)) w)));;
        mret (new_fd w) in
      match fs_lookup (fs w) n with
      | Some Dir => raise (OSError IsADirectoryError)
      | Some (File _ tm md ow) =>
          if endswith_slash p then raise (OSError NotADirectoryError)
          else if writable md ow then opened (File [] tm md ow)
          else raise (OSError PermissionError)
      | None =>
          if endswith_slash p then raise (OSError IsADirectoryError)
          else opened (File [] None new_file_mode true)
      end
  end.

(** Writing [data] at offset [pos]; a gap is filled with zero bytes. *)
Definition write_at (c : bytes) (pos : nat) (data : bytes) : bytes :=
  take pos (c ++ replicate (pos - length c) Byte.x00)
    ++ data ++ drop (pos + length data) c.

(** The [write] of the operating system on the file [o] with descriptor
    [fd], whose buffer is empty or is the [data] written: the bytes go to the
    node at the offset of the file, and the buffer is empty afterwards. A
    file that was unlinked while open absorbs the bytes. *)
Definition raw_write (fd : nat) (o : ofile) (data : bytes) : M unit :=
  syscall_trace (SysWrite fd data);;
  modify (fun w =>
    set_ofiles (<[fd := mkOfile (of_node o) (of_pos o + length data) []]> (ofiles w))
      (match fs w !! of_node o with
       | Some (File c tm md ow) =>
           set_fs (<[of_node o := File (write_at c (of_pos o) data) tm md ow]> (fs w)) w
       | _ => w
       end)).

(** [f.flush()]: a buffer that is not empty goes to the file in one
    [write]. *)
Definition os_flush (fd : nat) : M unit :=
  w ← get_world;
  match ofiles w !! fd with
  | None => mret tt
  | Some o =>
      match of_buf o with
      | [] => mret tt
      | _ :: _ => raw_write fd o (of_buf o)
      end
  end.

(** The file [o] after a flush. *)
Definition flushed (o : ofile) : ofile :=
  mkOfile (of_node o) (of_pos o + length (of_buf o)) [].

(** [f.write(data)] on the file object with descriptor [fd], as
    [BufferedWriter.write] does it. A file object that was closed raises
    [ValueError]. Data that fits into what is left of the buffer is kept
    there. Otherwise the buffer is flushed first; data longer than the whole
    buffer is then written through, shorter data starts the buffer anew. *)
Definition os_write (fd : nat) (data : bytes) : M unit :=
  w ← get_world;
  match ofiles w !! fd with
  | None => raise ValueError
  | Some o =>
      if (length data <=? buffer_size (platform w) - length (of_buf o))%nat then
        modify (set_ofiles
                  (<[fd := mkOfile (of_node o) (of_pos o) (of_buf o ++ data)]> (ofiles w)))
      else
        os_flush fd;;
        if (buffer_size (platform w) <? length data)%nat then
          raw_write fd (flushed o) data
        else
          modify (fun w =>
            set_ofiles (<[fd := mkOfile (of_node o) (of_pos (flushed o)) data]> (ofiles w)) w)
  end.

(** [f.close()]: the buffer is flushed, then the descriptor is closed;
    closing twice is allowed. *)
Definition os_close (fd : nat) : M unit :=
  w ← get_world;
  match ofiles w !! fd with
  | None => mret tt
  | Some _ =>
      os_flush fd;;
      syscall_trace (SysClose fd);;
      modify (fun w => set_ofiles (delete fd (ofiles w)) w)
  end.

(** A Python number passed where C expects an integer. *)
Definition as_int (v : value) : option Z :=
  match v with
  | VInt n => Some n
  | VBool b => Some (if b then 1 else 0)
  | _ => None
  end.

Definition c_int (lo hi : Z) (v : value) : M Z :=
  match as_int v with
  | None => raise TypeError
  | Some n => if (lo <=? n) && (n <? hi) then mret n else raise OverflowError
  end.

(** Metadata of a node may be changed by its owner only. *)
Definition set_metadata (p : string) (upd : node -> node) : M unit :=
  w ← get_world;
  match resolve (fs w) p with
  | inl e => raise (OSError e)
  | inr n =>
      match fs_lookup (fs w) n with
      | None => raise (OSError FileNotFoundError)
      | Some Dir => mret tt
      | Some (File c tm md ow) =>
          if endswith_slash p then raise (OSError NotADirectoryError)
          else if ow then modify (set_fs (<[n := upd (File c tm md ow)]> (fs w)))
          else raise (OSError PermissionError)
      end
  end.

(** A time stamp as the file system stores it. *)
Definition stored_time (pf : Platform) (t : Z) : Z :=
  Z.max (time_min pf) (Z.min (time_max pf) t).

(** [os.utime(p, (atime, mtime))]: the times of the node are what the file
    system keeps of the two values. *)
Definition os_utime (p : string) (times : value * value) : M unit :=
  a ← c_int (- 2 ^ 63) (2 ^ 63) (fst times);
  m ← c_int (- 2 ^ 63) (2 ^ 63) (snd times);
  syscall_trace (SysUtime p a m);;
  w ← get_world;
  set_metadata p (fun nd => match nd with
                            | File c _ md ow =>
                                File c (Some (stored_time (platform w) a,
                                              stored_time (platform w) m)) md ow
                            | Dir => Dir
                            end).

(** [os.chmod(p, mode)]; the kernel keeps the permission bits [0o7777]. *)
Definition os_chmod (p : string) (mode : value) : M unit :=
  md ← c_int (- 2 ^ 31) (2 ^ 31) mode;
  syscall_trace (SysChmod p md);;
  set_metadata p (fun nd => match nd with
                            | File c tm _ ow => File c tm (Z.land md 4095) ow
                            | Dir => Dir
                            end).

(** [os.mkdir(p)] *)
Definition os_mkdir (p : string) : M unit :=
  syscall_trace (SysMkdir p);;
  w ← get_world;
  match resolve (fs w) p with
  | inl e => raise (OSError e)
  | inr n =>
      match fs_lookup (fs w) n with
      | Some _ => raise (OSError FileExistsError)
      | None => modify (set_fs (<[n := Dir]> (fs w)))
      end
  end.

(** How many directories are nested below [n], [n] itself not counted. *)
Definition dir_depth (f : gmap fspath node) (n : fspath) : nat :=
  map_fold (fun (k : fspath) (nd : node) (acc : nat) =>
              match nd with
              | Dir => if bool_decide (n `prefix_of` k)
                       then Nat.max (length k - length n) acc else acc
              | File _ _ _ _ => acc
              end) 0%nat f.

(** [shutil.rmtree(p)] as [TemporaryDirectory.cleanup] uses it: the node and
    everything below it go; a directory that is already gone is ignored.
    [rmtree] calls itself for every directory it enters: on a tree that is
    nested deeper than the interpreter lets it descend, it raises
    [RecursionError] and the directory stays. (Which of the entries next to
    the deep branch are gone by then depends on the order of the listing;
    here all are kept.) *)
Definition os_rmtree (p : string) : M unit :=
  syscall_trace (SysRmtree p);;
  w ← get_world;
  match resolve (fs w) p with
  | inr n =>
      if (dir_depth (fs w) n <=? rmtree_depth (platform w))%nat
      then modify (set_fs (filter (fun kv : fspath * node => ¬ n `prefix_of` kv.1) (fs w)))
      else raise RecursionError
  | inl _ => mret tt
  end.

(** [tempfile.mkdtemp()]: [p] is the fresh name the library settled on; the
    new directory is empty. *)
Definition os_mkdtemp (p : string) : M string :=
  syscall_trace (SysMkdtemp p);;
  w ← get_world;
  match resolve (fs w) p with
  | inl e => raise (OSError e)
  | inr n =>
      match fs_lookup (fs w) n with
      | Some _ => raise (OSError FileExistsError)
      | None =>
          modify (set_fs (<[n := Dir]>
                            (filter (fun kv : fspath * node => ¬ n `prefix_of` kv.1) (fs w))));;
          mret p
      end
  end.

(** ** [class Task] : the methods *)

(** [v.get(k)] *)
Definition py_get (v : value) (k : string) : M value :=
  match v with
  | VDict d => mret (default VNone (dict_get k d))
  | _ => raise AttributeError
  end.

(** [v[k]] *)
Definition py_getitem (v : value) (k : string) : M value :=
  match v with
  | VDict d =>
      match dict_get k d with
      | Some x => mret x
      | None => raise KeyError
      end
  | _ => raise TypeError
  end.

(** [Task.__init__] *)
Definition Task_init (session : value) (path : string) (info : value) : M Task.t :=
  fd ← os_open_wb path;
  mret (Task.mk session path info fd).

(** [Task.write]; the payload of a message without a binary part is [None]. *)
Definition Task_write (self : Task.t) (data : option bytes) : M unit :=
  match data with
  | None => raise TypeError
  | Some b => os_write (Task.file self) b
  end.

(** [Task.close] *)
Definition Task_close (self : Task.t) : M unit :=
  os_close (Task.file self).

(** The body of the [try] block of [Task.finish]. *)
Definition restore_metadata (self : Task.t) (time_pair : value * value) : M unit :=
  (if truthy (fst time_pair) && truthy (snd time_pair)
   then os_utime (Task.path self) time_pair
   else mret tt);;
  permission ← py_getitem (Task.info self) "permission";
  os_chmod (Task.path self) permission.

(** [Task.finish] *)
Definition Task_finish (self : Task.t) : M unit :=
  Task_close self;;
  creation ← py_get (Task.info self) "creation";
  modification ← py_get (Task.info self) "modification";
  except_FileNotFoundError (restore_metadata self (creation, modification)).

(** ** [class IPADump] *)

(** [IPADump.local_path] *)
Definition local_path (relative : value) : M string :=
  w ← get_world;
  match tempdir w, relative with
  | Some parent, VStr rel =>
      let local_path := os_path_join parent rel in
      if negb (startswith local_path parent) then raise ValueError
      else mret local_path
  | _, _ => raise TypeError
  end.

(** [self.tasks[session]] *)
Definition tasks_getitem (session : value) : M Task.t :=
  w ← get_world;
  match hash_key session with
  | None => raise TypeError
  | Some k =>
      match tasks w !! k with
      | Some t => mret t
      | None => raise KeyError
      end
  end.

(** A [Task] that nothing refers to any more is released by the
    interpreter at once, and with it its file object: a file that is still
    open is flushed and closed. *)
Definition Task_release (t : Task.t) : M unit :=
  os_close (Task.file t).

(** [self.tasks[session] = t], for a task [t] that nothing else refers to:
    the task that was stored under the key is released; with a key that
    cannot be hashed nothing is stored, and [t] itself is released when the
    [TypeError] leaves the statement. *)
Definition tasks_setitem (session : value) (t : Task.t) : M unit :=
  match hash_key session with
  | None => Task_release t;; raise TypeError
  | Some k =>
      w ← get_world;
      modify (fun w => set_tasks (<[k := t]> (tasks w)) w);;
      match tasks w !! k with
      | Some old => Task_release old
      | None => mret tt
      end
  end.

(** [del self.tasks[session]]: the task is released. *)
Definition tasks_delitem (session : value) : M unit :=
  w ← get_world;
  match hash_key session with
  | None => raise TypeError
  | Some k =>
      match tasks w !! k with
      | Some old =>
          modify (fun w => set_tasks (delete k (tasks w)) w);;
          Task_release old
      | None => raise KeyError
      end
  end.

(** [IPADump.on_download_start] *)
Definition on_download_start (session relative info : value) : M unit :=
  w ← get_world;
  (if verbose w then print [PStr "downloading"; PVal relative] else mret tt);;
  local_path ← local_path relative;
  t ← Task_init session local_path info;
  tasks_setitem session t.

(** [IPADump.on_download_data] *)
Definition on_download_data (session : value) (data : option bytes) : M unit :=
  t ← tasks_getitem session;
  Task_write t data.

(** [IPADump.close_session] *)
Definition close_session (session : value) : M unit :=
  t ← tasks_getitem session;
  Task_finish t;;
  tasks_delitem session.

(** [IPADump.on_download_finish] *)
Definition on_download_finish (session : value) : M unit :=
  close_session session.

(** [IPADump.on_download_error] *)
Definition on_download_error (session : value) : M unit :=
  close_session session.

(** [IPADump.on_mkdir] *)
Definition on_mkdir (path : value) : M unit :=
  local_path ← local_path path;
  os_mkdir local_path.

(** [self.session.detach()] *)
Definition session_detach : M unit :=
  w ← get_world;
  match session w with
  | None => raise AttributeError
  | Some n => modify (set_session (Some (S n)))
  end.

(** Binding [**payload] to a signature: a parameter without a value, or a
    name given twice, is a [TypeError]. *)
Definition keyword (payload : dict) (name : string) : M value :=
  match dict_get name payload with
  | Some v => mret v
  | None => raise TypeError
  end.

Definition reject_keywords (names : list string) (payload : dict) : M unit :=
  if existsb (fun n => dict_mem n payload) names then raise TypeError
  else mret tt.

Inductive method : Type :=
| m_on_download_start
| m_on_download_data
| m_on_download_finish
| m_on_download_error.

(** [method_mapping[event]] *)
Definition method_mapping (event : value) : M method :=
  match event with
  | VList _ | VDict _ => raise TypeError
  | VStr s =>
      if String.eqb s "start" then mret m_on_download_start
      else if String.eqb s "data" then mret m_on_download_data
      else if String.eqb s "end" then mret m_on_download_finish
      else if String.eqb s "error" then mret m_on_download_error
      else raise KeyError
  | _ => raise KeyError
  end.

(** [method(data=data, **payload)] *)
Definition call_method (m : method) (data : option bytes) (payload : dict) : M unit :=
  reject_keywords ["data"; "self"] payload;;
  match m with
  | m_on_download_start =>
      s ← keyword payload "session";
      r ← keyword payload "relative";
      i ← keyword payload "info";
      on_download_start s r i
  | m_on_download_data =>
      s ← keyword payload "session";
      on_download_data s data
  | m_on_download_finish =>
      s ← keyword payload "session";
      on_download_finish s
  | m_on_download_error =>
      s ← keyword payload "session";
      on_download_error s
  end.

(** [IPADump.on_message] *)
Definition on_message (msg : dict) (data : option bytes) : M unit :=
  if negb (eq_str (default VNone (dict_get "type" msg)) "send") then
    print [PStr "unknown message:"; PVal (VDict msg)]
  else
    match default (VDict []) (dict_get "payload" msg) with
    | VDict payload =>
        let subject := default VNone (dict_get "subject" payload) in
        if eq_str subject "download" then
          method ← method_mapping (default VNone (dict_get "event" payload));
          call_method method data payload
        else if eq_str subject "finish" then
          print [PStr "bye"];;
          session_detach;;
          raise (SystemExit 0)
        else if eq_str subject "mkdir" then
          reject_keywords ["self"] payload;;
          path ← keyword payload "path";
          on_mkdir path
        else
          print [PStr "unknown message"];;
          print [PVal (VDict msg)]
    | _ => raise AttributeError      (* [payload.get] on a non-dict *)
    end.

(** ** The collaborator and [IPADump.run]

    What the instrumentation runtime does is not in the source; one run of
    it is described by the outcomes of the calls into it and by the messages
    it hands to [on_message]. The messages are delivered in order while
    [script.exports.dump()] runs; whether an exception raised in the
    callback reaches the flow of [run] is the runtime's choice
    ([propagates]). *)

Record Collaborator : Type := mkCollaborator {
  workspace : string;                  (* the name [mkdtemp] settles on *)
  app_name : string;
  read_agent : option exn;             (* reading [agent/dist.js] *)
  attach : option exn;                 (* [spawn] and [attach] *)
  load : option exn;                   (* [create_script] .. [load] *)
  inbound : list (dict * option bytes);
  propagates : exn -> bool;
  dump_rpc : option exn;               (* [script.exports.dump()] itself *)
  archive : option exn                 (* [shutil.make_archive] *)
}.

Definition external (r : option exn) : M unit :=
  match r with
  | None => mret tt
  | Some e => raise e
  end.

Fixpoint deliver (propagates : exn -> bool) (msgs : list (dict * option bytes))
  : M unit :=
  match msgs with
  | [] => mret tt
  | (msg, data) :: rest => fun w =>
      match on_message msg data w with
      | (Return _, w') => deliver propagates rest w'
      | (Raise e, w') =>
          if propagates e then (Raise e, w') else deliver propagates rest w'
      end
  end.

(** [IPADump.inject] *)
Definition inject (c : Collaborator) : M unit :=
  external (read_agent c);;
  print [PStr "[info]"; PStr "attaching to target"];;
  external (attach c);;
  modify (set_session (Some 0%nat));;
  external (load c);;
  deliver (propagates c) (inbound c);;
  external (dump_rpc c).

(** [IPADump.run]; the [with] block is a [try] .. [finally] around its body. *)
Definition run (c : Collaborator) : M unit :=
  tempdir ← os_mkdtemp (workspace c);
  finally
    (modify (set_tempdir (Some tempdir));;
     inject c;;
     external (archive c);;
     print [PStr ("write to " ++ app_name c ++ ".zip")])
    (os_rmtree tempdir);;
  session_detach.

(** ** [fatal] and [dump]: choosing the device and the application

    What [frida] answers is data of the run: the devices it enumerates, the
    applications a device lists, and what the device does once an [IPADump]
    is run against one of its applications. A call into [frida] that fails
    carries its exception. *)

Module Application.
Record t : Type := mk {
  identifier : string;
  name : string;
  pid : Z
}.
End Application.

Module Device.
Record t : Type := mk {
  id : string;
  type : string;
  enumerate_applications : exn + list Application.t;
  runtime : Application.t -> Collaborator
}.
End Device.

Record Frida : Type := mkFrida {
  get_usb_device : exn + Device.t;
  enumerate_devices : exn + list Device.t
}.

Definition from_frida {A : Type} (r : exn + A) : M A :=
  match r with
  | inl e => raise e
  | inr a => mret a
  end.

(** The character [34], for the quotes inside a message. *)
Definition dquote : string := String (ascii_of_nat 34) EmptyString.

(** [fatal] *)
Definition fatal {A : Type} (reason : string) : M A :=
  print [PStr reason];;
  raise (SystemExit (-1)).

(** [IPADump.__init__] *)
Definition IPADump_init (verbose : option string) : M unit :=
  modify (fun w =>
    mkWorld None ∅
      (match verbose with Some v => truthy (VStr v) | None => false end)
      None (fs w) (ofiles w) (next_fd w) (stdout w) (calls w) (platform w)).

(** The run of [IPADump(dev, app)]: the device's behaviour for the
    application, with the archive named after [app.name]. *)
Definition runtime_of (dev : Device.t) (app : Application.t) : Collaborator :=
  let c := Device.runtime dev app in
  mkCollaborator (workspace c) (Application.name app) (read_agent c) (attach c)
    (load c) (inbound c) (propagates c) (dump_rpc c) (archive c).

(** [dump]: the first [if]. [next] takes the first device whose id starts
    with [device_id]; [StopIteration] goes to [fatal]. *)
Definition select_device (frida : Frida) (device_id : option string) : M Device.t :=
  match device_id with
  | None => from_frida (get_usb_device frida)
  | Some device_id =>
      devs ← from_frida (enumerate_devices frida);
      match List.find (fun dev => startswith (Device.id dev) device_id) devs with
      | Some dev => mret dev
      | None => fatal ("device id " ++ device_id ++ " not found")
      end
  end.

(** [for app in apps: print('%s (%s)' % (app.name, app.identifier))] *)
Fixpoint print_installed (apps : list Application.t) : M unit :=
  match apps with
  | [] => mret tt
  | app :: apps' =>
      print [PStr (Application.name app ++ " (" ++ Application.identifier app ++ ")")];;
      print_installed apps'
  end.

(** [dump]: the second [try]. The bare [except] takes every failure of the
    search, a failing enumeration included; its [for] loop enumerates
    again. *)
Definition select_app (dev : Device.t) (app_name_or_id : string) : M Application.t :=
  let found :=
    match Device.enumerate_applications dev with
    | inr apps =>
        List.find (fun app => String.eqb app_name_or_id (Application.identifier app)
                              || String.eqb app_name_or_id (Application.name app)) apps
    | inl _ => None
    end in
  match found with
  | Some app => mret app
  | None =>
      print [PStr ("app " ++ dquote ++ app_name_or_id ++ dquote ++ " not found")];;
      print [PStr "installed app:"];;
      apps ← from_frida (Device.enumerate_applications dev);
      print_installed apps;;
      fatal ""
  end.

(** [dump] *)
Definition dump (frida : Frida) (app_name_or_id : string)
    (device_id verbose : option string) : M unit :=
  dev ← select_device frida device_id;
  (if negb (String.eqb (Device.type dev) "tether")
   then fatal "unable to find device" else mret tt);;
  app ← select_app dev app_name_or_id;
  IPADump_init verbose;;
  run (runtime_of dev app).

(** ** Messages of the download protocol, as the agent sends them *)

Definition send (payload : dict) : dict :=
  [("type", VStr "send"); ("payload", VDict payload)].

Definition download_start (session relative info : value) : dict :=
  send [("subject", VStr "download"); ("event", VStr "start");
        ("session", session); ("relative", relative); ("info", info)].

Definition download_event (event : string) (session : value) : dict :=
  send [("subject", VStr "download"); ("event", VStr event);
        ("session", session)].

Definition mkdir_message (path : value) : dict :=
  send [("subject", VStr "mkdir"); ("path", path)].

(** [msg] is a [download]/[start] message for the registry key [k]. *)
Definition starts_session (msg : dict) (k : key) : bool :=
  eq_str (default VNone (dict_get "type" msg)) "send" &&
  match default (VDict []) (dict_get "payload" msg) with
  | VDict payload =>
      eq_str (default VNone (dict_get "subject" payload)) "download" &&
      eq_str (default VNone (dict_get "event" payload)) "start" &&
      match dict_get "session" payload with
      | Some s => bool_decide (hash_key s = Some k)
      | None => false
      end
  | _ => false
  end.

(** What a reader of the path [p] finds. *)
Definition read_file (w : World) (p : string) : option bytes :=
  match resolve (fs w) p with
  | inr n =>
      match fs_lookup (fs w) n with
      | Some (File c _ _ _) => Some c
      | _ => None
      end
  | inl _ => None
  end.

(** Nothing can be found at [p]. *)
Definition is_missing (w : World) (p : string) : bool :=
  match resolve (fs w) p with
  | inl FileNotFoundError => true
  | inl _ => false
  | inr n => match fs_lookup (fs w) n with None => true | Some _ => false end
  end.

Definition is_utime (c : syscall) : bool :=
  match c with SysUtime _ _ _ => true | _ => false end.

Definition is_chmod (c : syscall) : bool :=
  match c with SysChmod _ _ => true | _ => false end.

Definition node_times (o : option node) : option (Z * Z) :=
  match o with
  | Some (File _ tm _ _) => tm
  | _ => None
  end.

(** ** Vocabulary of the properties *)

(** A message the relation tolerates: it is not a start for a key outside
    [K]. *)
Definition tolerated (K : key -> Prop) (msg : dict) : Prop :=
  forall k, K k \/ starts_session msg k = false.

(** ** A small world for the examples

    A Linux machine with an ext4 file system: blocks of 4096 bytes, time
    stamps from [-2^31] to [2^34 - 2^31 - 1]. The interpreter's recursion
    limit is the default of 1000, under which [rmtree] is taken to get 900
    directories deep. *)
Definition example_platform : Platform :=
  mkPlatform 4096 (- 2 ^ 31) (2 ^ 34 - 2 ^ 31 - 1) 900.

(** The workspace [/tmp/ws] exists and is empty, nothing is open, the
    session is attached. *)
Definition example_world : World :=
  mkWorld (Some "/tmp/ws") ∅ false (Some 0%nat)
    (<[ ["tmp"; "ws"] := Dir ]> (<[ ["tmp"] := Dir ]> ∅)) ∅ 3 [] []
    example_platform.

(** Directories are never removed or replaced while messages are handled. *)
Definition keeps_dirs (w w' : World) : Prop :=
  forall p, fs_lookup (fs w) p = Some Dir -> fs_lookup (fs w') p = Some Dir.

(** A key that is not in the registry stays out of it. *)
Definition keeps_unknown (k : key) (w w' : World) : Prop :=
  tasks w !! k = None -> tasks w' !! k = None.

(** Another transfer (key 2) is open when the events for key 1 arrive. *)
Definition other_transfer : list (dict * option bytes) :=
  [ (download_start (VInt 2) (VStr "b.bin") (VDict [("permission", VInt 420)]), None);
    (download_event "data" (VInt 2), Some [Byte.x61]) ].

(** The state in which [on_download_start] looks at the path: the name has
    been printed when [verbose] is set. *)
Definition announced (relative : value) (w : World) : World :=
  if verbose w
  then set_stdout (stdout w ++ [[PStr "downloading"; PVal relative]]) w
  else w.

Definition start_a_bin : dict :=
  download_start (VInt 1) (VStr "a.bin") (VDict [("permission", VInt 420)]).

(** The world after one start for key 1. *)
Definition one_open : World := (on_message start_a_bin None example_world).2.

(** The node a path names, when it can be resolved at all. *)
Definition target (p : string) : fspath :=
  fold_left step (components p) [].

(** The transfer of task [t] under key [k] is open on the file at node [n]:
    no other task holds its file object and no other open file is on that
    node, the file holds [c] and the buffer [buf], so that [c ++ buf] is
    what has been written so far. *)
Definition receiving (root : string) (k : key) (t : Task.t) (n : fspath)
    (c buf : bytes) (w : World) : Prop :=
  tempdir w = Some root /\
  tasks w !! k = Some t /\
  (forall k' t', tasks w !! k' = Some t' -> Task.file t' = Task.file t -> k' = k) /\
  (forall fd o, ofiles w !! fd = Some o -> of_node o = n -> fd = Task.file t) /\
  ofiles w !! Task.file t = Some (mkOfile n (length c) buf) /\
  exists tm md ow, fs_lookup (fs w) n = Some (File c tm md ow).

(** No file that is open is on the node [n]. *)
Definition unopened (w : World) (n : fspath) : bool :=
  forallb (fun fo : nat * ofile => negb (bool_decide (of_node fo.2 = n)))
          (map_to_list (ofiles w)).

(** No file that is open is on the node [n], and when [oc] gives contents
    the file at [n] holds them. *)
Definition settled (root : string) (n : fspath) (oc : option bytes) (w : World) : Prop :=
  tempdir w = Some root /\
  (forall fd o, ofiles w !! fd = Some o -> of_node o <> n) /\
  forall c, oc = Some c -> exists tm md ow, fs_lookup (fs w) n = Some (File c tm md ow).

(** [Task.finish] after the [close]. *)
Definition finish_tail (self : Task.t) : M unit :=
  creation ← py_get (Task.info self) "creation";
  modification ← py_get (Task.info self) "modification";
  except_FileNotFoundError (restore_metadata self (creation, modification)).

(** What arrives between the start and the end event of a transfer: data
    events of the transfer itself, and other messages. *)
Inductive event : Type :=
| Own (b : bytes)
| Other (msg : dict) (data : option bytes).

Definition event_message (s : value) (e : event) : dict * option bytes :=
  match e with
  | Own b => (download_event "data" s, Some b)
  | Other msg data => (msg, data)
  end.

Definition own_payloads (evs : list event) : bytes :=
  concat (List.map (fun e => match e with Own b => b | Other _ _ => [] end) evs).

Definition is_own (e : event) : bool :=
  match e with Own _ => true | Other _ _ => false end.

(** [msg] is no download event for the key [k], and no start event for a
    path that names the node [n]. *)
Definition foreign (root : string) (k : key) (n : fspath) (msg : dict) : bool :=
  negb (eq_str (default VNone (dict_get "type" msg)) "send") ||
  match default (VDict []) (dict_get "payload" msg) with
  | VDict payload =>
      negb (eq_str (default VNone (dict_get "subject" payload)) "download") ||
      match dict_get "session" payload with
      | None => true
      | Some s =>
          negb (bool_decide (hash_key s = Some k)) &&
          (negb (eq_str (default VNone (dict_get "event" payload)) "start") ||
           match dict_get "relative" payload with
           | Some (VStr rel) => negb (bool_decide (target (os_path_join root rel) = n))
           | _ => true
           end)
      end
  | _ => true
  end.

Definition foreign_event (root : string) (k : key) (n : fspath) (e : event) : bool :=
  match e with
  | Own _ => true
  | Other msg _ => foreign root k n msg
  end.

(** [stable R m]: running [m] moves the state along [R], whether [m]
    returns or raises. *)
Definition stable {A : Type} (R : World -> World -> Prop) (m : M A) : Prop :=
  forall w, R w (m w).2.

(** [holds I m Q]: running [m] keeps the invariant [I], whether [m] returns
    or raises, and what it returns satisfies [Q]. *)
Definition holds {A : Type} (I : World -> Prop) (m : M A) (Q : A -> Prop) : Prop :=
  forall w, I w -> I (m w).2 /\ forall a, (m w).1 = Return a -> Q a.

(** A message all of whose download events are for keys in [okkey], whose
    start event (if it is one) is for a path in [okopen], and whose [mkdir]
    (if it is one) is for a path in [okmkdir]; [root] is the workspace. *)
Definition allowed (okkey : key -> Prop) (okopen okmkdir : string -> Prop)
    (root : string) (msg : dict) : Prop :=
  forall payload,
    default (VDict []) (dict_get "payload" msg) = VDict payload ->
    (eq_str (default VNone (dict_get "subject" payload)) "download" = true ->
     forall s, dict_get "session" payload = Some s ->
       (forall k, hash_key s = Some k -> okkey k)
       /\ (eq_str (default VNone (dict_get "event" payload)) "start" = true ->
           forall rel, dict_get "relative" payload = Some (VStr rel) ->
                       okopen (os_path_join root rel)))
    /\ (eq_str (default VNone (dict_get "subject" payload)) "mkdir" = true ->
        forall rel, dict_get "path" payload = Some (VStr rel) ->
                    okmkdir (os_path_join root rel)).



Definition data_events (s : value) (bs : list bytes) : list (dict * option bytes) :=
  List.map (fun b => (download_event "data" s, Some b)) bs.

(** What can be read at [p] is not changed by restoring metadata. *)
Definition keeps_read (p : string) (c : bytes) (w w' : World) : Prop :=
  read_file w p = Some c -> read_file w' p = Some c.

(** What cannot be found at [p] still cannot be found. *)
Definition keeps_missing (p : string) (w w' : World) : Prop :=
  is_missing w p = true -> is_missing w' p = true.

(** The file at node [n] keeps its times, its mode and its owner; its
    contents may change. *)
Definition keeps_file_meta (n : fspath) (tm : option (Z * Z)) (md : Z) (ow : bool)
    (w w' : World) : Prop :=
  (exists c, fs_lookup (fs w) n = Some (File c tm md ow)) ->
  exists c', fs_lookup (fs w') n = Some (File c' tm md ow).

(** The trace grows, by calls other than [utime] and [chmod]. *)
Definition no_metadata_calls (w w' : World) : Prop :=
  exists l, calls w' = (calls w ++ l)%list
            /\ Forall (fun c => is_utime c = false /\ is_chmod c = false) l.

(** The trace grows by calls other than [utime], and no time stamp moves. *)
Definition no_utime (w w' : World) : Prop :=
  (exists l, calls w' = (calls w ++ l)%list /\ Forall (fun c => is_utime c = false) l)
  /\ forall n, node_times (fs w' !! n) = node_times (fs w !! n).

(** A transfer whose [info] carries time stamps, after its start event. *)
Definition stamped_info (c m : value) : value :=
  VDict [("creation", c); ("modification", m); ("permission", VInt 420)].

Definition stamped_task (c m : value) : Task.t :=
  Task.mk (VInt 1) "/tmp/ws/a.bin" (stamped_info c m) 3.

Definition stamped_open (c m : value) : World :=
  (on_message (download_start (VInt 1) (VStr "a.bin") (stamped_info c m))
     None example_world).2.


(** The registry and the output are not touched by [finish]. *)
Definition same_registry (w w' : World) : Prop :=
  tasks w' = tasks w /\ stdout w' = stdout w.

(** A log file next to the workspace that belongs to another user and is
    writable by everybody. *)
Definition shared_world : World :=
  set_fs (<[ ["tmp"; "shared.log"] := File [Byte.x41] None 438 false ]>
            (fs example_world)) example_world.

Definition shared_open : World :=
  (on_message (download_start (VInt 1) (VStr "../shared.log")
                 (VDict [("permission", VInt 420)])) None shared_world).2.


(** A machine on which only [/tmp] exists and nothing is attached. *)
Definition fresh_world : World :=
  mkWorld None ∅ false None (<[ ["tmp"] := Dir ]> ∅) ∅ 3 [] [] example_platform.

(** A run that creates a directory and a file and then receives [finish]. *)
Definition finishing_run : Collaborator :=
  mkCollaborator "/tmp/ws" "App" None None None
    [ (mkdir_message (VStr "Payload"), None);
      (download_start (VInt 1) (VStr "Payload/exe") (VDict [("permission", VInt 493)]), None);
      (download_event "data" (VInt 1), Some [Byte.xca; Byte.xfe]);
      (mkdir_message (VStr "finish"), None);
      (send [("subject", VStr "finish")], None) ]
    (fun _ => true) None None.




(** What a node is: a directory, or a file of an owner. *)
Definition node_kind (o : option node) : option (option bool) :=
  match o with
  | Some Dir => Some None
  | Some (File _ _ _ ow) => Some (Some ow)
  | None => None
  end.

(** Nothing that exists is removed or changes its kind. *)
Definition keeps_nodes (w w' : World) : Prop :=
  forall p, node_kind (fs w !! p) <> None ->
            node_kind (fs w' !! p) = node_kind (fs w !! p).

(** The line [dump] prints for an installed application. *)
Definition installed_line (app : Application.t) : list printable :=
  [PStr (Application.name app ++ " (" ++ Application.identifier app ++ ")")].

(** [/tmp/ws/Payload] exists in the workspace. *)
Definition payload_world : World :=
  set_fs (<[ ["tmp"; "ws"; "Payload"] := Dir ]> (fs example_world)) example_world.

(** The descriptors and the registry as they are, for the part of [finish]
    after the [close]. *)
Definition same_ofiles (w w' : World) : Prop :=
  ofiles w' = ofiles w /\ tasks w' = tasks w.

(** Data events of two keys in any order: [true] marks an event of the
    first key. *)
Definition interleaved (s1 s2 : value) (es : list (bool * bytes))
  : list (dict * option bytes) :=
  List.map (fun e : bool * bytes =>
              (download_event "data" (if e.1 then s1 else s2), Some e.2)) es.

(** The payloads of one of the two keys, in the order received. *)
Definition payloads_of (b : bool) (es : list (bool * bytes)) : bytes :=
  concat (List.map snd (List.filter (fun e : bool * bytes => Bool.eqb e.1 b) es)).

(** A phone and the local machine, as [frida] enumerates them. *)
Definition idle_runtime (app : Application.t) : Collaborator :=
  mkCollaborator "/tmp/ws" "" None None None [] (fun _ => true) None None.

Definition example_apps : list Application.t :=
  [ Application.mk "com.apple.mobilesafari" "Safari" 0;
    Application.mk "com.example.notes" "Notes" 412;
    Application.mk "Notes" "Other" 0 ].

Definition phone : Device.t :=
  Device.mk "a1b2c3d4" "tether" (inr example_apps) idle_runtime.

Definition local_machine : Device.t :=
  Device.mk "local" "local" (inr []) idle_runtime.

Definition example_frida : Frida :=
  mkFrida (inr phone) (inr [local_machine; phone]).

(** * Properties *)

(** ** Strings *)

Lemma startswith_app (a b : string) : startswith (a ++ b) a = true.
Proof.
  induction a as [|c a IH]; [reflexivity|].
  change (Ascii.eqb c c && startswith (a ++ b) a = true).
  rewrite Ascii.eqb_refl. exact IH.
Qed.

Lemma startswith_refl (a : string) : startswith a a = true.
Proof.
  induction a as [|c a IH]; simpl; [reflexivity|].
  rewrite Ascii.eqb_refl. exact IH.
Qed.

(** A name that does not start with a slash is appended to the parent, so
    the prefix test cannot fail on it. *)
Lemma join_relative_startswith (parent rel : string) :
  startswith rel "/" = false ->
  startswith (os_path_join parent rel) parent = true.
Proof.
  intros Hrel. unfold os_path_join. rewrite Hrel.
  destruct (String.eqb parent "" || endswith_slash parent);
    apply startswith_app.
Qed.

Lemma join_absolute (parent rel : string) :
  startswith rel "/" = true -> os_path_join parent rel = rel.
Proof. intros Hrel. unfold os_path_join. now rewrite Hrel. Qed.

(** ** Paths and their components *)

Lemma components_go_slash (a b cur : string) :
  components_go cur (a ++ String "/" b)
  = (components_go cur a ++ components_go "" b)%list.
Proof.
  revert cur. induction a as [|c a IH]; intros cur.
  - reflexivity.
  - change (components_go cur (String c (a ++ String "/" b))
            = (components_go cur (String c a) ++ components_go "" b)%list).
    simpl. destruct (Ascii.eqb c "/"); simpl; now rewrite IH.
Qed.

Lemma components_slash (a b : string) :
  components (a ++ String "/" b) = (components a ++ components b)%list.
Proof. unfold components. rewrite components_go_slash. apply List.filter_app. Qed.

Lemma endswith_slash_split (a : string) :
  endswith_slash a = true -> exists a', a = a' ++ "/".
Proof.
  induction a as [|c a IH]; [discriminate|].
  destruct a as [|d a].
  - simpl. intros H. apply Ascii.eqb_eq in H. subst c. now exists "".
  - intros H. destruct (IH H) as [a' Ha']. exists (String c a').
    change (String c (String d a) = String c (a' ++ "/")). now rewrite Ha'.
Qed.

Lemma string_app_empty_r (a : string) : a ++ "" = a.
Proof.
  induction a as [|c a IH]; [reflexivity|].
  change (String c (a ++ "") = String c a). now rewrite IH.
Qed.

Lemma string_app_assoc (a b c : string) : (a ++ b) ++ c = a ++ (b ++ c).
Proof.
  induction a as [|x a IH]; [reflexivity|].
  change (String x ((a ++ b) ++ c) = String x (a ++ (b ++ c))). now rewrite IH.
Qed.

(** A name that does not start with a slash is resolved component by
    component after the components of the root. *)
Lemma components_join (root rel : string) :
  root <> "" -> startswith rel "/" = false ->
  components (os_path_join root rel) = (components root ++ components rel)%list.
Proof.
  intros Hroot Hrel. unfold os_path_join. rewrite Hrel.
  apply String.eqb_neq in Hroot. rewrite Hroot. simpl.
  destruct (endswith_slash root) eqn:Hend.
  - destruct (endswith_slash_split root Hend) as [a' ->].
    rewrite string_app_assoc.
    change ("/" ++ rel) with (String "/" rel).
    change (a' ++ "/") with (a' ++ String "/" "").
    rewrite !components_slash. change (components "") with (@nil string).
    now rewrite app_nil_r.
  - change ("/" ++ rel) with (String "/" rel). apply components_slash.
Qed.

Lemma walk_app (f : gmap fspath node) (cs1 cs2 : list string) (cur n : fspath) :
  walk f cur (cs1 ++ cs2) = inr n ->
  exists m, walk f cur cs1 = inr m /\ walk f m cs2 = inr n.
Proof.
  revert cur. induction cs1 as [|c cs1 IH]; intros cur; simpl.
  - intros H. now exists cur.
  - destruct (fs_lookup f cur) as [[|? ? ? ?]|]; try discriminate. apply IH.
Qed.

Lemma walk_prefix (f : gmap fspath node) (cs : list string) (cur n : fspath) :
  ~ In ".." cs -> walk f cur cs = inr n -> cur `prefix_of` n.
Proof.
  revert cur. induction cs as [|c cs IH]; intros cur Hno; simpl.
  - intros [= ->]. reflexivity.
  - destruct (fs_lookup f cur) as [[|? ? ? ?]|]; try discriminate.
    intros Hwalk. apply IH in Hwalk; [|intros Hin; apply Hno; now right].
    etransitivity; [|exact Hwalk]. unfold step.
    destruct (String.eqb c "."); [reflexivity|].
    destruct (String.eqb c "..") eqn:Hdd.
    + apply String.eqb_eq in Hdd. subst c. exfalso. apply Hno. now left.
    + now apply prefix_app_r.
Qed.

Lemma os_path_join_nonempty (root rel : string) :
  root <> "" -> startswith rel "/" = false -> os_path_join root rel <> "".
Proof.
  intros Hroot Hrel. unfold os_path_join. rewrite Hrel.
  destruct root as [|c root]; [contradiction|].
  destruct (_ || _); discriminate.
Qed.

(** ** The monad *)

Lemma bind_Return {A B : Type} (m : M A) (f : A -> M B) (w w' : World) (a : A) :
  m w = (Return a, w') -> (m ≫= f) w = f a w'.
Proof. intros H. unfold mbind, M_bind. now rewrite H. Qed.

Lemma bind_Raise {A B : Type} (m : M A) (f : A -> M B) (w w' : World) (e : exn) :
  m w = (Raise e, w') -> (m ≫= f) w = (Raise e, w').
Proof. intros H. unfold mbind, M_bind. now rewrite H. Qed.

Section Stable.
Context (R : World -> World -> Prop) `{!PreOrder R}.

Lemma stable_ret {A : Type} (a : A) : stable R (mret a).
Proof. intros w. simpl. reflexivity. Qed.

Lemma stable_raise {A : Type} (e : exn) : stable R (raise (A := A) e).
Proof. intros w. simpl. reflexivity. Qed.

Lemma stable_get_world : stable R get_world.
Proof. intros w. simpl. reflexivity. Qed.

Lemma stable_bind {A B : Type} (m : M A) (f : A -> M B) :
  stable R m -> (forall a, stable R (f a)) -> stable R (m ≫= f).
Proof.
  intros Hm Hf w. unfold mbind, M_bind.
  specialize (Hm w). destruct (m w) as [[a|e] w1]; simpl in *.
  - etransitivity; [exact Hm | apply Hf].
  - exact Hm.
Qed.

Lemma stable_ret_bind {A B : Type} (a : A) (f : A -> M B) :
  stable R (f a) -> stable R (mret a ≫= f).
Proof. intros Hf w. exact (Hf w). Qed.

(** A computation that reads the state first. *)
Lemma stable_read {B : Type} (f : World -> M B) :
  (forall w0, stable R (f w0)) -> stable R (get_world ≫= f).
Proof. intros Hf. apply stable_bind; [apply stable_get_world | exact Hf]. Qed.

Lemma stable_modify (f : World -> World) :
  (forall w, R w (f w)) -> stable R (modify f).
Proof. intros Hf w. simpl. apply Hf. Qed.

Lemma stable_except (m : M unit) :
  stable R m -> stable R (except_FileNotFoundError m).
Proof.
  intros Hm w. unfold except_FileNotFoundError.
  specialize (Hm w). destruct (m w) as [[a|[]] w1]; simpl in *; try exact Hm.
  destruct e; exact Hm.
Qed.

Lemma stable_finally {A : Type} (m : M A) (h : M unit) :
  stable R m -> stable R h -> stable R (finally m h).
Proof.
  intros Hm Hh w. unfold finally.
  specialize (Hm w). destruct (m w) as [r w1]. simpl in Hm.
  specialize (Hh w1). destruct (h w1) as [[a|e] w2]; simpl in *;
    etransitivity; eauto.
Qed.

Lemma stable_external (r : option exn) : stable R (external r).
Proof. destruct r; [apply stable_raise | apply stable_ret]. Qed.

Lemma stable_keyword (payload : dict) (name : string) :
  stable R (keyword payload name).
Proof.
  unfold keyword. destruct (dict_get name payload);
    [apply stable_ret | apply stable_raise].
Qed.

(** The continuation may use where the value came from. *)
Lemma stable_keyword_bind {B : Type} (payload : dict) (name : string)
      (f : value -> M B) :
  (forall v, dict_get name payload = Some v -> stable R (f v)) ->
  stable R (keyword payload name ≫= f).
Proof.
  intros Hf. unfold keyword.
  destruct (dict_get name payload) as [v|].
  - apply stable_ret_bind. now apply Hf.
  - intros w. simpl. reflexivity.
Qed.

Lemma stable_reject_keywords (names : list string) (payload : dict) :
  stable R (reject_keywords names payload).
Proof.
  unfold reject_keywords. destruct (existsb _ names);
    [apply stable_raise | apply stable_ret].
Qed.

Lemma stable_method_mapping (event : value) : stable R (method_mapping event).
Proof.
  unfold method_mapping.
  destruct event; try apply stable_raise.
  repeat (match goal with |- context [String.eqb ?a ?b] => destruct (String.eqb a b) end;
          try apply stable_ret).
  apply stable_raise.
Qed.

Lemma stable_py_get (v : value) (k : string) : stable R (py_get v k).
Proof. destruct v; simpl; try apply stable_raise. apply stable_ret. Qed.

Lemma stable_py_getitem (v : value) (k : string) : stable R (py_getitem v k).
Proof.
  destruct v; simpl; try apply stable_raise.
  destruct (dict_get k d); [apply stable_ret | apply stable_raise].
Qed.

Lemma stable_c_int (lo hi : Z) (v : value) : stable R (c_int lo hi v).
Proof.
  unfold c_int. destruct (as_int v); [|apply stable_raise].
  destruct (_ && _); [apply stable_ret | apply stable_raise].
Qed.
End Stable.

(** ** Frame rules

    A relation between states that ignores the fields an operation writes
    is kept by the operation. The hypotheses name what a relation has to
    tolerate; the instances below are the invariants of the protocol. *)

Ltac stable_leaf :=
  first
    [ apply stable_ret | apply stable_raise | apply stable_get_world
    | apply stable_keyword | apply stable_reject_keywords
    | apply stable_method_mapping | apply stable_py_get
    | apply stable_py_getitem | apply stable_c_int | apply stable_external ];
  try first [assumption | apply _].

(** [m ≫= f]: the goal for [m] stays open unless it is one of the leaves. *)
Ltac stable_seq :=
  apply stable_bind; [first [assumption | apply _] | try stable_leaf | intros ?].

Section Frame.
Context (R : World -> World -> Prop) `{!PreOrder R}.
(** The system calls the relation lets the trace grow by. *)
Variable P : syscall -> Prop.
Hypothesis R_calls : forall c w, P c -> R w (set_calls (calls w ++ [c]) w).
Hypothesis P_open : forall p, P (SysOpen p).
Hypothesis P_write : forall fd data, P (SysWrite fd data).
Hypothesis P_close : forall fd, P (SysClose fd).
Hypothesis P_utime : forall p a m, P (SysUtime p a m).
Hypothesis P_chmod : forall p md, P (SysChmod p md).
Hypothesis P_mkdir : forall p, P (SysMkdir p).
Hypothesis R_ofiles : forall x w, R w (set_ofiles x w).
Hypothesis R_fs_times : forall n c tm md ow tm' w,
  fs w !! n = Some (File c tm md ow) ->
  R w (set_fs (<[n := File c tm' md ow]> (fs w)) w).
Hypothesis R_fs_mode : forall n c tm md ow md' w,
  fs w !! n = Some (File c tm md ow) ->
  R w (set_fs (<[n := File c tm md' ow]> (fs w)) w).
Hypothesis R_fs_write : forall n c tm md ow c' w,
  fs w !! n = Some (File c tm md ow) ->
  R w (set_fs (<[n := File c' tm md ow]> (fs w)) w).
Hypothesis R_fs_create : forall n nd w,
  fs_lookup (fs w) n = None ->
  R w (set_fs (<[n := nd]> (fs w)) w).
Hypothesis R_next_fd : forall x w, R w (set_next_fd x w).
Hypothesis R_stdout : forall x w, R w (set_stdout x w).
Hypothesis R_session : forall x w, R w (set_session x w).
Hypothesis R_tasks_delete : forall k w, R w (set_tasks (delete k (tasks w)) w).
(** Keys whose insertion the relation tolerates. *)
Variable K : key -> Prop.
Hypothesis R_tasks_insert : forall k t w,
  K k -> R w (set_tasks (<[k := t]> (tasks w)) w).

Lemma stable_syscall_trace (c : syscall) : P c -> stable R (syscall_trace c).
Proof. intros Hc. apply stable_modify. intros w. now apply R_calls. Qed.

Lemma stable_raw_write (fd : nat) (o : ofile) (data : bytes) :
  stable R (raw_write fd o data).
Proof.
  intros w. unfold raw_write, mbind, M_bind. simpl.
  pose proof (R_calls (SysWrite fd data) w (P_write fd data)) as Hcall.
  etransitivity; [|apply R_ofiles].
  destruct (fs w !! of_node o) as [[|c tm md ow]|] eqn:Hn; try exact Hcall.
  etransitivity; [exact Hcall|].
  now apply (R_fs_write (of_node o) c tm md ow _ (set_calls _ w)).
Qed.

Lemma stable_os_flush (fd : nat) : stable R (os_flush fd).
Proof.
  unfold os_flush. stable_seq.
  destruct (ofiles _ !! fd) as [o|]; [|stable_leaf].
  destruct (of_buf o); [stable_leaf | apply stable_raw_write].
Qed.

Lemma stable_os_close (fd : nat) : stable R (os_close fd).
Proof.
  unfold os_close. stable_seq.
  destruct (ofiles _ !! fd); [|stable_leaf].
  stable_seq; [apply stable_os_flush|].
  stable_seq; [apply stable_syscall_trace, P_close|].
  apply stable_modify. intros w. apply R_ofiles.
Qed.

Lemma fs_lookup_File (f : gmap fspath node) n c tm md ow :
  fs_lookup f n = Some (File c tm md ow) -> f !! n = Some (File c tm md ow).
Proof. destruct n; [discriminate | trivial]. Qed.

(** [set_metadata] keeps a relation that tolerates the update. *)
Lemma stable_set_metadata (p : string) (upd : node -> node) :
  (forall n c tm md w,
      fs w !! n = Some (File c tm md true) ->
      R w (set_fs (<[n := upd (File c tm md true)]> (fs w)) w)) ->
  stable R (set_metadata p upd).
Proof.
  intros Hupd w. unfold set_metadata, mbind, M_bind. simpl.
  destruct (resolve (fs w) p) as [e|n]; simpl; [reflexivity|].
  destruct (fs_lookup (fs w) n) as [[|c tm md ow]|] eqn:Hn; simpl;
    try reflexivity.
  destruct (endswith_slash p); simpl; [reflexivity|].
  destruct ow; simpl; [|reflexivity].
  apply Hupd. now apply fs_lookup_File.
Qed.

Lemma stable_os_utime (p : string) (times : value * value) :
  stable R (os_utime p times).
Proof.
  unfold os_utime. do 2 stable_seq.
  stable_seq; [apply stable_syscall_trace, P_utime|].
  stable_seq.
  apply stable_set_metadata. intros n c tm md w Hn. now apply R_fs_times with (tm := tm).
Qed.

Lemma stable_os_chmod (p : string) (mode : value) : stable R (os_chmod p mode).
Proof.
  unfold os_chmod. stable_seq.
  stable_seq; [apply stable_syscall_trace, P_chmod|].
  apply stable_set_metadata. intros n c tm md w Hn. now apply R_fs_mode with (md := md).
Qed.

(** The part of [restore_metadata] after the timestamps. *)
Lemma stable_restore_permission (t : Task.t) :
  stable R (permission ← py_getitem (Task.info t) "permission";
            os_chmod (Task.path t) permission).
Proof. stable_seq. apply stable_os_chmod. Qed.

Lemma stable_restore_metadata (t : Task.t) (tp : value * value) :
  stable R (restore_metadata t tp).
Proof.
  unfold restore_metadata. stable_seq.
  - destruct (_ && _); [apply stable_os_utime | stable_leaf].
  - apply stable_restore_permission.
Qed.

Lemma stable_Task_finish (t : Task.t) : stable R (Task_finish t).
Proof.
  unfold Task_finish, Task_close.
  stable_seq; [apply stable_os_close|].
  do 2 stable_seq.
  apply stable_except. apply stable_restore_metadata.
Qed.

(** Peels the outermost field update off the state reached. *)
Ltac peel :=
  etransitivity;
  [| first [ apply R_ofiles | apply R_next_fd
           | apply R_stdout | apply R_session | apply R_tasks_delete ] ].

Lemma stable_print (args : list printable) : stable R (print args).
Proof. apply stable_modify. intros w. apply R_stdout. Qed.

Lemma stable_os_open_wb (p : string) : stable R (os_open_wb p).
Proof.
  intros w. unfold os_open_wb, mbind, M_bind. simpl.
  pose proof (R_calls (SysOpen p) w (P_open p)) as Hcall.
  destruct (resolve (fs w) p) as [e|n]; simpl; [exact Hcall|].
  destruct (fs_lookup (fs w) n) as [[|c tm md ow]|] eqn:Hn; simpl;
    [exact Hcall | |];
    (destruct (endswith_slash p); simpl; [exact Hcall|]).
  - destruct (writable md ow); simpl; [|exact Hcall].
    do 2 peel. etransitivity; [exact Hcall|].
    apply (R_fs_write n c tm md ow [] (set_calls _ w)).
    simpl. now apply fs_lookup_File.
  - do 2 peel. etransitivity; [exact Hcall|].
    now apply (R_fs_create n _ (set_calls _ w)).
Qed.

Lemma stable_os_write (fd : nat) (data : bytes) : stable R (os_write fd data).
Proof.
  unfold os_write. stable_seq.
  destruct (ofiles _ !! fd) as [o|]; [|stable_leaf].
  destruct (_ <=? _)%nat.
  - apply stable_modify. intros w. apply R_ofiles.
  - stable_seq; [apply stable_os_flush|].
    destruct (_ <? _)%nat; [apply stable_raw_write|].
    apply stable_modify. intros w. apply R_ofiles.
Qed.

Lemma stable_os_mkdir (p : string) : stable R (os_mkdir p).
Proof.
  intros w. unfold os_mkdir, mbind, M_bind. simpl.
  pose proof (R_calls (SysMkdir p) w (P_mkdir p)) as Hcall.
  destruct (resolve (fs w) p) as [e|n]; simpl; [exact Hcall|].
  destruct (fs_lookup (fs w) n) eqn:Hn; simpl; [exact Hcall|].
  etransitivity; [exact Hcall|].
  now apply (R_fs_create n Dir (set_calls _ w)).
Qed.

Lemma stable_local_path (relative : value) : stable R (local_path relative).
Proof.
  unfold local_path. stable_seq.
  destruct (tempdir _); [|stable_leaf].
  destruct relative; try stable_leaf.
  simpl. destruct (negb _); stable_leaf.
Qed.

Lemma stable_tasks_getitem (s : value) : stable R (tasks_getitem s).
Proof.
  unfold tasks_getitem. stable_seq.
  destruct (hash_key s); [|stable_leaf].
  destruct (tasks _ !! _); stable_leaf.
Qed.

Lemma stable_tasks_delitem (s : value) : stable R (tasks_delitem s).
Proof.
  unfold tasks_delitem. stable_seq.
  destruct (hash_key s); [|stable_leaf].
  destruct (tasks _ !! _); [|stable_leaf].
  stable_seq; [|apply stable_os_close].
  apply stable_modify. intros w. apply R_tasks_delete.
Qed.

(** Storing a task is kept when its key is one the relation tolerates. *)
Lemma stable_tasks_setitem (s : value) (t : Task.t) :
  (forall k, hash_key s = Some k -> K k) ->
  stable R (tasks_setitem s t).
Proof.
  intros HK. unfold tasks_setitem. destruct (hash_key s) as [k|].
  - stable_seq.
    stable_seq; [apply stable_modify; intros w; apply R_tasks_insert; now apply HK|].
    destruct (tasks _ !! k); [apply stable_os_close | stable_leaf].
  - stable_seq; [apply stable_os_close | stable_leaf].
Qed.

Lemma stable_session_detach : stable R session_detach.
Proof.
  unfold session_detach. stable_seq.
  destruct (session _); [|stable_leaf].
  apply stable_modify. intros w. apply R_session.
Qed.

Lemma stable_on_download_data (s : value) (data : option bytes) :
  stable R (on_download_data s data).
Proof.
  unfold on_download_data. stable_seq; [apply stable_tasks_getitem|].
  unfold Task_write. destruct data; [apply stable_os_write | stable_leaf].
Qed.

Lemma stable_close_session (s : value) : stable R (close_session s).
Proof.
  unfold close_session. stable_seq; [apply stable_tasks_getitem|].
  stable_seq; [apply stable_Task_finish | apply stable_tasks_delitem].
Qed.

Lemma stable_on_mkdir (path : value) : stable R (on_mkdir path).
Proof.
  unfold on_mkdir. stable_seq; [apply stable_local_path | apply stable_os_mkdir].
Qed.

(** A start event is kept when its key is one the relation tolerates. *)
Lemma stable_on_download_start (s relative info : value) :
  (forall k, hash_key s = Some k -> K k) ->
  stable R (on_download_start s relative info).
Proof.
  intros HK. unfold on_download_start. stable_seq.
  stable_seq; [destruct (verbose _); [apply stable_print | stable_leaf]|].
  stable_seq; [apply stable_local_path|].
  stable_seq.
  { unfold Task_init. stable_seq; [apply stable_os_open_wb | stable_leaf]. }
  now apply stable_tasks_setitem.
Qed.

Lemma method_mapping_start (event : value) (w w' : World) :
  method_mapping event w = (Return m_on_download_start, w') ->
  eq_str event "start" = true.
Proof.
  unfold method_mapping. destruct event; try discriminate. simpl.
  destruct (String.eqb s "start"); [reflexivity|].
  repeat (match goal with
          | |- context [String.eqb ?a ?b] => destruct (String.eqb a b)
          end; try discriminate).
Qed.

Lemma stable_on_message (msg : dict) (data : option bytes) :
  tolerated K msg -> stable R (on_message msg data).
Proof.
  intros Hmsg. unfold on_message.
  destruct (eq_str (default VNone (dict_get "type" msg)) "send") eqn:Htype;
    simpl; [|apply stable_print].
  destruct (default (VDict []) (dict_get "payload" msg)) as [| | | | |payload] eqn:Hpay;
    try stable_leaf.
  destruct (eq_str (default VNone (dict_get "subject" payload)) "download") eqn:Hsub.
  - intros w. unfold mbind, M_bind.
    destruct (method_mapping _ w) as [[m|e] w1] eqn:Hm.
    2:{ pose proof (stable_method_mapping R (default VNone (dict_get "event" payload)) w) as H.
        now rewrite Hm in H. }
    assert (R w w1) as Hw1.
    { pose proof (stable_method_mapping R (default VNone (dict_get "event" payload)) w) as H.
      now rewrite Hm in H. }
    etransitivity; [exact Hw1|]. revert w1 Hm Hw1. intros w1 Hm _.
    assert (stable R (call_method m data payload)) as Hcall; [|apply Hcall].
    unfold call_method. stable_seq.
    destruct m.
    + apply method_mapping_start in Hm.
      apply stable_keyword_bind; [assumption|]. intros s Hs.
      do 2 stable_seq. apply stable_on_download_start.
      intros k Hk. destruct (Hmsg k) as [HK|Hno]; [exact HK|].
      exfalso. revert Hno. unfold starts_session.
      rewrite Htype, Hpay, Hsub, Hm, Hs. simpl.
      rewrite bool_decide_eq_false. tauto.
    + stable_seq. apply stable_on_download_data.
    + stable_seq. apply stable_close_session.
    + stable_seq. apply stable_close_session.
  - destruct (eq_str _ "finish").
    + stable_seq; [apply stable_print|].
      stable_seq; [apply stable_session_detach | stable_leaf].
    + destruct (eq_str _ "mkdir").
      * do 2 stable_seq. apply stable_on_mkdir.
      * stable_seq; apply stable_print.
Qed.

Lemma stable_deliver (pol : exn -> bool) (msgs : list (dict * option bytes)) :
  Forall (fun m => tolerated K m.1) msgs -> stable R (deliver pol msgs).
Proof.
  induction 1 as [|[msg data] msgs Hmsg _ IH]; [stable_leaf|].
  intros w. simpl.
  pose proof (stable_on_message msg data Hmsg w) as Hstep.
  destruct (on_message msg data w) as [[u|e] w1]; simpl in Hstep.
  - etransitivity; [exact Hstep | apply IH].
  - destruct (pol e); [exact Hstep|].
    etransitivity; [exact Hstep | apply IH].
Qed.

End Frame.

(** ** Invariants of the protocol *)

Global Instance keeps_dirs_preorder : PreOrder keeps_dirs.
Proof. split; [intros w p; trivial | intros w1 w2 w3 H1 H2 p Hp; auto]. Qed.

Lemma fs_lookup_insert_ne (f : gmap fspath node) (n p : fspath) (nd : node) :
  n <> p -> fs_lookup (<[n := nd]> f) p = fs_lookup f p.
Proof. intros Hne. destruct p; [reflexivity|]. simpl. now rewrite lookup_insert_ne. Qed.

Lemma keeps_dirs_insert (w : World) (n : fspath) (nd : node) :
  fs w !! n <> Some Dir ->
  keeps_dirs w (set_fs (<[n := nd]> (fs w)) w).
Proof.
  intros Hn p Hp. simpl.
  destruct (decide (n = p)) as [->|Hne]; [|now rewrite fs_lookup_insert_ne].
  destruct p; [reflexivity | contradiction].
Qed.

Lemma fs_lookup_None (f : gmap fspath node) (n : fspath) :
  fs_lookup f n = None -> f !! n = None.
Proof. destruct n; [discriminate | trivial]. Qed.

(** The frame conditions of [keeps_dirs]. *)
Ltac keeps_dirs_frame :=
  try apply _; try (intros; exact I); try (intros; intros ? Hkeep; exact Hkeep);
  try (intros; apply keeps_dirs_insert; congruence);
  try (intros ? ? ? Hn; apply keeps_dirs_insert;
       rewrite (fs_lookup_None _ _ Hn); discriminate).

Lemma keeps_dirs_on_message (msg : dict) (data : option bytes) :
  stable keeps_dirs (on_message msg data).
Proof.
  apply stable_on_message with (K := fun _ => True) (P := fun _ => True);
    keeps_dirs_frame.
  intros k. now left.
Qed.


(** ** [local_path] *)

Lemma local_path_spec (w : World) (root rel : string) :
  tempdir w = Some root ->
  local_path (VStr rel) w =
    (if startswith (os_path_join root rel) root
     then Return (os_path_join root rel) else Raise ValueError, w).
Proof.
  intros Hroot. unfold local_path, mbind, M_bind. simpl. rewrite Hroot.
  now destruct (startswith (os_path_join root rel) root).
Qed.

Lemma local_path_pure (relative : value) (w w' : World) (r : result string) :
  local_path relative w = (r, w') -> w' = w.
Proof.
  unfold local_path, mbind, M_bind. simpl.
  destruct (tempdir w); [|intros [= _ <-]; reflexivity].
  destruct relative; try (intros [= _ <-]; reflexivity).
  destruct (negb _); intros [= _ <-]; reflexivity.
Qed.

(** Every name that does not begin with a slash passes the test, whatever
    its segments are. *)
Lemma local_path_relative_accepted (w : World) (root rel : string) :
  tempdir w = Some root ->
  startswith rel "/" = false ->
  local_path (VStr rel) w = (Return (os_path_join root rel), w).
Proof.
  intros Hroot Hrel. rewrite (local_path_spec w root rel Hroot).
  now rewrite join_relative_startswith.
Qed.

(** When [local_path] raises, [on_mkdir] stops there: the state is the one
    it started from. *)
Lemma on_mkdir_rejected (path : value) (w w' : World) (e : exn) :
  local_path path w = (Raise e, w') -> on_mkdir path w = (Raise e, w).
Proof.
  intros H. pose proof (local_path_pure _ _ _ _ H) as ->.
  unfold on_mkdir. now rewrite (bind_Raise _ _ _ _ _ H).
Qed.

(** The same for [on_download_start], which has printed the name before when
    [verbose] is set: no file is opened and no task is registered. *)
Lemma on_download_start_rejected (s relative info : value) (w w' : World) (e : exn) :
  local_path relative w = (Raise e, w') ->
  exists w1,
    on_download_start s relative info w = (Raise e, w1) /\
    fs w1 = fs w /\ ofiles w1 = ofiles w /\ tasks w1 = tasks w /\
    calls w1 = calls w.
Proof.
  intros H. pose proof (local_path_pure _ _ _ _ H) as ->.
  unfold on_download_start, mbind, M_bind. simpl.
  destruct (verbose w); simpl.
  - assert (local_path relative
              (set_stdout (stdout w ++ [[PStr "downloading"; PVal relative]]) w)
            = (Raise e, set_stdout (stdout w ++ [[PStr "downloading"; PVal relative]]) w))
      as ->.
    { revert H. unfold local_path, mbind, M_bind. simpl.
      destruct (tempdir w); [|intros [= <-]; reflexivity].
      destruct relative; try (intros [= <-]; reflexivity).
      destruct (negb _); intros [= <-]; reflexivity. }
    eexists; split; [reflexivity|]. simpl. auto.
  - rewrite H. eexists; split; [reflexivity|]. auto.
Qed.

(** C10. [local_path] compares the text of the joined path with the text of
    the workspace root and returns the joined path as it is: an absolute
    name that begins with the root's characters is returned unchanged, also
    when it names a sibling of the root. *)
Theorem local_path_raw_prefix_check (w : World) (root rel : string) :
  tempdir w = Some root ->
  local_path (VStr rel) w =
    (if startswith (os_path_join root rel) root
     then Return (os_path_join root rel) else Raise ValueError, w)
  /\ (startswith rel "/" = true -> startswith rel root = true ->
      local_path (VStr rel) w = (Return rel, w)).
Proof.
  intros Hroot. split; [now apply local_path_spec|].
  intros Habs Hpre. rewrite (local_path_spec w root rel Hroot).
  rewrite (join_absolute root rel Habs). now rewrite Hpre.
Qed.

(** Root [/tmp/ws] accepts [/tmp/ws2/x]. *)
Lemma local_path_raw_prefix_check_witness :
  local_path (VStr "/tmp/ws2/x") example_world = (Return "/tmp/ws2/x", example_world).
Proof.
  apply (local_path_raw_prefix_check example_world "/tmp/ws" "/tmp/ws2/x");
    reflexivity.
Defined.

(** [/tmp/ws2] is created next to the workspace, not inside it. *)
Example mkdir_sibling_of_root :
  let r := on_message (mkdir_message (VStr "/tmp/ws2")) None example_world in
  r.1 = Return tt /\ fs r.2 !! ["tmp"; "ws2"] = Some Dir.
Proof. vm_compute. split; reflexivity. Qed.

(** C1, at [mkdir("../escape")] and at the empty name. The name with a [..]
    segment is not rejected: [local_path] returns [/tmp/ws/../escape] and
    [os.mkdir] creates [/tmp/escape], outside the workspace. The empty name,
    which is the root itself, is returned as [/tmp/ws/]. *)
Theorem mkdir_dotdot_escapes_workspace :
  let r := on_message (mkdir_message (VStr "../escape")) None example_world in
  r.1 = Return tt
  /\ calls r.2 = [SysMkdir "/tmp/ws/../escape"]
  /\ fs r.2 !! ["tmp"; "escape"] = Some Dir
  /\ fs example_world !! ["tmp"; "escape"] = None
  /\ local_path (VStr "") example_world = (Return "/tmp/ws/", example_world).
Proof. vm_compute. repeat split; reflexivity. Qed.

(** ** [on_message]: what is logged and what is raised *)

Lemma unknown_type_logged (msg : dict) (data : option bytes) (w : World) :
  eq_str (default VNone (dict_get "type" msg)) "send" = false ->
  on_message msg data w =
    (Return tt,
     set_stdout (stdout w ++ [[PStr "unknown message:"; PVal (VDict msg)]]) w).
Proof. intros H. unfold on_message. now rewrite H. Qed.

Lemma unknown_subject_logged (payload : dict) (data : option bytes) (w : World) :
  let subject := default VNone (dict_get "subject" payload) in
  eq_str subject "download" = false ->
  eq_str subject "finish" = false ->
  eq_str subject "mkdir" = false ->
  on_message (send payload) data w =
    (Return tt,
     set_stdout (stdout w ++ [[PStr "unknown message"]]
                          ++ [[PVal (VDict (send payload))]]) w).
Proof.
  intros subject H1 H2 H3. unfold on_message. simpl.
  fold subject. rewrite H1, H2, H3.
  unfold mbind, M_bind, print, modify. simpl.
  now rewrite <- app_assoc.
Qed.

(** C2, at an event that is none of [start], [data], [end], [error]: the
    lookup in [method_mapping] raises [KeyError] out of [on_message]; nothing
    is printed and the state is as before. *)
Theorem unknown_download_event_raises
    (payload : dict) (ev : string) (data : option bytes) (w : World) :
  dict_get "subject" payload = Some (VStr "download") ->
  dict_get "event" payload = Some (VStr ev) ->
  ev <> "start" -> ev <> "data" -> ev <> "end" -> ev <> "error" ->
  on_message (send payload) data w = (Raise KeyError, w).
Proof.
  intros Hsub Hev H1 H2 H3 H4. unfold on_message. simpl.
  rewrite Hsub, Hev. simpl.
  apply String.eqb_neq in H1, H2, H3, H4.
  unfold mbind, M_bind, method_mapping. now rewrite H1, H2, H3, H4.
Qed.

Lemma unknown_download_event_raises_witness :
  on_message (download_event "progress" (VInt 1)) None example_world
  = (Raise KeyError, example_world).
Proof.
  apply (unknown_download_event_raises _ "progress"); (reflexivity || discriminate).
Defined.

(** ** The registry: events for a key that was never started *)

Global Instance keeps_unknown_preorder (k : key) : PreOrder (keeps_unknown k).
Proof. split; [intros w H; exact H | intros w1 w2 w3 H1 H2 H; auto]. Qed.

Lemma keeps_unknown_deliver (k : key) (pol : exn -> bool)
      (msgs : list (dict * option bytes)) :
  Forall (fun m => starts_session m.1 k = false) msgs ->
  stable (keeps_unknown k) (deliver pol msgs).
Proof.
  intros Hmsgs.
  apply stable_deliver with (K := fun k' => k' <> k) (P := fun _ => True);
    try apply _; try (intros; exact I); try (intros; intros Hkeep; exact Hkeep).
  - intros k' w H. simpl. apply lookup_delete_None. now right.
  - intros k' t w Hne H. simpl. now rewrite lookup_insert_ne.
  - eapply Forall_impl; [exact Hmsgs|]. intros [msg data] Hno k'. simpl in *.
    destruct (decide (k' = k)) as [->|Hne]; [now right | now left].
Qed.

Lemma unknown_key_raises (w : World) (s : value) (k : key) (data : option bytes) :
  hash_key s = Some k ->
  tasks w !! k = None ->
  on_message (download_event "data" s) data w = (Raise KeyError, w)
  /\ on_message (download_event "end" s) data w = (Raise KeyError, w)
  /\ on_message (download_event "error" s) data w = (Raise KeyError, w).
Proof.
  intros Hk Hnone.
  assert (tasks_getitem s w = (Raise KeyError, w)) as Hget.
  { unfold tasks_getitem, mbind, M_bind. simpl. now rewrite Hk, Hnone. }
  repeat split; unfold on_message; simpl;
    unfold mbind at 1, M_bind at 1; simpl;
    unfold call_method, reject_keywords; simpl;
    unfold mbind at 1, M_bind at 1; simpl;
    unfold mbind at 1, M_bind at 1; simpl.
  - unfold on_download_data. now rewrite (bind_Raise _ _ _ _ _ Hget).
  - unfold on_download_finish, close_session. now rewrite (bind_Raise _ _ _ _ _ Hget).
  - unfold on_download_error, close_session. now rewrite (bind_Raise _ _ _ _ _ Hget).
Qed.

(** C5. Start from an empty registry and handle any messages, none of them
    a start for the key: a [data], [end] or [error] event for that key then
    raises [KeyError] (the unknown-session error of the registry) and leaves
    the whole state, the registry and every open task in it, as it was. *)
Theorem unknown_session_raises
    (pol : exn -> bool) (msgs : list (dict * option bytes))
    (w0 : World) (s : value) (k : key) (data : option bytes) :
  tasks w0 = ∅ ->
  hash_key s = Some k ->
  Forall (fun m => starts_session m.1 k = false) msgs ->
  let w := (deliver pol msgs w0).2 in
  on_message (download_event "data" s) data w = (Raise KeyError, w)
  /\ on_message (download_event "end" s) data w = (Raise KeyError, w)
  /\ on_message (download_event "error" s) data w = (Raise KeyError, w).
Proof.
  intros Hempty Hk Hmsgs w.
  apply unknown_key_raises with (k := k); [exact Hk|].
  apply (keeps_unknown_deliver k pol msgs Hmsgs w0).
  rewrite Hempty. apply lookup_empty.
Qed.

Lemma unknown_session_raises_witness :
  let w := (deliver (fun _ => true) other_transfer example_world).2 in
  tasks w !! KInt 2 = Some (Task.mk (VInt 2) "/tmp/ws/b.bin"
                              (VDict [("permission", VInt 420)]) 3)
  /\ on_message (download_event "data" (VInt 1)) (Some [Byte.x62]) w = (Raise KeyError, w)
  /\ on_message (download_event "end" (VInt 1)) (Some [Byte.x62]) w = (Raise KeyError, w)
  /\ on_message (download_event "error" (VInt 1)) (Some [Byte.x62]) w = (Raise KeyError, w).
Proof.
  split; [vm_compute; reflexivity|].
  apply (unknown_session_raises (fun _ => true) other_transfer example_world
           (VInt 1) (KInt 1) (Some [Byte.x62])).
  - reflexivity.
  - reflexivity.
  - repeat constructor.
Defined.

(** ** The download handlers behind [on_message] *)

Lemma on_message_start (s relative info : value) (data : option bytes) (w : World) :
  on_message (download_start s relative info) data w
  = on_download_start s relative info w.
Proof. reflexivity. Qed.

Lemma on_message_data (s : value) (data : option bytes) (w : World) :
  on_message (download_event "data" s) data w = on_download_data s data w.
Proof. reflexivity. Qed.

Lemma on_message_end (s : value) (data : option bytes) (w : World) :
  on_message (download_event "end" s) data w = close_session s w.
Proof. reflexivity. Qed.

Lemma on_message_error (s : value) (data : option bytes) (w : World) :
  on_message (download_event "error" s) data w = close_session s w.
Proof. reflexivity. Qed.

(** Path resolution only looks at directories. *)
Lemma walk_keeps_dirs (f f' : gmap fspath node) (cs : list string) (cur n : fspath) :
  (forall q, fs_lookup f q = Some Dir -> fs_lookup f' q = Some Dir) ->
  walk f cur cs = inr n -> walk f' cur cs = inr n.
Proof.
  intros Hdirs. revert cur. induction cs as [|c cs IH]; intros cur; simpl; [trivial|].
  destruct (fs_lookup f cur) as [[|? ? ? ?]|] eqn:Hcur; try discriminate.
  rewrite (Hdirs _ Hcur). apply IH.
Qed.

Lemma resolve_keeps_dirs (w w' : World) (p : string) (n : fspath) :
  keeps_dirs w w' -> resolve (fs w) p = inr n -> resolve (fs w') p = inr n.
Proof.
  intros Hdirs. unfold resolve. destruct (String.eqb p ""); [discriminate|].
  now apply walk_keeps_dirs.
Qed.

(** Where a path leads is fixed by its text; the file system decides only
    whether it can be followed. *)
Lemma walk_target (f : gmap fspath node) (cs : list string) (cur n : fspath) :
  walk f cur cs = inr n -> n = fold_left step cs cur.
Proof.
  revert cur. induction cs as [|c cs IH]; intros cur; simpl.
  - now intros [= ->].
  - destruct (fs_lookup f cur) as [[|? ? ? ?]|]; try discriminate. apply IH.
Qed.

Lemma resolve_target (f : gmap fspath node) (p : string) (n : fspath) :
  resolve f p = inr n -> n = target p.
Proof.
  unfold resolve, target. destruct (String.eqb p ""); [discriminate|].
  apply walk_target.
Qed.

(** *** File objects *)

Lemma map_fold_max_bound `{Countable K} {A : Type} (g : K -> A -> nat)
      (m : gmap K A) (i : K) (x : A) :
  m !! i = Some x ->
  (g i x <= map_fold (fun k a acc => Nat.max (g k a) acc) 0%nat m)%nat.
Proof.
  revert i x.
  apply (map_fold_weak_ind
           (fun r (m : gmap K A) => forall i x, m !! i = Some x -> (g i x <= r)%nat)).
  - intros i x Hi. now rewrite lookup_empty in Hi.
  - intros j y m' r Hj IH i x Hi.
    destruct (decide (i = j)) as [->|Hne].
    + rewrite lookup_insert_eq in Hi. injection Hi as ->. lia.
    + rewrite lookup_insert_ne in Hi by congruence. specialize (IH _ _ Hi). lia.
Qed.

(** A new file object is none of those the tasks hold, and none that is
    open. *)
Lemma new_fd_task (w : World) (k : key) (t : Task.t) :
  tasks w !! k = Some t -> (Task.file t < new_fd w)%nat.
Proof.
  intros Ht. unfold new_fd.
  pose proof (map_fold_max_bound (fun (_ : key) t => S (Task.file t)) (tasks w) k t Ht)
    as Hmax.
  cbv beta in Hmax. lia.
Qed.

Lemma new_fd_open (w : World) (fd : nat) (o : ofile) :
  ofiles w !! fd = Some o -> (fd < new_fd w)%nat.
Proof.
  intros Ho. unfold new_fd.
  pose proof (map_fold_max_bound (fun fd (_ : ofile) => S fd) (ofiles w) fd o Ho)
    as Hmax.
  cbv beta in Hmax. lia.
Qed.

(** What [open(p, 'wb')] leaves behind when it returns. *)
Lemma os_open_wb_inv (p : string) (w w1 : World) (fd : nat) :
  os_open_wb p w = (Return fd, w1) ->
  exists n tm md ow,
    resolve (fs w) p = inr n /\ n <> [] /\ fs w !! n <> Some Dir /\
    fd = new_fd w /\
    w1 = set_next_fd (S fd)
           (set_ofiles (<[fd := mkOfile n 0 []]> (ofiles w))
              (set_fs (<[n := File [] tm md ow]> (fs w))
                 (set_calls (calls w ++ [SysOpen p]) w))).
Proof.
  unfold os_open_wb, mbind, M_bind. simpl.
  destruct (resolve (fs w) p) as [e|n] eqn:Hres; simpl; [discriminate|].
  destruct (fs_lookup (fs w) n) as [[|c tm md ow]|] eqn:Hn; simpl;
    [discriminate | |];
    (destruct (endswith_slash p); simpl; [discriminate|]).
  - destruct (writable md ow); simpl; [|discriminate].
    intros [= <- <-]. exists n, tm, md, ow.
    repeat split; try reflexivity.
    + intros ->. discriminate.
    + rewrite (fs_lookup_File _ _ _ _ _ _ Hn). discriminate.
  - intros [= <- <-]. exists n, None, new_file_mode, true.
    repeat split; try reflexivity.
    + intros ->. discriminate.
    + rewrite (fs_lookup_None _ _ Hn). discriminate.
Qed.

(** The path still leads to the file that was opened, and the file is
    empty. *)
Lemma os_open_wb_file (p : string) (w w1 : World) (fd : nat) :
  os_open_wb p w = (Return fd, w1) ->
  resolve (fs w1) p = inr (target p)
  /\ exists tm md ow, fs_lookup (fs w1) (target p) = Some (File [] tm md ow).
Proof.
  intros Hopen.
  destruct (os_open_wb_inv _ _ _ _ Hopen) as (n & tm & md & ow & Hres & Hne & Hnd & _ & ->).
  rewrite <- (resolve_target _ _ _ Hres). simpl. split.
  - change (resolve (fs (set_fs (<[n := File [] tm md ow]> (fs w)) w)) p = inr n).
    apply (resolve_keeps_dirs w); [now apply keeps_dirs_insert | exact Hres].
  - exists tm, md, ow. destruct n; [contradiction|]. simpl. apply lookup_insert_eq.
Qed.

(** [close] always returns; what it changes is the file that is flushed,
    the descriptor and the trace. *)
Lemma os_flush_returns (fd : nat) (w : World) : (os_flush fd w).1 = Return tt.
Proof.
  unfold os_flush, mbind, M_bind. simpl.
  destruct (ofiles w !! fd) as [o|]; [|reflexivity].
  now destruct (of_buf o).
Qed.

(** [close] on a file that is open: the flush, then the descriptor goes. *)
Lemma os_close_open (fd : nat) (w : World) (o : ofile) :
  ofiles w !! fd = Some o ->
  os_close fd w
  = (Return tt,
     set_ofiles (delete fd (ofiles (os_flush fd w).2))
       (set_calls (calls (os_flush fd w).2 ++ [SysClose fd]) (os_flush fd w).2)).
Proof.
  intros Hfd. unfold os_close, mbind at 1, M_bind at 1. simpl. rewrite Hfd.
  unfold mbind, M_bind. pose proof (os_flush_returns fd w) as Hf.
  destruct (os_flush fd w) as [r w1]. simpl in Hf. now subst r.
Qed.

Lemma os_close_closed (fd : nat) (w : World) :
  ofiles w !! fd = None -> os_close fd w = (Return tt, w).
Proof. intros Hfd. unfold os_close, mbind, M_bind. simpl. now rewrite Hfd. Qed.

Lemma os_close_returns (fd : nat) (w : World) : (os_close fd w).1 = Return tt.
Proof.
  destruct (ofiles w !! fd) as [o|] eqn:Hfd.
  - now rewrite (os_close_open fd w o Hfd).
  - now rewrite (os_close_closed fd w Hfd).
Qed.

Lemma os_flush_ofiles (fd fd' : nat) (w : World) :
  fd' <> fd -> ofiles (os_flush fd w).2 !! fd' = ofiles w !! fd'.
Proof.
  intros Hne. unfold os_flush, raw_write, mbind, M_bind. simpl.
  destruct (ofiles w !! fd) as [o|]; [|reflexivity].
  destruct (of_buf o); [reflexivity|]. simpl.
  rewrite lookup_insert_ne by congruence.
  now destruct (fs w !! of_node o) as [[|? ? ? ?]|].
Qed.

Lemma os_close_ofiles (fd fd' : nat) (w : World) :
  ofiles (os_close fd w).2 !! fd'
  = if decide (fd' = fd) then None else ofiles w !! fd'.
Proof.
  destruct (ofiles w !! fd) as [o|] eqn:Hfd.
  - rewrite (os_close_open fd w o Hfd). simpl.
    destruct (decide (fd' = fd)) as [->|Hne].
    + apply lookup_delete_eq.
    + rewrite lookup_delete_ne by congruence. now apply os_flush_ofiles.
  - rewrite (os_close_closed fd w Hfd). simpl.
    destruct (decide (fd' = fd)) as [->|Hne]; [exact Hfd | reflexivity].
Qed.

Lemma os_flush_fields (fd : nat) (w : World) :
  tasks (os_flush fd w).2 = tasks w
  /\ tempdir (os_flush fd w).2 = tempdir w
  /\ stdout (os_flush fd w).2 = stdout w
  /\ platform (os_flush fd w).2 = platform w.
Proof.
  unfold os_flush, raw_write, mbind, M_bind. simpl.
  destruct (ofiles w !! fd) as [o|]; [|auto].
  destruct (of_buf o); [auto|]. simpl.
  destruct (fs w !! of_node o) as [[|? ? ? ?]|]; auto.
Qed.

Lemma os_close_fields (fd : nat) (w : World) :
  tasks (os_close fd w).2 = tasks w
  /\ tempdir (os_close fd w).2 = tempdir w
  /\ stdout (os_close fd w).2 = stdout w
  /\ platform (os_close fd w).2 = platform w.
Proof.
  destruct (ofiles w !! fd) as [o|] eqn:Hfd.
  - rewrite (os_close_open fd w o Hfd). simpl. apply os_flush_fields.
  - rewrite (os_close_closed fd w Hfd). auto.
Qed.

(** Storing a task under a key that can be hashed. *)
Lemma tasks_setitem_hashable (s : value) (k : key) (t : Task.t) (w : World) :
  hash_key s = Some k ->
  tasks_setitem s t w
  = match tasks w !! k with
    | Some old => Task_release old (set_tasks (<[k := t]> (tasks w)) w)
    | None => (Return tt, set_tasks (<[k := t]> (tasks w)) w)
    end.
Proof.
  intros Hk. unfold tasks_setitem. rewrite Hk.
  unfold mbind, M_bind, modify. simpl. now destruct (tasks w !! k).
Qed.

Lemma tasks_setitem_returns (s : value) (k : key) (t : Task.t) (w : World) :
  hash_key s = Some k ->
  (tasks_setitem s t w).1 = Return tt
  /\ tasks (tasks_setitem s t w).2 = <[k := t]> (tasks w).
Proof.
  intros Hk. rewrite (tasks_setitem_hashable s k t w Hk).
  destruct (tasks w !! k) as [old|]; [|auto]. unfold Task_release. split.
  - apply os_close_returns.
  - now destruct (os_close_fields (Task.file old) (set_tasks (<[k := t]> (tasks w)) w))
      as (-> & _).
Qed.

(** [on_download_start], once the path has passed and the file is open:
    what is left is the assignment to the registry. *)
Lemma on_download_start_opened
    (w w1 : World) (s relative info : value) (p : string) (fd : nat) :
  local_path relative (announced relative w) = (Return p, announced relative w) ->
  os_open_wb p (announced relative w) = (Return fd, w1) ->
  on_download_start s relative info w = tasks_setitem s (Task.mk s p info fd) w1.
Proof.
  intros Hpath Hopen. unfold on_download_start, mbind at 1, M_bind at 1. simpl.
  assert ((if verbose w then print [PStr "downloading"; PVal relative] else mret tt) w
          = (Return tt, announced relative w)) as Hsay.
  { unfold announced. now destruct (verbose w). }
  rewrite (bind_Return _ _ _ _ _ Hsay).
  rewrite (bind_Return _ _ _ _ _ Hpath).
  unfold Task_init. unfold mbind at 1, M_bind at 1.
  now rewrite (bind_Return _ _ _ _ _ Hopen).
Qed.

(** ... and nothing else makes it return. *)
Lemma on_download_start_inv (w w2 : World) (s relative info : value) :
  on_download_start s relative info w = (Return tt, w2) ->
  exists k p fd w1,
    hash_key s = Some k /\
    local_path relative (announced relative w) = (Return p, announced relative w) /\
    os_open_wb p (announced relative w) = (Return fd, w1) /\
    tasks_setitem s (Task.mk s p info fd) w1 = (Return tt, w2).
Proof.
  unfold on_download_start, mbind at 1, M_bind at 1. simpl.
  assert ((if verbose w then print [PStr "downloading"; PVal relative] else mret tt) w
          = (Return tt, announced relative w)) as Hsay.
  { unfold announced. now destruct (verbose w). }
  rewrite (bind_Return _ _ _ _ _ Hsay).
  destruct (local_path relative (announced relative w)) as [[p|e] wp] eqn:Hpath.
  2:{ rewrite (bind_Raise _ _ _ _ _ Hpath). discriminate. }
  pose proof (local_path_pure _ _ _ _ Hpath) as ->.
  rewrite (bind_Return _ _ _ _ _ Hpath).
  unfold Task_init. unfold mbind at 1, M_bind at 1.
  destruct (os_open_wb p (announced relative w)) as [[fd|e] w1] eqn:Hopen.
  2:{ rewrite (bind_Raise _ _ _ _ _ Hopen). discriminate. }
  rewrite (bind_Return _ _ _ _ _ Hopen). simpl.
  destruct (hash_key s) as [k|] eqn:Hk.
  - intros Hset. exists k, p, fd, w1. auto.
  - unfold tasks_setitem. rewrite Hk. unfold mbind, M_bind.
    destruct (Task_release _ w1) as [[[]|e] w3]; discriminate.
Qed.

Lemma announced_fields (relative : value) (w : World) :
  tasks (announced relative w) = tasks w
  /\ ofiles (announced relative w) = ofiles w
  /\ fs (announced relative w) = fs w
  /\ calls (announced relative w) = calls w
  /\ tempdir (announced relative w) = tempdir w
  /\ new_fd (announced relative w) = new_fd w.
Proof. unfold announced. destruct (verbose w); auto 10. Qed.

(** ** Starting a key that is already open *)

Global Instance no_metadata_calls_preorder : PreOrder no_metadata_calls.
Proof.
  split.
  - intros w. exists []. now rewrite app_nil_r.
  - intros w1 w2 w3 (l1 & E1 & F1) (l2 & E2 & F2).
    exists (l1 ++ l2)%list. rewrite E2, E1, app_assoc. split; [reflexivity|].
    now apply Forall_app.
Qed.

Lemma no_metadata_calls_fields (w w' : World) :
  calls w' = calls w -> no_metadata_calls w w'.
Proof. intros Hc. exists []. now rewrite app_nil_r. Qed.

Lemma no_metadata_calls_on_download_start (s relative info : value) :
  stable no_metadata_calls (on_download_start s relative info).
Proof.
  apply stable_on_download_start
    with (P := fun c => is_utime c = false /\ is_chmod c = false) (K := fun _ => True);
    try apply _; try (intros; split; reflexivity); try (intros; exact I);
    try (intros; now apply no_metadata_calls_fields).
  intros c w Hc. exists [c]. split; [reflexivity|]. now constructor.
Qed.

(** C3, as the code has it. A start event for a key that is already in the
    registry does not fail: when the path passes [local_path] and the file
    opens, [on_download_start] returns and the registry holds the new task
    under the key in place of the old one, with its file open and nothing
    written. The old task is dropped without [finish]: the interpreter
    releases it at the assignment, so its file is closed, and the start
    event makes no [utime] and no [chmod] call. *)
Theorem restart_replaces_task
    (w w1 : World) (s relative info : value) (k : key) (t0 : Task.t)
    (p : string) (fd : nat) :
  hash_key s = Some k ->
  tasks w !! k = Some t0 ->
  local_path relative (announced relative w) = (Return p, announced relative w) ->
  os_open_wb p (announced relative w) = (Return fd, w1) ->
  exists w2,
    on_download_start s relative info w = (Return tt, w2)
    /\ tasks w2 = <[k := Task.mk s p info fd]> (tasks w)
    /\ ofiles w2 !! Task.file t0 = None
    /\ ofiles w2 !! fd = Some (mkOfile (target p) 0 [])
    /\ exists l, calls w2 = (calls w ++ l)%list
                 /\ Forall (fun c => is_utime c = false /\ is_chmod c = false) l.
Proof.
  intros Hk Ht0 Hpath Hopen.
  destruct (announced_fields relative w) as (Hat & Hao & _ & _ & _ & Hanf).
  destruct (os_open_wb_inv _ _ _ _ Hopen)
    as (n & tm & md & ow & Hres & _ & _ & Hfd & Hw1).
  assert (tasks w1 = tasks w) as Htasks by (subst w1; exact Hat).
  assert (Task.file t0 <> fd) as Hne.
  { rewrite Hfd, Hanf. pose proof (new_fd_task w k t0 Ht0). lia. }
  pose proof (on_download_start_opened w w1 s relative info p fd Hpath Hopen) as Hrun.
  pose proof (no_metadata_calls_on_download_start s relative info w) as Hcalls.
  rewrite Hrun in *.
  destruct (tasks_setitem_returns s k (Task.mk s p info fd) w1 Hk) as [Hret Hins].
  rewrite (tasks_setitem_hashable s k _ w1 Hk) in *.
  rewrite Htasks, Ht0 in *. unfold Task_release in *.
  pose proof (os_close_ofiles (Task.file t0) (Task.file t0)
                (set_tasks (<[k := Task.mk s p info fd]> (tasks w)) w1)) as Hold.
  pose proof (os_close_ofiles (Task.file t0) fd
                (set_tasks (<[k := Task.mk s p info fd]> (tasks w)) w1)) as Hnew.
  destruct (os_close (Task.file t0) _) as [r w2]. simpl in *. subst r.
  exists w2. split; [reflexivity|]. split; [exact Hins|].
  split; [|split; [|exact Hcalls]].
  - rewrite Hold. now destruct (decide (Task.file t0 = Task.file t0)).
  - rewrite Hnew. destruct (decide (fd = Task.file t0)); [congruence|].
    rewrite Hw1. simpl. rewrite lookup_insert_eq.
    now rewrite (resolve_target _ _ _ Hres).
Qed.

Lemma restart_replaces_task_witness :
  tasks one_open !! KInt 1
    = Some (Task.mk (VInt 1) "/tmp/ws/a.bin" (VDict [("permission", VInt 420)]) 3)
  /\ exists w2,
       on_download_start (VInt 1) (VStr "a.bin") (VDict [("permission", VInt 420)]) one_open
         = (Return tt, w2)
       /\ tasks w2 = <[KInt 1 := Task.mk (VInt 1) "/tmp/ws/a.bin"
                                  (VDict [("permission", VInt 420)]) 4]> (tasks one_open)
       /\ ofiles w2 !! 3%nat = None
       /\ ofiles w2 !! 4%nat = Some (mkOfile (target "/tmp/ws/a.bin") 0 [])
       /\ exists l, calls w2 = (calls one_open ++ l)%list
                    /\ Forall (fun c => is_utime c = false /\ is_chmod c = false) l.
Proof.
  split; [vm_compute; reflexivity|].
  apply (restart_replaces_task one_open
           (os_open_wb "/tmp/ws/a.bin" (announced (VStr "a.bin") one_open)).2
           (VInt 1) (VStr "a.bin") (VDict [("permission", VInt 420)]) (KInt 1)
           (Task.mk (VInt 1) "/tmp/ws/a.bin" (VDict [("permission", VInt 420)]) 3)
           "/tmp/ws/a.bin" 4).
  - reflexivity.
  - vm_compute; reflexivity.
  - vm_compute; reflexivity.
  - vm_compute; reflexivity.
Defined.

(** C3 as stated fails: the same start event twice. The second call returns
    normally; the registry has one entry for key 1, now the second task
    (file object 4). The file of the first task (3) has been closed by the
    interpreter, and nothing but the two [open] calls and that [close] has
    happened. *)
Lemma duplicate_start_is_accepted :
  let r := on_message start_a_bin None one_open in
  tasks one_open !! KInt 1
    = Some (Task.mk (VInt 1) "/tmp/ws/a.bin" (VDict [("permission", VInt 420)]) 3)
  /\ r.1 = Return tt
  /\ map_to_list (tasks r.2)
     = [(KInt 1, Task.mk (VInt 1) "/tmp/ws/a.bin" (VDict [("permission", VInt 420)]) 4)]
  /\ ofiles r.2 !! 3%nat = None
  /\ calls r.2 = [SysOpen "/tmp/ws/a.bin"; SysOpen "/tmp/ws/a.bin"; SysClose 3].
Proof. vm_compute. repeat split; reflexivity. Qed.

(** ** Invariants under a guard

    An invariant of the state is kept by every handler as long as the file
    objects, the keys and the paths the handler works on are among those the
    invariant lets go ([okfd], [okkey], [okopen], [okmkdir]). The hypotheses
    say what the invariant has to tolerate of each operation. *)

Section Invariant.
Variable I : World -> Prop.
Variable root : string.
Variable okfd : nat -> Prop.
Variable okkey : key -> Prop.
Variables okopen okmkdir : string -> Prop.
Hypothesis I_tempdir : forall w, I w -> tempdir w = Some root.
Hypothesis I_calls : forall x w, I w -> I (set_calls x w).
Hypothesis I_stdout : forall x w, I w -> I (set_stdout x w).
Hypothesis I_session : forall x w, I w -> I (set_session x w).
Hypothesis I_task_fd : forall w k t,
  I w -> okkey k -> tasks w !! k = Some t -> okfd (Task.file t).
Hypothesis I_new_fd : forall w, I w -> okfd (new_fd w).
Hypothesis I_buffer : forall w fd o pos buf,
  I w -> okfd fd -> ofiles w !! fd = Some o ->
  I (set_ofiles (<[fd := mkOfile (of_node o) pos buf]> (ofiles w)) w).
Hypothesis I_write : forall w fd o c tm md ow c',
  I w -> okfd fd -> ofiles w !! fd = Some o ->
  fs w !! of_node o = Some (File c tm md ow) ->
  I (set_fs (<[of_node o := File c' tm md ow]> (fs w)) w).
Hypothesis I_close : forall w fd,
  I w -> okfd fd -> I (set_ofiles (delete fd (ofiles w)) w).
Hypothesis I_open : forall w p n tm md ow,
  I w -> okopen p -> resolve (fs w) p = inr n -> n <> [] -> fs w !! n <> Some Dir ->
  I (set_next_fd (S (new_fd w))
       (set_ofiles (<[new_fd w := mkOfile n 0 []]> (ofiles w))
          (set_fs (<[n := File [] tm md ow]> (fs w)) w))).
Hypothesis I_meta : forall w n c tm md ow tm' md',
  I w -> fs w !! n = Some (File c tm md ow) ->
  I (set_fs (<[n := File c tm' md' ow]> (fs w)) w).
Hypothesis I_mkdir : forall w p n,
  I w -> okmkdir p -> resolve (fs w) p = inr n -> fs_lookup (fs w) n = None ->
  I (set_fs (<[n := Dir]> (fs w)) w).
Hypothesis I_insert : forall w k t,
  I w -> okkey k -> okfd (Task.file t) -> I (set_tasks (<[k := t]> (tasks w)) w).
Hypothesis I_delete : forall w k,
  I w -> okkey k -> I (set_tasks (delete k (tasks w)) w).

Lemma holds_ret {A : Type} (a : A) (Q : A -> Prop) : Q a -> holds I (mret a) Q.
Proof. intros Ha w Hw. split; [exact Hw|]. now intros a' [= <-]. Qed.

Lemma holds_raise {A : Type} (e : exn) (Q : A -> Prop) : holds I (raise e) Q.
Proof. intros w Hw. split; [exact Hw | discriminate]. Qed.

Lemma holds_bind {A B : Type} (m : M A) (f : A -> M B) (Q : A -> Prop) (Q' : B -> Prop) :
  holds I m Q -> (forall a, Q a -> holds I (f a) Q') -> holds I (m ≫= f) Q'.
Proof.
  intros Hm Hf w Hw. unfold mbind, M_bind.
  destruct (Hm w Hw) as [Hw1 Hq]. destruct (m w) as [[a|e] w1]; simpl in *.
  - exact (Hf a (Hq a eq_refl) w1 Hw1).
  - split; [exact Hw1 | discriminate].
Qed.

Lemma holds_weaken {A : Type} (m : M A) (Q Q' : A -> Prop) :
  holds I m Q -> (forall a, Q a -> Q' a) -> holds I m Q'.
Proof.
  intros Hm HQ w Hw. destruct (Hm w Hw) as [Hw1 Hq]. split; [exact Hw1|].
  intros a Ha. exact (HQ a (Hq a Ha)).
Qed.

Lemma holds_seq {A B : Type} (m : M A) (k : M B) (Q : A -> Prop) (Q' : B -> Prop) :
  holds I m Q -> holds I k Q' -> holds I (m ≫= fun _ => k) Q'.
Proof. intros Hm Hk. apply (holds_bind m _ Q); [exact Hm | intros _ _; exact Hk]. Qed.

(** A computation that reads the state first. *)
Lemma holds_read {B : Type} (f : World -> M B) (Q : B -> Prop) :
  (forall w0, holds I (f w0) Q) -> holds I (get_world ≫= f) Q.
Proof. intros Hf w Hw. exact (Hf w w Hw). Qed.

Lemma holds_modify (f : World -> World) :
  (forall w, I w -> I (f w)) -> holds I (modify f) (fun _ => True).
Proof. intros Hf w Hw. split; [now apply Hf | trivial]. Qed.

Lemma holds_except (m : M unit) :
  holds I m (fun _ => True) -> holds I (except_FileNotFoundError m) (fun _ => True).
Proof.
  intros Hm w Hw. unfold except_FileNotFoundError.
  destruct (Hm w Hw) as [Hw1 _]. split; [|trivial].
  destruct (m w) as [[a|[]] w1]; simpl in *; try exact Hw1.
  destruct e; exact Hw1.
Qed.

Lemma holds_print (args : list printable) : holds I (print args) (fun _ => True).
Proof. apply holds_modify. intros w Hw. now apply I_stdout. Qed.

Lemma holds_syscall_trace (c : syscall) : holds I (syscall_trace c) (fun _ => True).
Proof. apply holds_modify. intros w Hw. now apply I_calls. Qed.

Lemma holds_keyword (payload : dict) (name : string) :
  holds I (keyword payload name) (fun v => dict_get name payload = Some v).
Proof.
  unfold keyword. destruct (dict_get name payload) as [v|];
    [now apply holds_ret | apply holds_raise].
Qed.

Lemma holds_reject_keywords (names : list string) (payload : dict) :
  holds I (reject_keywords names payload) (fun _ => True).
Proof.
  unfold reject_keywords. destruct (existsb _ names);
    [apply holds_raise | now apply holds_ret].
Qed.

Lemma holds_method_mapping (event : value) :
  holds I (method_mapping event)
    (fun m => m = m_on_download_start -> eq_str event "start" = true).
Proof.
  unfold method_mapping. destruct event; try apply holds_raise. simpl.
  destruct (String.eqb s "start"); [now apply holds_ret|].
  repeat (match goal with
          | |- context [String.eqb ?a ?b] => destruct (String.eqb a b)
          end; try (apply holds_ret; discriminate)).
  apply holds_raise.
Qed.

Lemma holds_py_get (v : value) (k : string) : holds I (py_get v k) (fun _ => True).
Proof. destruct v; simpl; try apply holds_raise. now apply holds_ret. Qed.

Lemma holds_py_getitem (v : value) (k : string) :
  holds I (py_getitem v k) (fun _ => True).
Proof.
  destruct v; simpl; try apply holds_raise.
  destruct (dict_get k d); [now apply holds_ret | apply holds_raise].
Qed.

Lemma holds_c_int (lo hi : Z) (v : value) : holds I (c_int lo hi v) (fun _ => True).
Proof.
  unfold c_int. destruct (as_int v); [|apply holds_raise].
  destruct (_ && _); [now apply holds_ret | apply holds_raise].
Qed.

Lemma holds_session_detach : holds I session_detach (fun _ => True).
Proof.
  unfold session_detach. apply holds_read. intros w0.
  destruct (session w0); [|apply holds_raise].
  apply holds_modify. intros w Hw. now apply I_session.
Qed.

(** [local_path] returns the name joined to the root. *)
Lemma holds_local_path (relative : value) :
  holds I (local_path relative)
    (fun p => exists rel, relative = VStr rel /\ p = os_path_join root rel).
Proof.
  intros w Hw. rewrite (surjective_pairing (local_path relative w)).
  destruct relative as [| | |rel| |];
    try (split; [now rewrite (local_path_pure _ _ _ _ (surjective_pairing _))|];
         unfold local_path, mbind, M_bind; simpl; destruct (tempdir w); discriminate).
  rewrite (local_path_spec w root rel (I_tempdir w Hw)). simpl.
  split; [exact Hw|].
  destruct (startswith _ root); [|discriminate].
  intros a [= <-]. now exists rel.
Qed.

(** *** File objects *)

Lemma holds_raw_write (fd : nat) (cur o : ofile) (data : bytes) (w : World) :
  I w -> okfd fd -> ofiles w !! fd = Some cur -> of_node o = of_node cur ->
  I (raw_write fd o data w).2
  /\ ofiles (raw_write fd o data w).2 !! fd
     = Some (mkOfile (of_node cur) (of_pos o + length data) []).
Proof.
  intros Hw Hfd Hcur Hnode. unfold raw_write, mbind, M_bind, syscall_trace, modify.
  simpl. rewrite Hnode.
  pose proof (I_calls (calls w ++ [SysWrite fd data]) w Hw) as Hc.
  split; [|apply lookup_insert_eq].
  destruct (fs w !! of_node cur) as [[|c tm md ow]|] eqn:Hn.
  - now apply (I_buffer (set_calls _ w) fd cur).
  - apply (I_buffer (set_fs _ (set_calls _ w)) fd cur); [|exact Hfd|exact Hcur].
    now apply (I_write (set_calls _ w) fd cur c tm md ow).
  - now apply (I_buffer (set_calls _ w) fd cur).
Qed.

Lemma holds_os_flush_state (fd : nat) (o : ofile) (w : World) :
  I w -> okfd fd -> ofiles w !! fd = Some o ->
  I (os_flush fd w).2
  /\ exists o', ofiles (os_flush fd w).2 !! fd = Some o' /\ of_node o' = of_node o.
Proof.
  intros Hw Hfd Ho. unfold os_flush, mbind, M_bind. simpl. rewrite Ho.
  destruct (of_buf o) as [|b bs] eqn:Hbuf.
  - split; [exact Hw|]. now exists o.
  - destruct (holds_raw_write fd o o (b :: bs) w Hw Hfd Ho eq_refl) as [H1 H2].
    split; [exact H1|]. eexists. split; [exact H2 | reflexivity].
Qed.

Lemma holds_os_close (fd : nat) : okfd fd -> holds I (os_close fd) (fun _ => True).
Proof.
  intros Hfd w Hw. split; [|trivial].
  destruct (ofiles w !! fd) as [o|] eqn:Ho.
  - rewrite (os_close_open fd w o Ho). simpl.
    destruct (holds_os_flush_state fd o w Hw Hfd Ho) as [H1 _].
    apply (I_close (set_calls _ _)); [|exact Hfd]. now apply I_calls.
  - now rewrite (os_close_closed fd w Ho).
Qed.

Lemma holds_os_write (fd : nat) (data : bytes) :
  okfd fd -> holds I (os_write fd data) (fun _ => True).
Proof.
  intros Hfd w Hw. split; [|trivial].
  unfold os_write, mbind at 1, M_bind at 1. simpl.
  destruct (ofiles w !! fd) as [o|] eqn:Ho; [|exact Hw].
  destruct (_ <=? _)%nat; [now apply I_buffer|].
  unfold mbind, M_bind.
  destruct (holds_os_flush_state fd o w Hw Hfd Ho) as (H1 & o' & Ho' & Hnode).
  pose proof (os_flush_returns fd w) as Hret.
  destruct (os_flush fd w) as [r w1]. simpl in *. subst r.
  destruct (_ <? _)%nat.
  - now apply (holds_raw_write fd o' (flushed o) data w1).
  - unfold modify. simpl. rewrite <- Hnode. now apply I_buffer.
Qed.

Lemma holds_os_open_wb (p : string) : okopen p -> holds I (os_open_wb p) okfd.
Proof.
  intros Hp w Hw.
  pose proof (I_calls (calls w ++ [SysOpen p]) w Hw) as Hc.
  destruct (os_open_wb p w) as [[fd|e] w1] eqn:Hopen.
  - destruct (os_open_wb_inv _ _ _ _ Hopen)
      as (n & tm & md & ow & Hres & Hne & Hdir & -> & ->).
    simpl. split; [|intros a [= <-]; now apply I_new_fd].
    now apply (I_open (set_calls _ w) p n tm md ow).
  - simpl. split; [|discriminate].
    revert Hopen. unfold os_open_wb, mbind, M_bind. simpl.
    destruct (resolve (fs w) p) as [e'|n]; simpl; [now intros [= _ <-]|].
    destruct (fs_lookup (fs w) n) as [[|c tm md ow]|]; simpl;
      [now intros [= _ <-] | |];
      (destruct (endswith_slash p); simpl; [now intros [= _ <-]|]).
    + destruct (writable md ow); simpl; [discriminate | now intros [= _ <-]].
    + discriminate.
Qed.

Lemma holds_set_metadata (p : string) (upd : node -> node) :
  (forall c tm md ow, exists tm' md', upd (File c tm md ow) = File c tm' md' ow) ->
  holds I (set_metadata p upd) (fun _ => True).
Proof.
  intros Hupd w Hw. split; [|trivial].
  unfold set_metadata, mbind, M_bind. simpl.
  destruct (resolve (fs w) p) as [e|n]; simpl; [exact Hw|].
  destruct (fs_lookup (fs w) n) as [[|c tm md ow]|] eqn:Hn; simpl; try exact Hw.
  destruct (endswith_slash p); simpl; [exact Hw|].
  destruct ow; simpl; [|exact Hw].
  destruct (Hupd c tm md true) as (tm' & md' & ->).
  apply (I_meta w n c tm md true); [exact Hw|]. now apply fs_lookup_File.
Qed.

Lemma holds_os_utime (p : string) (times : value * value) :
  holds I (os_utime p times) (fun _ => True).
Proof.
  unfold os_utime.
  apply (holds_bind _ _ (fun _ => True)); [apply holds_c_int|]. intros a _.
  apply (holds_bind _ _ (fun _ => True)); [apply holds_c_int|]. intros m _.
  apply (holds_seq _ _ (fun _ => True)); [apply holds_syscall_trace|].
  apply holds_read. intros w0.
  apply holds_set_metadata. intros c tm md ow. eauto.
Qed.

Lemma holds_os_chmod (p : string) (mode : value) :
  holds I (os_chmod p mode) (fun _ => True).
Proof.
  unfold os_chmod.
  apply (holds_bind _ _ (fun _ => True)); [apply holds_c_int|]. intros md _.
  apply (holds_seq _ _ (fun _ => True)); [apply holds_syscall_trace|].
  apply holds_set_metadata. intros c tm md0 ow. eauto.
Qed.

Lemma holds_os_mkdir (p : string) : okmkdir p -> holds I (os_mkdir p) (fun _ => True).
Proof.
  intros Hp w Hw. split; [|trivial].
  unfold os_mkdir, mbind, M_bind. simpl.
  pose proof (I_calls (calls w ++ [SysMkdir p]) w Hw) as Hc.
  destruct (resolve (fs w) p) as [e|n] eqn:Hres; simpl; [exact Hc|].
  destruct (fs_lookup (fs w) n) eqn:Hn; simpl; [exact Hc|].
  now apply (I_mkdir (set_calls _ w) p n).
Qed.

(** *** The registry *)

Lemma holds_tasks_getitem (s : value) :
  (forall k, hash_key s = Some k -> okkey k) ->
  holds I (tasks_getitem s) (fun t => okfd (Task.file t)).
Proof.
  intros Hs w Hw. unfold tasks_getitem, mbind, M_bind. simpl.
  destruct (hash_key s) as [k|]; [|split; [exact Hw | discriminate]].
  destruct (tasks w !! k) as [t|] eqn:Ht; simpl; (split; [exact Hw|]);
    [|discriminate].
  intros a [= <-]. now apply (I_task_fd w k t Hw (Hs k eq_refl)).
Qed.

Lemma holds_Task_release (t : Task.t) :
  okfd (Task.file t) -> holds I (Task_release t) (fun _ => True).
Proof. apply holds_os_close. Qed.

Lemma holds_tasks_setitem (s : value) (t : Task.t) :
  (forall k, hash_key s = Some k -> okkey k) ->
  okfd (Task.file t) ->
  holds I (tasks_setitem s t) (fun _ => True).
Proof.
  intros Hs Ht. unfold tasks_setitem. destruct (hash_key s) as [k|].
  - intros w Hw. unfold mbind, M_bind, modify. simpl.
    pose proof (I_insert w k t Hw (Hs k eq_refl) Ht) as Hins.
    destruct (tasks w !! k) as [old|] eqn:Hold.
    + apply holds_Task_release; [|exact Hins].
      now apply (I_task_fd w k old Hw (Hs k eq_refl)).
    + simpl. split; [exact Hins | trivial].
  - apply (holds_seq _ _ (fun _ => True)); [now apply holds_Task_release|].
    apply holds_raise.
Qed.

Lemma holds_tasks_delitem (s : value) :
  (forall k, hash_key s = Some k -> okkey k) ->
  holds I (tasks_delitem s) (fun _ => True).
Proof.
  intros Hs w Hw. unfold tasks_delitem, mbind, M_bind, modify. simpl.
  destruct (hash_key s) as [k|]; [|split; [exact Hw | discriminate]].
  destruct (tasks w !! k) as [old|] eqn:Hold; [|split; [exact Hw | discriminate]].
  apply holds_Task_release.
  - now apply (I_task_fd w k old Hw (Hs k eq_refl)).
  - now apply I_delete, Hs.
Qed.

(** *** The handlers *)

Lemma holds_Task_finish (t : Task.t) :
  okfd (Task.file t) -> holds I (Task_finish t) (fun _ => True).
Proof.
  intros Ht. unfold Task_finish, Task_close.
  apply (holds_seq _ _ (fun _ => True)); [now apply holds_os_close|].
  apply (holds_bind _ _ (fun _ => True)); [apply holds_py_get|]. intros c _.
  apply (holds_bind _ _ (fun _ => True)); [apply holds_py_get|]. intros m _.
  apply holds_except. unfold restore_metadata.
  apply (holds_seq _ _ (fun _ => True)).
  - destruct (_ && _); [apply holds_os_utime | now apply holds_ret].
  - apply (holds_bind _ _ (fun _ => True)); [apply holds_py_getitem|]. intros pm _.
    apply holds_os_chmod.
Qed.

Lemma holds_finish_tail (t : Task.t) : holds I (finish_tail t) (fun _ => True).
Proof.
  unfold finish_tail.
  apply (holds_bind _ _ (fun _ => True)); [apply holds_py_get|]. intros c _.
  apply (holds_bind _ _ (fun _ => True)); [apply holds_py_get|]. intros m _.
  apply holds_except. unfold restore_metadata.
  apply (holds_seq _ _ (fun _ => True)).
  - destruct (_ && _); [apply holds_os_utime | now apply holds_ret].
  - apply (holds_bind _ _ (fun _ => True)); [apply holds_py_getitem|]. intros pm _.
    apply holds_os_chmod.
Qed.

Lemma holds_close_session (s : value) :
  (forall k, hash_key s = Some k -> okkey k) ->
  holds I (close_session s) (fun _ => True).
Proof.
  intros Hs. unfold close_session.
  apply (holds_bind _ _ (fun t => okfd (Task.file t)));
    [now apply holds_tasks_getitem|]. intros t Ht.
  apply (holds_seq _ _ (fun _ => True));
    [now apply holds_Task_finish | now apply holds_tasks_delitem].
Qed.

Lemma holds_on_download_data (s : value) (data : option bytes) :
  (forall k, hash_key s = Some k -> okkey k) ->
  holds I (on_download_data s data) (fun _ => True).
Proof.
  intros Hs. unfold on_download_data.
  apply (holds_bind _ _ (fun t => okfd (Task.file t)));
    [now apply holds_tasks_getitem|]. intros t Ht.
  unfold Task_write. destruct data; [now apply holds_os_write | apply holds_raise].
Qed.

Lemma holds_on_download_start (s relative info : value) :
  (forall k, hash_key s = Some k -> okkey k) ->
  (forall rel, relative = VStr rel -> okopen (os_path_join root rel)) ->
  holds I (on_download_start s relative info) (fun _ => True).
Proof.
  intros Hs Hrel. unfold on_download_start.
  apply holds_read. intros w0.
  apply (holds_seq _ _ (fun _ => True)).
  { destruct (verbose w0); [apply holds_print | now apply holds_ret]. }
  apply (holds_bind _ _ _ _ (holds_local_path relative)).
  intros p (rel & -> & ->).
  apply (holds_bind _ _ (fun t => okfd (Task.file t))).
  - unfold Task_init. apply (holds_bind _ _ okfd).
    + apply holds_os_open_wb. now apply Hrel.
    + intros fd Hfd. now apply holds_ret.
  - intros t Ht. now apply holds_tasks_setitem.
Qed.

Lemma holds_on_mkdir (path : value) :
  (forall rel, path = VStr rel -> okmkdir (os_path_join root rel)) ->
  holds I (on_mkdir path) (fun _ => True).
Proof.
  intros Hpath. unfold on_mkdir.
  apply (holds_bind _ _ _ _ (holds_local_path path)).
  intros p (rel & -> & ->). apply holds_os_mkdir. now apply Hpath.
Qed.

Lemma holds_on_message (msg : dict) (data : option bytes) :
  allowed okkey okopen okmkdir root msg ->
  holds I (on_message msg data) (fun _ => True).
Proof.
  intros Hmsg. unfold on_message.
  destruct (eq_str (default VNone (dict_get "type" msg)) "send");
    simpl; [|apply holds_print].
  destruct (default (VDict []) (dict_get "payload" msg)) as [| | | | |payload] eqn:Hpay;
    try apply holds_raise.
  destruct (Hmsg payload Hpay) as [Hdl Hmk].
  destruct (eq_str (default VNone (dict_get "subject" payload)) "download") eqn:Hsub.
  - specialize (Hdl eq_refl).
    apply (holds_bind _ _ _ _ (holds_method_mapping _)). intros m Hm.
    unfold call_method.
    apply (holds_seq _ _ (fun _ => True)); [apply holds_reject_keywords|].
    destruct m.
    + apply (holds_bind _ _ _ _ (holds_keyword _ _)). intros s Hs.
      apply (holds_bind _ _ _ _ (holds_keyword _ _)). intros r Hr.
      apply (holds_bind _ _ _ _ (holds_keyword _ _)). intros i Hi.
      destruct (Hdl s Hs) as [Hkey Hopen].
      apply holds_on_download_start; [exact Hkey|].
      intros rel ->. exact (Hopen (Hm eq_refl) rel Hr).
    + apply (holds_bind _ _ _ _ (holds_keyword _ _)). intros s Hs.
      apply holds_on_download_data. exact (proj1 (Hdl s Hs)).
    + apply (holds_bind _ _ _ _ (holds_keyword _ _)). intros s Hs.
      apply holds_close_session. exact (proj1 (Hdl s Hs)).
    + apply (holds_bind _ _ _ _ (holds_keyword _ _)). intros s Hs.
      apply holds_close_session. exact (proj1 (Hdl s Hs)).
  - destruct (eq_str _ "finish").
    + apply (holds_seq _ _ (fun _ => True)); [apply holds_print|].
      apply (holds_seq _ _ (fun _ => True)); [apply holds_session_detach|].
      apply holds_raise.
    + destruct (eq_str _ "mkdir") eqn:Hmkdir.
      * apply (holds_seq _ _ (fun _ => True)); [apply holds_reject_keywords|].
        apply (holds_bind _ _ _ _ (holds_keyword _ _)). intros path Hpath.
        apply holds_on_mkdir. intros rel ->. exact (Hmk eq_refl rel Hpath).
      * apply (holds_seq _ _ (fun _ => True)); apply holds_print.
Qed.

End Invariant.

(** ** Data events: the bytes of a transfer *)

Lemma write_at_end (c data : bytes) : write_at c (length c) data = (c ++ data)%list.
Proof.
  unfold write_at. rewrite Nat.sub_diag. simpl. rewrite app_nil_r.
  rewrite firstn_all. rewrite drop_ge by lia. now rewrite app_nil_r.
Qed.

Ltac recv H :=
  destruct H as (Htmp & Ht & Hex & Hone & Hfd & tm0 & md0 & ow0 & Hn).

Lemma receiving_same root k t n c buf (w w' : World) :
  tempdir w' = tempdir w -> tasks w' = tasks w ->
  ofiles w' = ofiles w -> fs w' = fs w ->
  receiving root k t n c buf w -> receiving root k t n c buf w'.
Proof. unfold receiving. intros -> -> -> ->. trivial. Qed.

Lemma receiving_node root k t n c buf (w : World) :
  receiving root k t n c buf w -> n <> [] /\ exists tm md ow, fs w !! n = Some (File c tm md ow).
Proof.
  intros Hr. recv Hr. split; [intros ->; discriminate|].
  exists tm0, md0, ow0. now apply fs_lookup_File.
Qed.

(** A message that is foreign to the transfer is allowed by its
    invariant. *)
Lemma foreign_allowed (root : string) (k : key) (n : fspath) (msg : dict) :
  eq_str (default VNone (dict_get "type" msg)) "send" = true ->
  foreign root k n msg = true ->
  allowed (fun k' => k' <> k) (fun p => target p <> n) (fun _ => True) root msg.
Proof.
  unfold foreign. intros -> Hf payload Hpay. rewrite Hpay in Hf. simpl in Hf.
  split; [|trivial].
  intros Hsub s Hs. rewrite Hsub, Hs in Hf. simpl in Hf.
  apply andb_true_iff in Hf. destruct Hf as [Hkey Hopen].
  apply negb_true_iff, bool_decide_eq_false in Hkey. split.
  - intros k' Hk' ->. contradiction.
  - intros Hev rel Hrel. rewrite Hev, Hrel in Hopen. simpl in Hopen.
    now apply negb_true_iff, bool_decide_eq_false in Hopen.
Qed.

(** What the invariant of an open transfer tolerates. *)
Section Receiving.
Variables (root : string) (k : key) (t : Task.t) (n : fspath) (c buf : bytes).
Let I := receiving root k t n c buf.

Lemma receiving_tempdir w : I w -> tempdir w = Some root.
Proof. intros H. now recv H. Qed.

Lemma receiving_calls x w : I w -> I (set_calls x w).
Proof. intros H. eapply receiving_same; [..|exact H]; reflexivity. Qed.

Lemma receiving_stdout x w : I w -> I (set_stdout x w).
Proof. intros H. eapply receiving_same; [..|exact H]; reflexivity. Qed.

Lemma receiving_session x w : I w -> I (set_session x w).
Proof. intros H. eapply receiving_same; [..|exact H]; reflexivity. Qed.

Lemma receiving_task_fd w k' t' :
  I w -> k' <> k -> tasks w !! k' = Some t' -> Task.file t' <> Task.file t.
Proof. intros H Hne Ht' Heq. recv H. exact (Hne (Hex k' t' Ht' Heq)). Qed.

Lemma receiving_new_fd w : I w -> new_fd w <> Task.file t.
Proof. intros H Heq. recv H. pose proof (new_fd_task w k t Ht). lia. Qed.

Lemma receiving_buffer_other w fd o pos buf' :
  I w -> fd <> Task.file t -> ofiles w !! fd = Some o ->
  I (set_ofiles (<[fd := mkOfile (of_node o) pos buf']> (ofiles w)) w).
Proof.
  intros H Hne Ho. recv H. repeat split; simpl; trivial.
  - intros fd0 o0 Ho0 Hnode. destruct (decide (fd0 = fd)) as [->|Hne0].
    + rewrite lookup_insert_eq in Ho0. injection Ho0 as <-. simpl in Hnode.
      exfalso. exact (Hne (Hone fd o Ho Hnode)).
    + rewrite lookup_insert_ne in Ho0 by congruence. exact (Hone fd0 o0 Ho0 Hnode).
  - rewrite lookup_insert_ne by congruence. exact Hfd.
  - eauto.
Qed.

Lemma receiving_write_other w fd o c0 tm md ow c' :
  I w -> fd <> Task.file t -> ofiles w !! fd = Some o ->
  fs w !! of_node o = Some (File c0 tm md ow) ->
  I (set_fs (<[of_node o := File c' tm md ow]> (fs w)) w).
Proof.
  intros H Hne Ho Hnode.
  assert (of_node o <> n) as Hnn by (intros Heq; recv H; exact (Hne (Hone fd o Ho Heq))).
  recv H. repeat split; simpl; trivial.
  exists tm0, md0, ow0. now rewrite fs_lookup_insert_ne.
Qed.

Lemma receiving_close_other w fd :
  I w -> fd <> Task.file t -> I (set_ofiles (delete fd (ofiles w)) w).
Proof.
  intros H Hne. recv H. repeat split; simpl; trivial.
  - intros fd0 o0 Ho0 Hnode. apply lookup_delete_Some in Ho0 as [_ Ho0].
    exact (Hone fd0 o0 Ho0 Hnode).
  - rewrite lookup_delete_ne by congruence. exact Hfd.
  - eauto.
Qed.

Lemma receiving_open_other w p m tm md ow :
  I w -> target p <> n -> resolve (fs w) p = inr m -> m <> [] ->
  fs w !! m <> Some Dir ->
  I (set_next_fd (S (new_fd w))
       (set_ofiles (<[new_fd w := mkOfile m 0 []]> (ofiles w))
          (set_fs (<[m := File [] tm md ow]> (fs w)) w))).
Proof.
  intros H Hp Hres Hm Hdir.
  assert (m <> n) as Hmn by (rewrite (resolve_target _ _ _ Hres); exact Hp).
  recv H. pose proof (new_fd_task w k t Ht) as Hnew.
  repeat split; simpl; trivial.
  - intros fd0 o0 Ho0 Hnode. destruct (decide (fd0 = new_fd w)) as [->|Hne0].
    + rewrite lookup_insert_eq in Ho0. injection Ho0 as <-. simpl in Hnode.
      contradiction.
    + rewrite lookup_insert_ne in Ho0 by congruence. exact (Hone fd0 o0 Ho0 Hnode).
  - rewrite lookup_insert_ne by lia. exact Hfd.
  - exists tm0, md0, ow0. now rewrite fs_lookup_insert_ne.
Qed.

Lemma receiving_meta w m c0 tm md ow tm' md' :
  I w -> fs w !! m = Some (File c0 tm md ow) ->
  I (set_fs (<[m := File c0 tm' md' ow]> (fs w)) w).
Proof.
  intros H Hm.
  destruct (receiving_node _ _ _ _ _ _ _ H) as (Hne & tm1 & md1 & ow1 & Hn1).
  recv H. repeat split; simpl; trivial.
  destruct (decide (m = n)) as [->|Hmn].
  - rewrite Hn1 in Hm. injection Hm as <- <- <- <-.
    exists tm', md', ow1. destruct n; [contradiction|]. simpl. apply lookup_insert_eq.
  - exists tm0, md0, ow0. now rewrite fs_lookup_insert_ne.
Qed.

Lemma receiving_mkdir w (p : string) m :
  I w -> True -> resolve (fs w) p = inr m -> fs_lookup (fs w) m = None ->
  I (set_fs (<[m := Dir]> (fs w)) w).
Proof.
  intros H _ Hres Hm.
  assert (m <> n) as Hmn by (intros ->; recv H; congruence).
  recv H. repeat split; simpl; trivial.
  exists tm0, md0, ow0. now rewrite fs_lookup_insert_ne.
Qed.

Lemma receiving_insert_other w k' t' :
  I w -> k' <> k -> Task.file t' <> Task.file t ->
  I (set_tasks (<[k' := t']> (tasks w)) w).
Proof.
  intros H Hne Hfile. recv H. repeat split; simpl; trivial.
  - now rewrite lookup_insert_ne.
  - intros k0 t0 Ht0 Heq. destruct (decide (k0 = k')) as [->|Hne0].
    + rewrite lookup_insert_eq in Ht0. injection Ht0 as <-. contradiction.
    + rewrite lookup_insert_ne in Ht0 by congruence. exact (Hex k0 t0 Ht0 Heq).
  - eauto.
Qed.

Lemma receiving_delete_other w k' :
  I w -> k' <> k -> I (set_tasks (delete k' (tasks w)) w).
Proof.
  intros H Hne. recv H. repeat split; simpl; trivial.
  - now rewrite lookup_delete_ne.
  - intros k0 t0 Ht0 Heq. apply lookup_delete_Some in Ht0 as [_ Ht0].
    exact (Hex k0 t0 Ht0 Heq).
  - eauto.
Qed.

(** A message that is foreign to an open transfer leaves it as it is,
    whether it returns or raises. *)
Lemma receiving_foreign (msg : dict) (data : option bytes) (w : World) :
  foreign root k n msg = true -> I w -> I (on_message msg data w).2.
Proof.
  intros Hf Hw.
  destruct (eq_str (default VNone (dict_get "type" msg)) "send") eqn:Htype.
  2:{ rewrite (unknown_type_logged msg data w Htype). simpl.
      now apply receiving_stdout. }
  exact (proj1 (holds_on_message I root
                  (fun fd => fd <> Task.file t) (fun k' => k' <> k)
                  (fun p => target p <> n) (fun _ => True)
                  receiving_tempdir receiving_calls receiving_stdout receiving_session
                  receiving_task_fd receiving_new_fd receiving_buffer_other
                  receiving_write_other receiving_close_other receiving_open_other
                  receiving_meta receiving_mkdir receiving_insert_other
                  receiving_delete_other
                  msg data (foreign_allowed root k n msg Htype Hf) w Hw)).
Qed.

(** Closing a file of another task leaves the transfer as it is. *)
Lemma receiving_release (fd : nat) (w : World) :
  fd <> Task.file t -> I w -> I (os_close fd w).2.
Proof.
  intros Hne Hw.
  exact (proj1 (holds_os_close I (fun fd => fd <> Task.file t)
                  receiving_calls receiving_buffer_other receiving_write_other
                  receiving_close_other fd Hne w Hw)).
Qed.
End Receiving.

(** The bytes of a data event go to the buffer or to the file; either way
    they come after what was written before. *)
Lemma receiving_buffer root k t n c buf buf' (w : World) :
  receiving root k t n c buf w ->
  receiving root k t n c buf'
    (set_ofiles (<[Task.file t := mkOfile n (length c) buf']> (ofiles w)) w).
Proof.
  intros H. recv H. repeat split; simpl; trivial.
  - intros fd0 o0 Ho0 Hnode. destruct (decide (fd0 = Task.file t)) as [->|Hne0];
      [reflexivity|].
    rewrite lookup_insert_ne in Ho0 by congruence. exact (Hone fd0 o0 Ho0 Hnode).
  - apply lookup_insert_eq.
  - eauto.
Qed.

Lemma receiving_raw_write root k t n c buf (o : ofile) (data : bytes) (w : World) :
  receiving root k t n c buf w ->
  of_node o = n -> of_pos o = length c ->
  (raw_write (Task.file t) o data w).1 = Return tt
  /\ platform (raw_write (Task.file t) o data w).2 = platform w
  /\ receiving root k t n (c ++ data) [] (raw_write (Task.file t) o data w).2.
Proof.
  intros H Hnode Hpos.
  destruct (receiving_node _ _ _ _ _ _ _ H) as (Hne & tm1 & md1 & ow1 & Hn1).
  recv H. unfold raw_write, mbind, M_bind, syscall_trace, modify. simpl.
  rewrite Hnode, Hn1, Hpos. simpl. split; [reflexivity|]. split; [reflexivity|].
  repeat split; simpl; trivial.
  - intros fd0 o0 Ho0 Hnode0. destruct (decide (fd0 = Task.file t)) as [->|Hne0];
      [reflexivity|].
    rewrite lookup_insert_ne in Ho0 by congruence. exact (Hone fd0 o0 Ho0 Hnode0).
  - rewrite lookup_insert_eq, length_app. reflexivity.
  - exists tm1, md1, ow1. rewrite write_at_end.
    destruct n; [contradiction|]. simpl. apply lookup_insert_eq.
Qed.

Lemma receiving_flush root k t n c buf (w : World) :
  receiving root k t n c buf w ->
  (os_flush (Task.file t) w).1 = Return tt
  /\ platform (os_flush (Task.file t) w).2 = platform w
  /\ receiving root k t n (c ++ buf) [] (os_flush (Task.file t) w).2.
Proof.
  intros H. pose proof H as H'. recv H'.
  unfold os_flush, mbind, M_bind. simpl. rewrite Hfd. simpl.
  destruct buf as [|b0 bs].
  - simpl. rewrite app_nil_r. auto.
  - now apply (receiving_raw_write root k t n c (b0 :: bs)).
Qed.

Lemma receiving_own root k t n c buf (s : value) (b : bytes) (w : World) :
  hash_key s = Some k ->
  receiving root k t n c buf w ->
  exists c' buf' w',
    on_download_data s (Some b) w = (Return tt, w')
    /\ receiving root k t n c' buf' w'
    /\ (c' ++ buf' = (c ++ buf) ++ b)%list.
Proof.
  intros Hk H. pose proof H as H'. recv H'.
  assert (tasks_getitem s w = (Return t, w)) as Hget.
  { unfold tasks_getitem, mbind, M_bind. simpl. now rewrite Hk, Ht. }
  unfold on_download_data. rewrite (bind_Return _ _ _ _ _ Hget).
  unfold Task_write, os_write, mbind at 1, M_bind at 1. simpl. rewrite Hfd. simpl.
  destruct (_ <=? _)%nat.
  - exists c, (buf ++ b)%list. eexists. split; [reflexivity|].
    split; [now apply (receiving_buffer root k t n c buf) | now rewrite app_assoc].
  - destruct (receiving_flush _ _ _ _ _ _ _ H) as (Hret & Hpf & H1).
    unfold mbind, M_bind.
    destruct (os_flush (Task.file t) w) as [r w1]. simpl in *. subst r.
    rewrite <- Hpf.
    destruct (_ <? _)%nat.
    + destruct (receiving_raw_write root k t n (c ++ buf) []
                  (flushed (mkOfile n (length c) buf)) b w1 H1 eq_refl) as (Hr & _ & H2).
      { simpl. now rewrite length_app. }
      destruct (raw_write _ _ b w1) as [r w2]. simpl in *. subst r.
      exists ((c ++ buf) ++ b)%list, [], w2.
      split; [reflexivity|]. split; [exact H2 | now rewrite app_nil_r].
    + exists (c ++ buf)%list, b. eexists. split; [reflexivity|]. split; [|reflexivity].
      unfold flushed. simpl. rewrite <- length_app.
      now apply (receiving_buffer root k t n (c ++ buf) []).
Qed.

Global Instance keeps_read_preorder (p : string) (c : bytes) : PreOrder (keeps_read p c).
Proof. split; [intros w H; exact H | intros w1 w2 w3 H1 H2 H; auto]. Qed.

Lemma keeps_read_metadata (p : string) (c : bytes) n c0 tm md ow tm' md' (w : World) :
  fs w !! n = Some (File c0 tm md ow) ->
  keeps_read p c w (set_fs (<[n := File c0 tm' md' ow]> (fs w)) w).
Proof.
  intros Hn. unfold keeps_read, read_file.
  destruct (resolve (fs w) p) as [e|m] eqn:Hres; [discriminate|].
  rewrite (resolve_keeps_dirs w _ p m); [|apply keeps_dirs_insert; congruence|exact Hres].
  simpl. destruct (decide (n = m)) as [->|Hne].
  - destruct m as [|x m]; [discriminate|]. simpl.
    rewrite Hn, lookup_insert_eq. trivial.
  - now rewrite fs_lookup_insert_ne.
Qed.

Lemma keeps_read_finish_tail (p : string) (c : bytes) (t : Task.t) :
  stable (keeps_read p c) (finish_tail t).
Proof.
  unfold finish_tail. do 2 stable_seq. apply stable_except.
  apply stable_restore_metadata with (P := fun _ => True);
    try apply _; try (intros; exact I); try (intros; intros Hkeep; exact Hkeep).
  - intros n c0 tm md ow tm' w Hn.
    now apply keeps_read_metadata with (tm := tm) (md := md).
  - intros n c0 tm md ow md' w Hn.
    now apply keeps_read_metadata with (tm := tm) (md := md).
Qed.

Global Instance same_ofiles_preorder : PreOrder same_ofiles.
Proof.
  split; [intros w; split; reflexivity|].
  intros w1 w2 w3 [O1 T1] [O2 T2]. split; congruence.
Qed.

Lemma same_ofiles_finish_tail (t : Task.t) : stable same_ofiles (finish_tail t).
Proof.
  unfold finish_tail. do 2 stable_seq. apply stable_except.
  apply stable_restore_metadata with (P := fun _ => True);
    try apply _; try (intros; exact I); intros; split; reflexivity.
Qed.

(** [finish] is the [close] followed by the rest. *)
Lemma Task_finish_tail (t : Task.t) (w : World) :
  Task_finish t w = finish_tail t (Task_close t w).2.
Proof.
  unfold Task_finish, finish_tail.
  pose proof (os_close_returns (Task.file t) w) as Hret. unfold Task_close.
  destruct (os_close (Task.file t) w) as [r w1] eqn:Hclose. simpl in *. subst r.
  now rewrite (bind_Return _ _ _ _ _ Hclose).
Qed.

(** The end event of an open transfer: the [close] puts the buffer into the
    file, and what is read at the path afterwards is all that was
    written. *)
Lemma receiving_end root k t n c buf (s : value) (p : string) (w : World) :
  hash_key s = Some k ->
  receiving root k t n c buf w ->
  resolve (fs w) p = inr n ->
  read_file (close_session s w).2 p = Some (c ++ buf)%list.
Proof.
  intros Hk H Hres. pose proof H as H'. recv H'.
  assert (tasks_getitem s w = (Return t, w)) as Hget.
  { unfold tasks_getitem, mbind, M_bind. simpl. now rewrite Hk, Ht. }
  unfold close_session. rewrite (bind_Return _ _ _ _ _ Hget).
  unfold mbind at 1, M_bind at 1.
  rewrite Task_finish_tail. unfold Task_close.
  rewrite (os_close_open _ _ _ Hfd).
  destruct (receiving_flush _ _ _ _ _ _ _ H) as (_ & _ & H1).
  assert (keeps_dirs w (os_flush (Task.file t) w).2) as Hdirs.
  { apply stable_os_flush with (P := fun _ => True); keeps_dirs_frame. }
  pose proof (resolve_keeps_dirs _ _ _ _ Hdirs Hres) as Hres1.
  destruct (os_flush_fields (Task.file t) w) as (Htasks1 & _).
  set (w1 := (os_flush (Task.file t) w).2) in *. clearbody w1.
  set (w3 := set_ofiles (delete (Task.file t) (ofiles w1))
               (set_calls (calls w1 ++ [SysClose (Task.file t)]) w1)).
  assert (read_file w3 p = Some (c ++ buf)%list) as Hread3.
  { unfold read_file. subst w3. simpl. rewrite Hres1.
    destruct H1 as (_ & _ & _ & _ & _ & tm1 & md1 & ow1 & Hn1). now rewrite Hn1. }
  assert (ofiles w3 !! Task.file t = None) as Hclosed3
    by (subst w3; simpl; apply lookup_delete_eq).
  assert (tasks w3 !! k = Some t) as Ht3 by (subst w3; simpl; now rewrite Htasks1).
  clearbody w3. cbn [snd].
  pose proof (keeps_read_finish_tail p (c ++ buf) t w3 Hread3) as Hread4.
  destruct (same_ofiles_finish_tail t w3) as [Ho4 Ht4].
  destruct (finish_tail t w3) as [[[]|e] w4] eqn:Hfin; simpl in Hread4, Ho4, Ht4.
  - unfold tasks_delitem, mbind, M_bind, modify. simpl.
    rewrite Hk, Ht4, Ht3. unfold Task_release.
    rewrite os_close_closed; [exact Hread4|]. simpl. now rewrite Ho4.
  - exact Hread4.
Qed.

Lemma unopened_spec (w : World) (n : fspath) :
  unopened w n = true ->
  forall fd o, ofiles w !! fd = Some o -> of_node o <> n.
Proof.
  unfold unopened. intros H fd o Ho.
  rewrite forallb_forall in H.
  apply elem_of_map_to_list, list_elem_of_In in Ho.
  specialize (H _ Ho). simpl in H.
  now apply negb_true_iff, bool_decide_eq_false in H.
Qed.

Lemma local_path_announced (relative : value) (w : World) :
  (local_path relative (announced relative w)).1 = (local_path relative w).1.
Proof.
  unfold local_path, mbind, M_bind, announced. simpl.
  destruct (verbose w); simpl; [|reflexivity].
  destruct (tempdir w); [|reflexivity].
  destruct relative; try reflexivity.
  now destruct (negb _).
Qed.

Lemma keeps_dirs_deliver (pol : exn -> bool) (msgs : list (dict * option bytes)) :
  stable keeps_dirs (deliver pol msgs).
Proof.
  apply stable_deliver with (K := fun _ => True) (P := fun _ => True);
    keeps_dirs_frame.
  apply Forall_forall. intros m _ k. now left.
Qed.

(** A start event that returns, for a path on which no file is open: the
    transfer is open on the file the path names, and nothing has been
    written. *)
Lemma start_receiving
    (root p : string) (k : key) (s relative info : value) (w w1 : World) :
  tempdir w = Some root ->
  hash_key s = Some k ->
  (local_path relative w).1 = Return p ->
  unopened w (target p) = true ->
  on_download_start s relative info w = (Return tt, w1) ->
  exists t, receiving root k t (target p) [] [] w1
            /\ resolve (fs w1) p = inr (target p).
Proof.
  intros Htmp Hk Hp Hun Hstart.
  pose proof (keeps_dirs_on_message (download_start s relative info) None w) as Hdirs.
  rewrite on_message_start, Hstart in Hdirs. simpl in Hdirs.
  destruct (on_download_start_inv _ _ _ _ _ Hstart)
    as (k0 & p0 & fd & w0 & Hk0 & Hpath & Hopen & Hset).
  assert (k0 = k) as -> by congruence.
  assert (p0 = p) as ->.
  { rewrite <- local_path_announced, Hpath in Hp. simpl in Hp. congruence. }
  destruct (announced_fields relative w) as (Hat & Hao & Hafs & _ & Hatmp & Hanf).
  destruct (os_open_wb_inv _ _ _ _ Hopen)
    as (n & tm & md & ow & Hres & Hne & Hdir & Hfd & Hw0).
  rewrite Hafs in Hres, Hdir. rewrite Hanf in Hfd. rewrite Hao, Hafs in Hw0.
  pose proof (resolve_target _ _ _ Hres) as Hn. rewrite <- Hn in *.
  set (t := Task.mk s p info fd) in *.
  assert (tasks w0 = tasks w) as Htasks0 by (rewrite Hw0; exact Hat).
  assert (receiving root k t n [] [] (set_tasks (<[k := t]> (tasks w0)) w0)) as Hrec.
  { rewrite Hw0. repeat split; simpl.
    - now rewrite Hatmp.
    - apply lookup_insert_eq.
    - intros k' t' Ht' Heq. destruct (decide (k' = k)) as [|Hne']; [assumption|].
      rewrite lookup_insert_ne in Ht' by congruence. rewrite Hat in Ht'.
      pose proof (new_fd_task w k' t' Ht'). lia.
    - intros fd0 o0 Ho0 Hnode. destruct (decide (fd0 = fd)) as [|Hne']; [assumption|].
      rewrite lookup_insert_ne in Ho0 by congruence.
      exfalso. exact (unopened_spec w n Hun fd0 o0 Ho0 Hnode).
    - apply lookup_insert_eq.
    - exists tm, md, ow. destruct n; [contradiction|]. simpl. apply lookup_insert_eq. }
  exists t. split; [|now apply (resolve_keeps_dirs w)].
  rewrite (tasks_setitem_hashable s k t w0 Hk) in Hset.
  destruct (tasks w0 !! k) as [old|] eqn:Hold.
  - assert (w1 = (Task_release old (set_tasks (<[k := t]> (tasks w0)) w0)).2) as ->
      by now rewrite Hset.
    apply receiving_release; [|exact Hrec].
    rewrite Htasks0 in Hold. pose proof (new_fd_task w k old Hold). simpl. lia.
  - now injection Hset as <-.
Qed.

(** The events between the start and the end of a transfer: its own data
    events are accepted and what they carry is added, in order, to what has
    been written; the other events change nothing of it. *)
Lemma receiving_deliver
    (pol : exn -> bool) root k t n (s : value) (evs : list event) :
  hash_key s = Some k ->
  forallb (foreign_event root k n) evs = true ->
  forall c buf w,
    receiving root k t n c buf w ->
    (forall w2, deliver pol (List.map (event_message s) evs) w = (Return tt, w2) ->
       exists c' buf', receiving root k t n c' buf' w2
                       /\ (c' ++ buf' = (c ++ buf) ++ own_payloads evs)%list)
    /\ (forallb is_own evs = true \/ (forall e, pol e = false) ->
        exists w2, deliver pol (List.map (event_message s) evs) w = (Return tt, w2)).
Proof.
  intros Hk. induction evs as [|ev evs IH]; intros Hfor c buf w Hrec.
  - split.
    + intros w2 [= <-]. exists c, buf. split; [exact Hrec|].
      unfold own_payloads. simpl. now rewrite app_nil_r.
    + intros _. now exists w.
  - simpl in Hfor. apply andb_true_iff in Hfor. destruct Hfor as [Hev Hfor].
    destruct ev as [b|msg data]; simpl.
    + destruct (receiving_own root k t n c buf s b w Hk Hrec)
        as (c1 & buf1 & w1 & Hstep & Hrec1 & Hacc).
      rewrite on_message_data, Hstep.
      destruct (IH Hfor c1 buf1 w1 Hrec1) as [IH1 IH2]. split.
      * intros w2 Hrun. destruct (IH1 w2 Hrun) as (c' & buf' & Hrec' & Hacc').
        exists c', buf'. split; [exact Hrec'|].
        rewrite Hacc', Hacc. unfold own_payloads. simpl. now rewrite app_assoc.
      * intros Hown. apply IH2. destruct Hown as [Hown|Hpol]; [left | now right].
        exact Hown.
    + pose proof (receiving_foreign root k t n c buf msg data w Hev Hrec) as Hrec1.
      destruct (IH Hfor c buf (on_message msg data w).2 Hrec1) as [IH1 IH2].
      destruct (on_message msg data w) as [[u|e] w1]; simpl in *.
      * split; [exact IH1|].
        intros [Hown|Hpol]; [discriminate | apply IH2; now right].
      * destruct (pol e) eqn:Hpe.
        -- split; [discriminate|].
           intros [Hown|Hpol]; [discriminate | rewrite Hpol in Hpe; discriminate].
        -- split; [exact IH1|].
           intros [Hown|Hpol]; [discriminate | apply IH2; now right].
Qed.

(** C4, as the code has it. A start event that returns, for a key [k] and a
    path on which no file is open at that moment; then any events, among
    them the data events of the key, the others foreign to the transfer
    (events of other keys, start events for other files, [mkdir], anything
    else). When all of them have been handled, the end event of the key
    leaves the file with the payloads of the key's data events one after
    the other, in the order received, empty ones included. The data events
    of the key never raise: with nothing else in between, or with a runtime
    that lets no exception through, all events are handled. *)
Theorem data_events_concatenate
    (pol : exn -> bool) (w w1 : World) (s relative info : value)
    (root p : string) (k : key) (evs : list event) :
  tempdir w = Some root ->
  hash_key s = Some k ->
  (local_path relative w).1 = Return p ->
  unopened w (target p) = true ->
  on_message (download_start s relative info) None w = (Return tt, w1) ->
  forallb (foreign_event root k (target p)) evs = true ->
  (forall w2,
      deliver pol (List.map (event_message s) evs) w1 = (Return tt, w2) ->
      read_file (on_message (download_event "end" s) None w2).2 p
      = Some (own_payloads evs))
  /\ (forallb is_own evs = true \/ (forall e, pol e = false) ->
      exists w2, deliver pol (List.map (event_message s) evs) w1 = (Return tt, w2)).
Proof.
  intros Htmp Hk Hp Hun Hstart Hfor. rewrite on_message_start in Hstart.
  destruct (start_receiving root p k s relative info w w1 Htmp Hk Hp Hun Hstart)
    as (t & Hrec & Hres).
  destruct (receiving_deliver pol root k t (target p) s evs Hk Hfor [] [] w1 Hrec)
    as [Hall Hruns].
  split; [|exact Hruns].
  intros w2 Hrun. destruct (Hall w2 Hrun) as (c' & buf' & Hrec' & Hacc).
  rewrite on_message_end. simpl in Hacc. rewrite <- Hacc.
  apply (receiving_end root k t (target p) c' buf' s p w2 Hk Hrec').
  apply (resolve_keeps_dirs w1); [|exact Hres].
  pose proof (keeps_dirs_deliver pol (List.map (event_message s) evs) w1) as Hdirs.
  now rewrite Hrun in Hdirs.
Qed.

Lemma data_events_concatenate_witness :
  let perm := VDict [("permission", VInt 420)] in
  let evs :=
    [ Own [Byte.x50; Byte.x4b];
      Other (download_start (VInt 2) (VStr "b.bin") perm) None;
      Own [];
      Other (download_event "data" (VInt 2)) (Some [Byte.x7a]);
      Other (mkdir_message (VStr "Payload")) None;
      Other (download_event "end" (VInt 9)) None;
      Own [Byte.x03; Byte.x04];
      Other (download_event "end" (VInt 2)) None ] in
  (forall w2,
      deliver (fun _ => false) (List.map (event_message (VInt 1)) evs) one_open
      = (Return tt, w2) ->
      read_file (on_message (download_event "end" (VInt 1)) None w2).2 "/tmp/ws/a.bin"
      = Some (own_payloads evs))
  /\ (forallb is_own evs = true \/ (forall e : exn, (fun _ => false) e = false) ->
      exists w2,
        deliver (fun _ => false) (List.map (event_message (VInt 1)) evs) one_open
        = (Return tt, w2)).
Proof.
  intros perm evs.
  apply (data_events_concatenate (fun _ => false) example_world one_open
           (VInt 1) (VStr "a.bin") perm "/tmp/ws" "/tmp/ws/a.bin" (KInt 1) evs);
    vm_compute; reflexivity.
Defined.

(** C4 as stated fails when the key is started again while its first
    transfer is open: the two bytes of the first transfer are still in the
    buffer of its file when the second start empties the file, and the
    interpreter writes them out when it releases the first task. The data
    event [x] that follows the second start is accepted, and after the end
    event the file holds [xc], not [x]. *)
Lemma restart_mixes_old_bytes :
  let held :=
    (deliver (fun _ => true)
       [ (start_a_bin, None);
         (download_event "data" (VInt 1), Some [Byte.x61; Byte.x63]) ] example_world).2 in
  let w1 := (on_message start_a_bin None held).2 in
  let w2 := (deliver (fun _ => true) (data_events (VInt 1) [[Byte.x78]]) w1).2 in
  (on_message start_a_bin None held).1 = Return tt
  /\ (deliver (fun _ => true) (data_events (VInt 1) [[Byte.x78]]) w1).1 = Return tt
  /\ (on_message (download_event "end" (VInt 1)) None w2).1 = Return tt
  /\ read_file (on_message (download_event "end" (VInt 1)) None w2).2 "/tmp/ws/a.bin"
     = Some [Byte.x78; Byte.x63]
  /\ concat [[Byte.x78]] = [Byte.x78].
Proof. vm_compute. repeat split; reflexivity. Qed.

(** Until the end event the bytes of a small transfer are in the buffer,
    not in the file; payloads that do not fit are written through. *)
Example data_is_buffered :
  let w := (deliver (fun _ => true)
              [ (start_a_bin, None);
                (download_event "data" (VInt 1), Some [Byte.x61; Byte.x63]) ]
              example_world).2 in
  let big := replicate 5000 Byte.x00 in
  let w' := (on_message (download_event "data" (VInt 1)) (Some big) w).2 in
  read_file w "/tmp/ws/a.bin" = Some []
  /\ ofiles w !! 3%nat = Some (mkOfile ["tmp"; "ws"; "a.bin"] 0 [Byte.x61; Byte.x63])
  /\ read_file w' "/tmp/ws/a.bin" = Some ([Byte.x61; Byte.x63] ++ big)%list
  /\ read_file (on_message (download_event "end" (VInt 1)) None w).2 "/tmp/ws/a.bin"
     = Some [Byte.x61; Byte.x63].
Proof. vm_compute. repeat split; reflexivity. Qed.

(** Two transfers whose events interleave keep their bytes apart when their
    paths differ; two keys started on the same path share one file, and what
    the file holds in the end is what the last [close] wrote. *)
Example interleaved_transfers :
  let perm := VDict [("permission", VInt 420)] in
  let apart :=
    deliver (fun _ => true)
      [ (download_start (VInt 1) (VStr "a.bin") perm, None);
        (download_start (VInt 2) (VStr "b.bin") perm, None);
        (download_event "data" (VInt 1), Some [Byte.x61]);
        (download_event "data" (VInt 2), Some [Byte.x62]);
        (download_event "data" (VInt 1), Some [Byte.x63]);
        (download_event "end" (VInt 2), None);
        (download_event "end" (VInt 1), None) ] example_world in
  let shared :=
    deliver (fun _ => true)
      [ (download_start (VInt 1) (VStr "a.bin") perm, None);
        (download_event "data" (VInt 1), Some [Byte.x61; Byte.x63]);
        (download_start (VInt 2) (VStr "a.bin") perm, None);
        (download_event "data" (VInt 2), Some [Byte.x78]);
        (download_event "end" (VInt 1), None);
        (download_event "end" (VInt 2), None) ] example_world in
  (apart.1 = Return tt
   /\ read_file apart.2 "/tmp/ws/a.bin" = Some [Byte.x61; Byte.x63]
   /\ read_file apart.2 "/tmp/ws/b.bin" = Some [Byte.x62])
  /\ (shared.1 = Return tt
      /\ read_file shared.2 "/tmp/ws/a.bin" = Some [Byte.x78; Byte.x63]).
Proof. vm_compute. repeat split; reflexivity. Qed.

(** The scenario of the specification, run: the file holds [PK\x03\x04rest],
    its mode is [0o644], and key 1 has left the registry. *)
Example transfer_scenario :
  let msgs :=
    [ (mkdir_message (VStr "Payload"), None);
      (download_start (VInt 1) (VStr "Payload/Info.plist")
         (VDict [("permission", VInt 420)]), None);
      (download_event "data" (VInt 1), Some [Byte.x50; Byte.x4b; Byte.x03; Byte.x04]);
      (download_event "data" (VInt 1), Some [Byte.x72; Byte.x65; Byte.x73; Byte.x74]);
      (download_event "end" (VInt 1), None) ] in
  let r := deliver (fun _ => true) msgs example_world in
  r.1 = Return tt
  /\ fs r.2 !! ["tmp"; "ws"; "Payload"; "Info.plist"]
     = Some (File [Byte.x50; Byte.x4b; Byte.x03; Byte.x04;
                   Byte.x72; Byte.x65; Byte.x73; Byte.x74] None 420 true)
  /\ tasks r.2 !! KInt 1 = None
  /\ ofiles r.2 = ∅.
Proof. vm_compute. repeat split; reflexivity. Qed.

(** ** [Task.finish] *)

Lemma Task_close_returns (t : Task.t) (w : World) :
  (Task_close t w).1 = Return tt
  /\ tasks (Task_close t w).2 = tasks w
  /\ stdout (Task_close t w).2 = stdout w.
Proof.
  unfold Task_close. split; [apply os_close_returns|].
  destruct (os_close_fields (Task.file t) w) as (H1 & _ & H2 & _). auto.
Qed.

(** [finish] with the attributes read: the handle is closed, then the [try]
    block runs. *)
Lemma Task_finish_unfold (t : Task.t) (w : World) (d : dict) :
  Task.info t = VDict d ->
  Task_finish t w =
    except_FileNotFoundError
      (restore_metadata t (default VNone (dict_get "creation" d),
                           default VNone (dict_get "modification" d)))
      (Task_close t w).2.
Proof.
  intros Hinfo. rewrite Task_finish_tail. unfold finish_tail.
  rewrite Hinfo. reflexivity.
Qed.



Global Instance keeps_missing_preorder (p : string) : PreOrder (keeps_missing p).
Proof. split; [intros w H; exact H | intros w1 w2 w3 H1 H2 H; auto]. Qed.



Global Instance no_utime_preorder : PreOrder no_utime.
Proof.
  split.
  - intros w. split; [|reflexivity]. exists []. now rewrite app_nil_r.
  - intros w1 w2 w3 [(l1 & E1 & F1) T1] [(l2 & E2 & F2) T2]. split.
    + exists (l1 ++ l2)%list. rewrite E2, E1, app_assoc. split; [reflexivity|].
      now apply Forall_app.
    + intros n. now rewrite T2, T1.
Qed.





(** With both values truthy the time stamps are restored (the round trip of
    the specification), and the mode is set. *)
Example finish_restores_metadata :
  let r := on_message (download_event "end" (VInt 1)) None
             (stamped_open (VInt 1600000000) (VInt 1700000000)) in
  r.1 = Return tt
  /\ fs r.2 !! ["tmp"; "ws"; "a.bin"]
     = Some (File [] (Some (1600000000, 1700000000)) 420 true)
  /\ calls r.2 = [SysOpen "/tmp/ws/a.bin"; SysClose 3;
                  SysUtime "/tmp/ws/a.bin" 1600000000 1700000000;
                  SysChmod "/tmp/ws/a.bin" 420].
Proof. vm_compute. repeat split; reflexivity. Qed.

(** *** A file that has vanished *)







(** *** Errors other than a missing file *)

Global Instance same_registry_preorder : PreOrder same_registry.
Proof.
  split; [intros w; split; reflexivity|].
  intros w1 w2 w3 [T1 S1] [T2 S2]. split; congruence.
Qed.

Lemma same_registry_Task_finish (t : Task.t) : stable same_registry (Task_finish t).
Proof.
  apply stable_Task_finish with (P := fun _ => True);
    try apply _; try (intros; exact I); intros; split; reflexivity.
Qed.

(** C7, as the code has it. An OS error other than [FileNotFoundError]
    raised by [utime] or [chmod] is not caught: it leaves [finish] and the
    end or error handler as an exception, nothing is printed, and the task
    stays in the registry. *)
Theorem metadata_error_propagates
    (s : value) (k : key) (t : Task.t) (w : World) (d : dict) (e : oserror) :
  hash_key s = Some k ->
  tasks w !! k = Some t ->
  Task.info t = VDict d ->
  (restore_metadata t (default VNone (dict_get "creation" d),
                       default VNone (dict_get "modification" d))
     (Task_close t w).2).1 = Raise (OSError e) ->
  e <> FileNotFoundError ->
  (Task_finish t w).1 = Raise (OSError e)
  /\ (close_session s w).1 = Raise (OSError e)
  /\ stdout (close_session s w).2 = stdout w
  /\ tasks (close_session s w).2 !! k = Some t.
Proof.
  intros Hk Ht Hinfo Hraise Hne.
  assert ((Task_finish t w).1 = Raise (OSError e)) as Hfin.
  { rewrite (Task_finish_unfold t w d Hinfo). unfold except_FileNotFoundError.
    destruct (restore_metadata _ _ _) as [r w2]. simpl in Hraise. subst r.
    now destruct e. }
  split; [exact Hfin|].
  assert (tasks_getitem s w = (Return t, w)) as Hget.
  { unfold tasks_getitem, mbind, M_bind. simpl. now rewrite Hk, Ht. }
  unfold close_session. rewrite (bind_Return _ _ _ _ _ Hget).
  destruct (same_registry_Task_finish t w) as [Htasks Hout].
  destruct (Task_finish t w) as [r w2] eqn:Hrun. simpl in *. subst r.
  rewrite (bind_Raise _ _ _ _ _ Hrun). simpl.
  rewrite Hout, Htasks. auto.
Qed.

Lemma metadata_error_propagates_witness :
  let t := Task.mk (VInt 1) "/tmp/ws/../shared.log" (VDict [("permission", VInt 420)]) 3 in
  (Task_finish t shared_open).1 = Raise (OSError PermissionError)
  /\ (close_session (VInt 1) shared_open).1 = Raise (OSError PermissionError)
  /\ stdout (close_session (VInt 1) shared_open).2 = stdout shared_open
  /\ tasks (close_session (VInt 1) shared_open).2 !! KInt 1 = Some t.
Proof.
  intros t.
  apply (metadata_error_propagates (VInt 1) (KInt 1) t shared_open
           [("permission", VInt 420)] PermissionError).
  - reflexivity.
  - vm_compute; reflexivity.
  - reflexivity.
  - vm_compute; reflexivity.
  - discriminate.
Defined.

(** C7 as stated fails: [chmod] on a file of another owner raises
    [PermissionError]; the end event raises it out of [on_message], nothing
    is printed, and a run in which exceptions propagate stops with it. *)
Lemma permission_error_aborts :
  let r := on_message (download_event "end" (VInt 1)) None shared_open in
  r.1 = Raise (OSError PermissionError)
  /\ stdout r.2 = []
  /\ calls r.2 = [SysOpen "/tmp/ws/../shared.log"; SysClose 3;
                  SysChmod "/tmp/ws/../shared.log" 420]
  /\ (deliver (fun _ => true)
        [(download_start (VInt 1) (VStr "../shared.log")
            (VDict [("permission", VInt 420)]), None);
         (download_event "end" (VInt 1), None);
         (mkdir_message (VStr "later"), None)] shared_world).1
     = Raise (OSError PermissionError).
Proof. vm_compute. repeat split; reflexivity. Qed.

(** ** [run]: the life of the workspace *)

(** *** How deep a tree is *)

Lemma dir_depth_le (f : gmap fspath node) (n : fspath) (D : nat) :
  (forall k, f !! k = Some Dir -> n `prefix_of` k -> (length k - length n <= D)%nat) ->
  (dir_depth f n <= D)%nat.
Proof.
  unfold dir_depth.
  apply (map_fold_weak_ind
           (fun r (m : gmap fspath node) =>
              (forall k, m !! k = Some Dir -> n `prefix_of` k ->
                         (length k - length n <= D)%nat) -> (r <= D)%nat)).
  - intros _. lia.
  - intros k nd m r Hk IH Hall.
    assert (r <= D)%nat as Hr.
    { apply IH. intros k' Hk' Hp. apply Hall; [|exact Hp].
      rewrite lookup_insert_ne; [exact Hk' | intros ->; congruence]. }
    destruct nd; [|exact Hr].
    destruct (bool_decide (n `prefix_of` k)) eqn:Hb; [|exact Hr].
    apply bool_decide_eq_true in Hb.
    pose proof (Hall k (lookup_insert_eq _ _ _) Hb). lia.
Qed.


(** *** Creating and removing the workspace *)

Lemma removelast_prefix (l : fspath) : removelast l `prefix_of` l.
Proof.
  destruct l as [|x l] using rev_ind; [reflexivity|].
  rewrite removelast_last. now apply prefix_app_r.
Qed.

Lemma prefix_snoc_eq (n cur : fspath) (c : string) :
  n `prefix_of` (cur ++ [c])%list -> ¬ n `prefix_of` cur -> n = (cur ++ [c])%list.
Proof.
  intros [k Hk] Hno. destruct k as [|x k] using rev_ind.
  - now rewrite app_nil_r in Hk.
  - rewrite app_assoc in Hk. apply app_inj_tail in Hk as [Hcur _].
    exfalso. apply Hno. now exists k.
Qed.

(** A path that leads to [n], where nothing is, is resolved without
    looking at anything at or below [n]. *)
Lemma walk_outside (f f' : gmap fspath node) (n : fspath)
      (cs : list string) (cur m : fspath) :
  fs_lookup f n = None ->
  (forall q, ¬ n `prefix_of` q -> fs_lookup f' q = fs_lookup f q) ->
  ¬ n `prefix_of` cur ->
  walk f cur cs = inr m -> walk f' cur cs = inr m.
Proof.
  intros Hn Hsame. revert cur. induction cs as [|c cs IH]; intros cur Hcur; simpl;
    [trivial|].
  rewrite (Hsame cur Hcur).
  destruct (fs_lookup f cur) as [[|? ? ? ?]|] eqn:Hl; try discriminate.
  destruct (decide (n `prefix_of` step cur c)) as [Hp|Hp]; [|now apply IH].
  assert (step cur c = n) as ->.
  { unfold step in *. destruct (String.eqb c "."); [contradiction|].
    destruct (String.eqb c "..").
    - exfalso. apply Hcur. etransitivity; [exact Hp | apply removelast_prefix].
    - symmetry. now apply prefix_snoc_eq. }
  destruct cs as [|c' cs]; simpl; [trivial|]. rewrite Hn. discriminate.
Qed.

Lemma fs_lookup_emptied (f : gmap fspath node) (n q : fspath) :
  ¬ n `prefix_of` q ->
  fs_lookup (<[n := Dir]> (filter (fun kv : fspath * node => ¬ n `prefix_of` kv.1) f)) q
  = fs_lookup f q.
Proof.
  intros Hq. destruct q as [|x q]; [reflexivity|]. simpl.
  rewrite lookup_insert_ne by (intros ->; now apply Hq).
  destruct (f !! (x :: q)) as [nd|] eqn:Hl.
  - now apply map_lookup_filter_Some_2.
  - apply map_lookup_filter_None_2. now left.
Qed.

Lemma lookup_emptied (f : gmap fspath node) (n k : fspath) :
  n `prefix_of` k -> k <> n ->
  (<[n := Dir]> (filter (fun kv : fspath * node => ¬ n `prefix_of` kv.1) f)) !! k = None.
Proof.
  intros Hp Hne. rewrite lookup_insert_ne by congruence.
  apply map_lookup_filter_None_2. right. intros nd _ Hnot. now apply Hnot.
Qed.

Lemma os_mkdtemp_fresh (p : string) (w : World) (n : fspath) :
  resolve (fs w) p = inr n ->
  fs_lookup (fs w) n = None ->
  os_mkdtemp p w
  = (Return p,
     set_fs (<[n := Dir]>
               (filter (fun kv : fspath * node => ¬ n `prefix_of` kv.1) (fs w)))
       (set_calls (calls w ++ [SysMkdtemp p]) w)).
Proof.
  intros Hres Hn. unfold os_mkdtemp, mbind, M_bind. simpl.
  now rewrite Hres, Hn.
Qed.

(** The workspace that [mkdtemp] has created: the path leads to it, and it
    is an empty directory. *)
Lemma os_mkdtemp_workspace (p : string) (w : World) (n : fspath) :
  resolve (fs w) p = inr n ->
  fs_lookup (fs w) n = None ->
  let f1 := <[n := Dir]>
              (filter (fun kv : fspath * node => ¬ n `prefix_of` kv.1) (fs w)) in
  resolve f1 p = inr n /\ fs_lookup f1 n = Some Dir /\ n <> [].
Proof.
  intros Hres Hn f1.
  assert (n <> []) as Hne by (intros ->; discriminate).
  split; [|split; [|exact Hne]].
  - revert Hres. unfold resolve. destruct (String.eqb p ""); [discriminate|].
    apply (walk_outside (fs w) f1 n); [exact Hn | | ].
    + intros q Hq. now apply fs_lookup_emptied.
    + intros Hp. apply prefix_nil_inv in Hp. contradiction.
  - subst f1. destruct n; [contradiction|]. simpl. apply lookup_insert_eq.
Qed.

Lemma os_rmtree_removes (p : string) (w : World) (n : fspath) :
  resolve (fs w) p = inr n ->
  (dir_depth (fs w) n <= rmtree_depth (platform w))%nat ->
  os_rmtree p w
  = (Return tt,
     set_fs (filter (fun kv : fspath * node => ¬ n `prefix_of` kv.1) (fs w))
       (set_calls (calls w ++ [SysRmtree p]) w)).
Proof.
  intros Hres Hd. unfold os_rmtree, mbind, M_bind. simpl. rewrite Hres.
  apply Nat.leb_le in Hd. now rewrite Hd.
Qed.





(** *** The depth of what the messages build *)



Section Shallow.
Variables (root : string) (n : fspath) (D : nat) (pf : Platform).




End Shallow.






(** The three ways out of [run]: the archive is written, the attach fails,
    the agent signals [finish]. In each the file system is back to what it
    was before the run. *)
Example run_exit_paths :
  let ok := mkCollaborator "/tmp/ws" "App" None None None
              [(mkdir_message (VStr "Payload"), None)] (fun _ => true) None None in
  let failing := mkCollaborator "/tmp/ws" "App" None (Some (OSError PermissionError))
                   None [] (fun _ => true) None None in
  ((run ok fresh_world).1 = Return tt
   /\ fs (run ok fresh_world).2 = fs fresh_world
   /\ session (run ok fresh_world).2 = Some 1%nat)
  /\ ((run failing fresh_world).1 = Raise (OSError PermissionError)
      /\ fs (run failing fresh_world).2 = fs fresh_world)
  /\ ((run finishing_run fresh_world).1 = Raise (SystemExit 0)
      /\ fs (run finishing_run fresh_world).2 = fs fresh_world
      /\ session (run finishing_run fresh_world).2 = Some 1%nat).
Proof. vm_compute. repeat split; reflexivity. Qed.

(** *** A tree that is too deep *)













(** * Further properties of the code *)

(** ** [local_path]: what is rejected, and what stays inside *)

(** [local_path] raises [ValueError] for exactly the names that begin with a
    slash and do not begin with the text of the root. *)
Theorem local_path_rejects_exactly (w : World) (root rel : string) :
  tempdir w = Some root ->
  (local_path (VStr rel) w).1 = Raise ValueError
  <-> startswith rel "/" = true /\ startswith rel root = false.
Proof.
  intros Hroot. rewrite (local_path_spec w root rel Hroot).
  destruct (startswith rel "/") eqn:Habs.
  - rewrite (join_absolute root rel Habs).
    destruct (startswith rel root); simpl; split.
    + discriminate.
    + intros [_ H]. discriminate.
    + auto.
    + auto.
  - rewrite (join_relative_startswith root rel Habs). simpl.
    split; [discriminate | intros [H _]; discriminate].
Qed.

Lemma local_path_rejects_exactly_witness :
  (local_path (VStr "/etc/passwd") example_world).1 = Raise ValueError
  <-> startswith "/etc/passwd" "/" = true /\ startswith "/etc/passwd" "/tmp/ws" = false.
Proof.
  apply (local_path_rejects_exactly example_world "/tmp/ws" "/etc/passwd").
  reflexivity.
Defined.

(** The sandbox holds for plain names: a name that does not start with a
    slash and has no [..] among its components is accepted, and wherever it
    resolves, that place is the root's own node or below it. *)
Theorem plain_name_stays_inside (w : World) (root rel : string) (n : fspath) :
  tempdir w = Some root ->
  root <> "" ->
  startswith rel "/" = false ->
  ~ In ".." (components rel) ->
  resolve (fs w) (os_path_join root rel) = inr n ->
  local_path (VStr rel) w = (Return (os_path_join root rel), w)
  /\ exists nr, resolve (fs w) root = inr nr /\ nr `prefix_of` n.
Proof.
  intros Htmp Hroot Hrel Hno Hres.
  split; [now apply local_path_relative_accepted|].
  unfold resolve in *.
  pose proof (os_path_join_nonempty root rel Hroot Hrel) as Hne.
  apply String.eqb_neq in Hne, Hroot. rewrite Hne in Hres. rewrite Hroot.
  rewrite components_join in Hres;
    [|now apply String.eqb_neq | exact Hrel].
  destruct (walk_app _ _ _ _ _ Hres) as (m & Hm & Hrest).
  exists m. split; [exact Hm|]. now apply (walk_prefix (fs w) (components rel)).
Qed.

Lemma plain_name_stays_inside_witness :
  local_path (VStr "./Payload//App.app") payload_world
    = (Return (os_path_join "/tmp/ws" "./Payload//App.app"), payload_world)
  /\ exists nr, resolve (fs payload_world) "/tmp/ws" = inr nr
                /\ nr `prefix_of` ["tmp"; "ws"; "Payload"; "App.app"].
Proof.
  apply (plain_name_stays_inside payload_world
           "/tmp/ws" "./Payload//App.app" ["tmp"; "ws"; "Payload"; "App.app"]).
  - reflexivity.
  - discriminate.
  - reflexivity.
  - vm_compute. intros [H|[H|[H|[]]]]; discriminate.
  - vm_compute. reflexivity.
Defined.

(** ** [on_mkdir] *)

Lemma local_path_tempdir (relative : value) (w w' : World) :
  tempdir w' = tempdir w ->
  local_path relative w' = ((local_path relative w).1, w').
Proof.
  intros Htmp. unfold local_path, mbind, M_bind. simpl. rewrite Htmp.
  destruct (tempdir w); [|reflexivity].
  destruct relative; try reflexivity.
  now destruct (negb _).
Qed.

(** A [mkdir] event that succeeds adds one directory, at a place where
    nothing was, and changes nothing else in the file system or in the
    registry; the same event once more raises [FileExistsError] and creates
    nothing. *)
Theorem mkdir_creates_once (path : value) (w w1 : World) :
  on_mkdir path w = (Return tt, w1) ->
  exists p n,
    local_path path w = (Return p, w)
    /\ resolve (fs w) p = inr n
    /\ fs_lookup (fs w) n = None
    /\ fs w1 = <[n := Dir]> (fs w)
    /\ tasks w1 = tasks w /\ ofiles w1 = ofiles w
    /\ (on_mkdir path w1).1 = Raise (OSError FileExistsError)
    /\ fs (on_mkdir path w1).2 = fs w1.
Proof.
  unfold on_mkdir at 1. unfold mbind at 1, M_bind at 1.
  destruct (local_path path w) as [[p|e] wp] eqn:Hpath; [|discriminate].
  pose proof (local_path_pure _ _ _ _ Hpath) as ->.
  unfold os_mkdir, mbind, M_bind. simpl.
  destruct (resolve (fs w) p) as [e|n] eqn:Hres; simpl; [discriminate|].
  destruct (fs_lookup (fs w) n) eqn:Hn; simpl; [discriminate|].
  intros [= <-]. exists p, n. simpl.
  repeat (split; [reflexivity || assumption|]).
  set (w1 := set_fs (<[n := Dir]> (fs w)) (set_calls (calls w ++ [SysMkdir p]) w)).
  assert (local_path path w1 = (Return p, w1)) as Hpath1.
  { rewrite (local_path_tempdir path w w1 eq_refl). now rewrite Hpath. }
  assert (resolve (fs w1) p = inr n) as Hres1.
  { apply (resolve_keeps_dirs w); [|exact Hres].
    intros q Hq. subst w1. simpl.
    destruct (decide (n = q)) as [->|Hne]; [congruence|].
    now rewrite fs_lookup_insert_ne. }
  assert (fs_lookup (fs w1) n = Some Dir) as Hn1.
  { subst w1. simpl. destruct n; [discriminate|]. simpl. apply lookup_insert_eq. }
  assert (fs w1 = <[n := Dir]> (fs w)) as Hfs1 by reflexivity.
  clearbody w1.
  unfold on_mkdir. rewrite (bind_Return _ _ _ _ _ Hpath1).
  unfold os_mkdir, mbind, M_bind. simpl. rewrite Hres1, Hn1. simpl. auto.
Qed.

Lemma mkdir_creates_once_witness :
  exists p n,
    local_path (VStr "Payload") example_world = (Return p, example_world)
    /\ resolve (fs example_world) p = inr n
    /\ fs_lookup (fs example_world) n = None
    /\ fs (on_mkdir (VStr "Payload") example_world).2 = <[n := Dir]> (fs example_world)
    /\ tasks (on_mkdir (VStr "Payload") example_world).2 = tasks example_world
    /\ ofiles (on_mkdir (VStr "Payload") example_world).2 = ofiles example_world
    /\ (on_mkdir (VStr "Payload") (on_mkdir (VStr "Payload") example_world).2).1
       = Raise (OSError FileExistsError)
    /\ fs (on_mkdir (VStr "Payload") (on_mkdir (VStr "Payload") example_world).2).2
       = fs (on_mkdir (VStr "Payload") example_world).2.
Proof.
  apply (mkdir_creates_once (VStr "Payload") example_world).
  vm_compute. reflexivity.
Defined.

(** ** What message handling never does *)

Global Instance keeps_nodes_preorder : PreOrder keeps_nodes.
Proof.
  split; [intros w p _; reflexivity|].
  intros w1 w2 w3 H12 H23 p Hp.
  rewrite H23, H12; [reflexivity | exact Hp|].
  rewrite H12 by exact Hp. exact Hp.
Qed.

Lemma keeps_nodes_same_fs (w w' : World) : fs w' = fs w -> keeps_nodes w w'.
Proof. intros Hfs p _. now rewrite Hfs. Qed.

Lemma keeps_nodes_update (w : World) (n : fspath) (nd nd' : node) :
  fs w !! n = Some nd -> node_kind (Some nd') = node_kind (Some nd) ->
  keeps_nodes w (set_fs (<[n := nd']> (fs w)) w).
Proof.
  intros Hn Hkind p Hp. simpl.
  destruct (decide (n = p)) as [->|Hne].
  - now rewrite lookup_insert_eq, Hn.
  - now rewrite lookup_insert_ne.
Qed.

Lemma keeps_nodes_create (w : World) (n : fspath) (nd : node) :
  fs w !! n = None -> keeps_nodes w (set_fs (<[n := nd]> (fs w)) w).
Proof.
  intros Hn p Hp. simpl.
  destruct (decide (n = p)) as [->|Hne];
    [rewrite Hn in Hp; now contradiction Hp|].
  now rewrite lookup_insert_ne.
Qed.

(** Whatever messages arrive and whatever they raise, handling them removes
    nothing from the file system: every name that was a directory is still a
    directory, and every file is still a file of the same owner. *)
Theorem messages_never_remove (pol : exn -> bool) (msgs : list (dict * option bytes))
    (w : World) (p : fspath) :
  node_kind (fs w !! p) <> None ->
  node_kind (fs (deliver pol msgs w).2 !! p) = node_kind (fs w !! p).
Proof.
  assert (stable keeps_nodes (deliver pol msgs)) as Hstable.
  { apply stable_deliver with (K := fun _ => True) (P := fun _ => True);
      try apply _; try (intros; exact I);
      try (intros; now apply keeps_nodes_same_fs).
    - intros n c tm md ow tm' w0 Hn. now apply (keeps_nodes_update w0 n _ _ Hn).
    - intros n c tm md ow md' w0 Hn. now apply (keeps_nodes_update w0 n _ _ Hn).
    - intros n c tm md ow c' w0 Hn. now apply (keeps_nodes_update w0 n _ _ Hn).
    - intros n nd w0 Hn. apply keeps_nodes_create. now apply fs_lookup_None.
    - apply Forall_forall. intros m _ k. now left. }
  intros Hp. apply (Hstable w p Hp).
Qed.

Lemma messages_never_remove_witness :
  node_kind (fs (deliver (fun _ => false)
                   [ (mkdir_message (VStr "../ws"), None);
                     (download_start (VInt 1) (VStr "") VNone, None);
                     (download_event "end" (VInt 7), None) ] example_world).2
             !! ["tmp"; "ws"])
  = node_kind (fs example_world !! ["tmp"; "ws"]).
Proof.
  apply (messages_never_remove (fun _ => false)
           [ (mkdir_message (VStr "../ws"), None);
             (download_start (VInt 1) (VStr "") VNone, None);
             (download_event "end" (VInt 7), None) ] example_world ["tmp"; "ws"]).
  vm_compute. discriminate.
Defined.

(** ** Terminal events *)

Lemma Task_finish_closes (t : Task.t) (w : World) :
  ofiles (Task_finish t w).2 !! Task.file t = None
  /\ tasks (Task_finish t w).2 = tasks w.
Proof.
  rewrite Task_finish_tail. unfold Task_close.
  pose proof (os_close_ofiles (Task.file t) (Task.file t) w) as Hclosed.
  destruct (decide (Task.file t = Task.file t)); [|contradiction].
  destruct (os_close_fields (Task.file t) w) as (Htasks & _).
  destruct (same_ofiles_finish_tail t (os_close (Task.file t) w).2) as [Ho Ht].
  rewrite Ho, Ht. auto.
Qed.

(** An [end] or [error] event that returns has taken the key out of the
    registry, and only that key, and has closed the task's file; any further
    [data], [end] or [error] event for the key raises [KeyError] and changes
    nothing. *)
Theorem terminal_event_unregisters
    (ev : string) (s : value) (k : key) (d d' : option bytes) (w w1 : World) :
  ev = "end" \/ ev = "error" ->
  hash_key s = Some k ->
  on_message (download_event ev s) d w = (Return tt, w1) ->
  (exists t, tasks w !! k = Some t /\ ofiles w1 !! Task.file t = None)
  /\ tasks w1 = delete k (tasks w)
  /\ on_message (download_event "data" s) d' w1 = (Raise KeyError, w1)
  /\ on_message (download_event "end" s) d' w1 = (Raise KeyError, w1)
  /\ on_message (download_event "error" s) d' w1 = (Raise KeyError, w1).
Proof.
  intros Hev Hk Hrun.
  assert (close_session s w = (Return tt, w1)) as Hclose.
  { destruct Hev as [-> | ->]; exact Hrun. }
  clear Hrun. revert Hclose. unfold close_session.
  destruct (tasks w !! k) as [t|] eqn:Ht.
  2:{ assert (tasks_getitem s w = (Raise KeyError, w)) as Hget.
      { unfold tasks_getitem, mbind, M_bind. simpl. now rewrite Hk, Ht. }
      rewrite (bind_Raise _ _ _ _ _ Hget). discriminate. }
  assert (tasks_getitem s w = (Return t, w)) as Hget.
  { unfold tasks_getitem, mbind, M_bind. simpl. now rewrite Hk, Ht. }
  rewrite (bind_Return _ _ _ _ _ Hget).
  destruct (Task_finish_closes t w) as [Hclosed Htasks].
  destruct (Task_finish t w) as [[[]|e] w2] eqn:Hfin; simpl in *.
  2:{ rewrite (bind_Raise _ _ _ _ _ Hfin). discriminate. }
  rewrite (bind_Return _ _ _ _ _ Hfin).
  unfold tasks_delitem, mbind, M_bind, modify. simpl. rewrite Hk, Htasks, Ht.
  unfold Task_release. rewrite os_close_closed by exact Hclosed.
  intros [= <-]. simpl.
  split; [exists t; auto|]. rewrite Htasks. split; [reflexivity|].
  apply (unknown_key_raises _ s k d' Hk). simpl. apply lookup_delete_eq.
Qed.

Lemma terminal_event_unregisters_witness :
  let w1 := (on_message (download_event "error" (VInt 1)) None one_open).2 in
  (exists t, tasks one_open !! KInt 1 = Some t /\ ofiles w1 !! Task.file t = None)
  /\ tasks w1 = delete (KInt 1) (tasks one_open)
  /\ on_message (download_event "data" (VInt 1)) (Some []) w1 = (Raise KeyError, w1)
  /\ on_message (download_event "end" (VInt 1)) (Some []) w1 = (Raise KeyError, w1)
  /\ on_message (download_event "error" (VInt 1)) (Some []) w1 = (Raise KeyError, w1).
Proof.
  apply (terminal_event_unregisters "error" (VInt 1) (KInt 1) None (Some []) one_open).
  - now right.
  - reflexivity.
  - vm_compute. reflexivity.
Defined.

(** ** Start events *)

(** A start event that returns, for a key that is not in the registry, has
    created or emptied the file at the path: whatever it held before, it
    reads as empty now. The task is in the registry under the key, with a
    new file object on that file (offset 0, nothing in the buffer), and the
    other keys and the other open files are as before. *)
Theorem start_truncates (s relative info : value) (k : key) (w w1 : World) :
  hash_key s = Some k ->
  tasks w !! k = None ->
  on_message (download_start s relative info) None w = (Return tt, w1) ->
  exists p,
    (local_path relative w).1 = Return p
    /\ resolve (fs w1) p = inr (target p)
    /\ read_file w1 p = Some []
    /\ tasks w1 = <[k := Task.mk s p info (new_fd w)]> (tasks w)
    /\ ofiles w1 = <[new_fd w := mkOfile (target p) 0 []]> (ofiles w).
Proof.
  rewrite on_message_start. intros Hk Hnew Hstart.
  destruct (on_download_start_inv _ _ _ _ _ Hstart)
    as (k0 & p & fd & w0 & Hk0 & Hpath & Hopen & Hset).
  assert (k0 = k) as -> by congruence.
  destruct (announced_fields relative w) as (Hat & Hao & _ & _ & _ & Hanf).
  destruct (os_open_wb_file _ _ _ _ Hopen) as (Hres1 & tm & md & ow & Hfile).
  destruct (os_open_wb_inv _ _ _ _ Hopen)
    as (n & tm' & md' & ow' & Hres & _ & _ & Hfd & Hw0).
  rewrite (resolve_target _ _ _ Hres) in Hw0. rewrite Hanf in Hfd. subst fd.
  assert (tasks w0 = tasks w) as Htasks0 by (rewrite Hw0; exact Hat).
  rewrite (tasks_setitem_hashable s k _ w0 Hk), Htasks0, Hnew in Hset.
  injection Hset as Hw1. subst w1. exists p. simpl.
  split; [rewrite <- local_path_announced; now rewrite Hpath|].
  split; [exact Hres1|].
  split; [unfold read_file; simpl fs; now rewrite Hres1, Hfile|].
  split; [reflexivity|]. rewrite Hw0. simpl. now rewrite Hao.
Qed.

Lemma start_truncates_witness :
  read_file shared_world "/tmp/ws/../shared.log" = Some [Byte.x41]
  /\ exists p,
       (local_path (VStr "../shared.log") shared_world).1 = Return p
       /\ resolve (fs shared_open) p = inr (target p)
       /\ read_file shared_open p = Some []
       /\ tasks shared_open
          = <[KInt 1 := Task.mk (VInt 1) p (VDict [("permission", VInt 420)])
                          (new_fd shared_world)]> (tasks shared_world)
       /\ ofiles shared_open
          = <[new_fd shared_world := mkOfile (target p) 0 []]> (ofiles shared_world).
Proof.
  split; [vm_compute; reflexivity|].
  apply (start_truncates (VInt 1) (VStr "../shared.log")
           (VDict [("permission", VInt 420)]) (KInt 1) shared_world shared_open).
  - reflexivity.
  - vm_compute. reflexivity.
  - vm_compute. reflexivity.
Defined.

(** A file of the process that is not writable cannot be started on: the
    start event raises [PermissionError], and nothing is registered. *)
Example start_on_read_only_file :
  let w := set_fs (<[ ["tmp"; "ws"; "a.bin"] := File [Byte.x41] None 292 true ]>
                     (fs example_world)) example_world in
  let r := on_message start_a_bin None w in
  r.1 = Raise (OSError PermissionError)
  /\ tasks r.2 = ∅
  /\ read_file r.2 "/tmp/ws/a.bin" = Some [Byte.x41].
Proof. vm_compute. repeat split; reflexivity. Qed.

(** A start event whose session is a JSON array or object (unhashable in
    Python) raises [TypeError] only after the file has been opened: the file
    is created or emptied, but no task is registered, and the file object,
    which nothing refers to, is closed again; the other open files are as
    before. *)
Theorem unhashable_start_truncates
    (s relative info : value) (w w1 : World) (p : string) (fd : nat) :
  hash_key s = None ->
  local_path relative (announced relative w) = (Return p, announced relative w) ->
  os_open_wb p (announced relative w) = (Return fd, w1) ->
  let r := on_message (download_start s relative info) None w in
  r.1 = Raise TypeError
  /\ tasks r.2 = tasks w
  /\ read_file r.2 p = Some []
  /\ ofiles r.2 !! fd = None
  /\ (forall fd', fd' <> fd -> ofiles r.2 !! fd' = ofiles w !! fd').
Proof.
  intros Hk Hpath Hopen r. subst r. rewrite on_message_start.
  rewrite (on_download_start_opened w w1 s relative info p fd Hpath Hopen).
  destruct (announced_fields relative w) as (Hat & Hao & _ & _ & _ & _).
  destruct (os_open_wb_file _ _ _ _ Hopen) as (Hres1 & tm & md & ow & Hfile).
  destruct (os_open_wb_inv _ _ _ _ Hopen)
    as (n & tm' & md' & ow' & Hres & _ & _ & Hfd & Hw1).
  assert (ofiles w1 !! fd = Some (mkOfile n 0 [])) as Hofd
    by (rewrite Hw1; simpl; apply lookup_insert_eq).
  assert (os_flush fd w1 = (Return tt, w1)) as Hflush.
  { unfold os_flush, mbind, M_bind. simpl. now rewrite Hofd. }
  unfold tasks_setitem. rewrite Hk. unfold Task_release, Task.file.
  unfold mbind, M_bind. rewrite (os_close_open fd w1 _ Hofd), Hflush. simpl.
  split; [reflexivity|].
  split; [rewrite Hw1; exact Hat|].
  split; [unfold read_file; simpl; now rewrite Hres1, Hfile|].
  split; [apply lookup_delete_eq|].
  intros fd' Hne. rewrite lookup_delete_ne by congruence.
  rewrite Hw1. simpl. rewrite lookup_insert_ne by congruence. now rewrite Hao.
Qed.

Lemma unhashable_start_truncates_witness :
  let r := on_message (download_start (VList []) (VStr "a.bin") VNone) None one_open in
  r.1 = Raise TypeError
  /\ tasks r.2 = tasks one_open
  /\ read_file r.2 "/tmp/ws/a.bin" = Some []
  /\ ofiles r.2 !! 4%nat = None
  /\ (forall fd', fd' <> 4%nat -> ofiles r.2 !! fd' = ofiles one_open !! fd').
Proof.
  apply (unhashable_start_truncates (VList []) (VStr "a.bin") VNone one_open
           (os_open_wb "/tmp/ws/a.bin" (announced (VStr "a.bin") one_open)).2
           "/tmp/ws/a.bin" 4).
  - reflexivity.
  - vm_compute. reflexivity.
  - vm_compute. reflexivity.
Defined.

(** ** Two transfers at once *)

Lemma settled_same root n oc (w w' : World) :
  tempdir w' = tempdir w -> ofiles w' = ofiles w -> fs w' = fs w ->
  settled root n oc w -> settled root n oc w'.
Proof. unfold settled. intros -> -> ->. trivial. Qed.

(** What the invariant of a file that is not open tolerates. *)
Section Settled.
Variables (root : string) (n : fspath) (oc : option bytes).
Let I := settled root n oc.

Lemma settled_tempdir w : I w -> tempdir w = Some root.
Proof. now intros (H & _). Qed.

Lemma settled_calls x w : I w -> I (set_calls x w).
Proof. intros H. eapply settled_same; [..|exact H]; reflexivity. Qed.

Lemma settled_stdout x w : I w -> I (set_stdout x w).
Proof. intros H. eapply settled_same; [..|exact H]; reflexivity. Qed.

Lemma settled_session x w : I w -> I (set_session x w).
Proof. intros H. eapply settled_same; [..|exact H]; reflexivity. Qed.

Lemma settled_task_fd w (k : key) (t : Task.t) :
  I w -> True -> tasks w !! k = Some t -> True.
Proof. trivial. Qed.

Lemma settled_new_fd w : I w -> True.
Proof. trivial. Qed.

Lemma settled_buffer w fd o pos buf :
  I w -> True -> ofiles w !! fd = Some o ->
  I (set_ofiles (<[fd := mkOfile (of_node o) pos buf]> (ofiles w)) w).
Proof.
  intros (Htmp & Hno & Hc) _ Ho. split; [exact Htmp|]. split; [|exact Hc].
  simpl. intros fd0 o0 Ho0. destruct (decide (fd0 = fd)) as [->|Hne].
  - rewrite lookup_insert_eq in Ho0. injection Ho0 as <-. exact (Hno fd o Ho).
  - rewrite lookup_insert_ne in Ho0 by congruence. exact (Hno fd0 o0 Ho0).
Qed.

Lemma settled_write w fd o c0 tm md ow c' :
  I w -> True -> ofiles w !! fd = Some o ->
  fs w !! of_node o = Some (File c0 tm md ow) ->
  I (set_fs (<[of_node o := File c' tm md ow]> (fs w)) w).
Proof.
  intros (Htmp & Hno & Hc) _ Ho Hnode. split; [exact Htmp|]. split; [exact Hno|].
  intros c Hoc. simpl. rewrite fs_lookup_insert_ne; [now apply Hc|].
  exact (Hno fd o Ho).
Qed.

Lemma settled_close w fd : I w -> True -> I (set_ofiles (delete fd (ofiles w)) w).
Proof.
  intros (Htmp & Hno & Hc) _. split; [exact Htmp|]. split; [|exact Hc].
  simpl. intros fd0 o0 Ho0. apply lookup_delete_Some in Ho0 as [_ Ho0].
  exact (Hno fd0 o0 Ho0).
Qed.

Lemma settled_open w p m tm md ow :
  I w -> target p <> n -> resolve (fs w) p = inr m -> m <> [] ->
  fs w !! m <> Some Dir ->
  I (set_next_fd (S (new_fd w))
       (set_ofiles (<[new_fd w := mkOfile m 0 []]> (ofiles w))
          (set_fs (<[m := File [] tm md ow]> (fs w)) w))).
Proof.
  intros (Htmp & Hno & Hc) Hp Hres Hm Hdir.
  assert (m <> n) as Hmn by (rewrite (resolve_target _ _ _ Hres); exact Hp).
  split; [exact Htmp|]. split.
  - simpl. intros fd0 o0 Ho0. destruct (decide (fd0 = new_fd w)) as [->|Hne].
    + rewrite lookup_insert_eq in Ho0. now injection Ho0 as <-.
    + rewrite lookup_insert_ne in Ho0 by congruence. exact (Hno fd0 o0 Ho0).
  - intros c Hoc. simpl. rewrite fs_lookup_insert_ne; [now apply Hc | exact Hmn].
Qed.

Lemma settled_meta w m c0 tm md ow tm' md' :
  I w -> fs w !! m = Some (File c0 tm md ow) ->
  I (set_fs (<[m := File c0 tm' md' ow]> (fs w)) w).
Proof.
  intros (Htmp & Hno & Hc) Hm. split; [exact Htmp|]. split; [exact Hno|].
  intros c Hoc. simpl. destruct (Hc c Hoc) as (tm1 & md1 & ow1 & Hn).
  destruct (decide (m = n)) as [->|Hmn].
  - rewrite (fs_lookup_File _ _ _ _ _ _ Hn) in Hm. injection Hm as <- <- <- <-.
    exists tm', md', ow1. destruct n; [discriminate|]. simpl. apply lookup_insert_eq.
  - exists tm1, md1, ow1. now rewrite fs_lookup_insert_ne.
Qed.

Lemma settled_mkdir w (p : string) m :
  I w -> True -> resolve (fs w) p = inr m -> fs_lookup (fs w) m = None ->
  I (set_fs (<[m := Dir]> (fs w)) w).
Proof.
  intros (Htmp & Hno & Hc) _ Hres Hm. split; [exact Htmp|]. split; [exact Hno|].
  intros c Hoc. simpl. destruct (Hc c Hoc) as (tm1 & md1 & ow1 & Hn).
  exists tm1, md1, ow1. rewrite fs_lookup_insert_ne; [exact Hn | congruence].
Qed.

Lemma settled_insert w (k : key) (t : Task.t) :
  I w -> True -> True -> I (set_tasks (<[k := t]> (tasks w)) w).
Proof. intros H _ _. eapply settled_same; [..|exact H]; reflexivity. Qed.

Lemma settled_delete w (k : key) :
  I w -> True -> I (set_tasks (delete k (tasks w)) w).
Proof. intros H _. eapply settled_same; [..|exact H]; reflexivity. Qed.

(** A message that starts no transfer on the file leaves it as it is:
    closed, and with the contents it has. *)
Lemma settled_message (msg : dict) (data : option bytes) (w : World) :
  allowed (fun _ => True) (fun p => target p <> n) (fun _ => True) root msg ->
  I w -> I (on_message msg data w).2.
Proof.
  intros Hmsg Hw.
  exact (proj1 (holds_on_message I root
                  (fun _ => True) (fun _ => True)
                  (fun p => target p <> n) (fun _ => True)
                  settled_tempdir settled_calls settled_stdout settled_session
                  settled_task_fd settled_new_fd settled_buffer
                  settled_write settled_close settled_open
                  settled_meta settled_mkdir settled_insert settled_delete
                  msg data Hmsg w Hw)).
Qed.

(** The rest of an end event, once the file is closed. *)
Lemma settled_end_tail (t : Task.t) (s : value) (w : World) :
  I w -> I ((finish_tail t;; tasks_delitem s) w).2.
Proof.
  intros Hw.
  refine (proj1 (holds_seq I _ _ (fun _ => True) (fun _ => True) _ _ w Hw)).
  - exact (holds_finish_tail I settled_calls settled_meta t).
  - exact (holds_tasks_delitem I (fun _ => True) (fun _ => True)
             settled_calls settled_task_fd settled_buffer settled_write
             settled_close settled_delete s (fun _ _ => Logic.I)).
Qed.
End Settled.

Lemma settled_read root n c (p : string) (w : World) :
  settled root n (Some c) w -> resolve (fs w) p = inr n -> read_file w p = Some c.
Proof.
  intros (_ & _ & Hc) Hres. destruct (Hc c eq_refl) as (tm & md & ow & Hn).
  unfold read_file. now rewrite Hres, Hn.
Qed.

Lemma unopened_settled root n (w : World) :
  tempdir w = Some root -> unopened w n = true -> settled root n None w.
Proof.
  intros Htmp Hun. split; [exact Htmp|]. split; [|discriminate].
  exact (unopened_spec w n Hun).
Qed.

Lemma settled_unopened root n oc (w : World) :
  settled root n oc w -> unopened w n = true.
Proof.
  intros (_ & Hno & _). unfold unopened. apply forallb_forall.
  intros [fd o] Hin. apply list_elem_of_In, elem_of_map_to_list in Hin.
  apply negb_true_iff, bool_decide_eq_false. exact (Hno fd o Hin).
Qed.

(** The end event of an open transfer leaves the file closed, with all
    that was written in it. *)
Lemma receiving_settles root k t n c buf (s : value) (w : World) :
  hash_key s = Some k ->
  receiving root k t n c buf w ->
  settled root n (Some (c ++ buf)%list) (close_session s w).2.
Proof.
  intros Hk H. pose proof H as H'. recv H'.
  assert (tasks_getitem s w = (Return t, w)) as Hget.
  { unfold tasks_getitem, mbind, M_bind. simpl. now rewrite Hk, Ht. }
  assert (close_session s w
          = (finish_tail t;; tasks_delitem s) (Task_close t w).2) as ->.
  { unfold close_session. rewrite (bind_Return _ _ _ _ _ Hget).
    unfold mbind, M_bind. now rewrite Task_finish_tail. }
  apply settled_end_tail. unfold Task_close.
  rewrite (os_close_open _ _ _ Hfd).
  destruct (receiving_flush _ _ _ _ _ _ _ H) as (_ & _ & H1).
  set (w1 := (os_flush (Task.file t) w).2) in *. clearbody w1.
  destruct H1 as (Htmp1 & _ & _ & Hone1 & _ & Hn1). simpl.
  split; [exact Htmp1|]. split.
  - simpl. intros fd o Ho Hnode. apply lookup_delete_Some in Ho as [Hne Ho].
    apply Hne. symmetry. exact (Hone1 fd o Ho Hnode).
  - intros c0 [= <-]. exact Hn1.
Qed.

(** What [local_path] returns is the name joined to the workspace, in every
    state with that workspace. *)
Lemma local_path_inv (root p : string) (relative : value) (w : World) :
  tempdir w = Some root ->
  (local_path relative w).1 = Return p ->
  exists rel, relative = VStr rel /\ p = os_path_join root rel
              /\ forall w', tempdir w' = Some root ->
                            (local_path relative w').1 = Return p.
Proof.
  intros Htmp Hp.
  destruct relative as [| | |rel| |];
    try (unfold local_path, mbind, M_bind in Hp; simpl in Hp;
         rewrite Htmp in Hp; discriminate).
  rewrite (local_path_spec w root rel Htmp) in Hp. simpl in Hp.
  destruct (startswith _ root) eqn:Hstart; [|discriminate].
  injection Hp as <-. exists rel. split; [reflexivity|]. split; [reflexivity|].
  intros w' Htmp'. rewrite (local_path_spec w' root rel Htmp'). now rewrite Hstart.
Qed.

Lemma foreign_download_event root k n (ev : string) (s : value) :
  hash_key s <> Some k ->
  foreign root k n (download_event ev s) = true.
Proof.
  intros Hk. unfold foreign, download_event, send. simpl.
  rewrite bool_decide_eq_false_2 by exact Hk. simpl. apply orb_true_r.
Qed.

Lemma foreign_download_start root k n (s info : value) (rel : string) :
  hash_key s <> Some k ->
  target (os_path_join root rel) <> n ->
  foreign root k n (download_start s (VStr rel) info) = true.
Proof.
  intros Hk Hn. unfold foreign, download_start, send. simpl.
  rewrite bool_decide_eq_false_2 by exact Hk.
  rewrite bool_decide_eq_false_2 by exact Hn. reflexivity.
Qed.

Lemma allowed_download_event okopen root (ev : string) (s : value) :
  allowed (fun _ => True) okopen (fun _ => True) root (download_event ev s).
Proof.
  intros payload Hpay. unfold download_event, send in Hpay. simpl in Hpay.
  injection Hpay as <-. split; [|trivial].
  intros _ s0 _. split; [trivial|]. simpl. discriminate.
Qed.

Lemma allowed_download_start (okopen : string -> Prop) root (s info : value) (rel : string) :
  okopen (os_path_join root rel) ->
  allowed (fun _ => True) okopen (fun _ => True) root (download_start s (VStr rel) info).
Proof.
  intros Hopen payload Hpay. unfold download_start, send in Hpay. simpl in Hpay.
  injection Hpay as <-. split; [|trivial].
  intros _ s0 _. split; [trivial|]. simpl. intros _ rel0 [= <-]. exact Hopen.
Qed.

(** Data events of two open transfers, in any order: each is accepted and
    adds to what its own transfer has written. *)
Lemma interleaved_receiving
    (pol : exn -> bool) root (s1 s2 : value) (k1 k2 : key) (t1 t2 : Task.t)
    (n1 n2 : fspath) (es : list (bool * bytes)) :
  hash_key s1 = Some k1 -> hash_key s2 = Some k2 -> k1 <> k2 ->
  forall c1 b1 c2 b2 w,
    receiving root k1 t1 n1 c1 b1 w ->
    receiving root k2 t2 n2 c2 b2 w ->
    exists w' c1' b1' c2' b2',
      deliver pol (interleaved s1 s2 es) w = (Return tt, w')
      /\ receiving root k1 t1 n1 c1' b1' w'
      /\ receiving root k2 t2 n2 c2' b2' w'
      /\ (c1' ++ b1' = (c1 ++ b1) ++ payloads_of true es)%list
      /\ (c2' ++ b2' = (c2 ++ b2) ++ payloads_of false es)%list.
Proof.
  intros Hk1 Hk2 Hne.
  assert (hash_key s1 <> Some k2) as Hf1 by congruence.
  assert (hash_key s2 <> Some k1) as Hf2 by congruence.
  induction es as [|[[|] d] es IH]; intros c1 b1 c2 b2 w Hr1 Hr2.
  - exists w, c1, b1, c2, b2. unfold payloads_of. simpl.
    rewrite !app_nil_r. auto.
  - destruct (receiving_own root k1 t1 n1 c1 b1 s1 d w Hk1 Hr1)
      as (c1' & b1' & w1 & Hstep & Hr1' & Hacc).
    pose proof (receiving_foreign root k2 t2 n2 c2 b2
                  (download_event "data" s1) (Some d) w
                  (foreign_download_event root k2 n2 "data" s1 Hf1) Hr2) as Hr2'.
    rewrite on_message_data, Hstep in Hr2'. simpl in Hr2'.
    destruct (IH c1' b1' c2 b2 w1 Hr1' Hr2')
      as (w' & c1'' & b1'' & c2'' & b2'' & Hrun & H1 & H2 & E1 & E2).
    exists w', c1'', b1'', c2'', b2''. simpl.
    rewrite on_message_data, Hstep. split; [exact Hrun|].
    split; [exact H1|]. split; [exact H2|]. unfold payloads_of in *. simpl.
    rewrite E1, E2, Hacc. now rewrite app_assoc.
  - destruct (receiving_own root k2 t2 n2 c2 b2 s2 d w Hk2 Hr2)
      as (c2' & b2' & w1 & Hstep & Hr2' & Hacc).
    pose proof (receiving_foreign root k1 t1 n1 c1 b1
                  (download_event "data" s2) (Some d) w
                  (foreign_download_event root k1 n1 "data" s2 Hf2) Hr1) as Hr1'.
    rewrite on_message_data, Hstep in Hr1'. simpl in Hr1'.
    destruct (IH c1 b1 c2' b2' w1 Hr1' Hr2')
      as (w' & c1'' & b1'' & c2'' & b2'' & Hrun & H1 & H2 & E1 & E2).
    exists w', c1'', b1'', c2'', b2''. simpl.
    rewrite on_message_data, Hstep. split; [exact Hrun|].
    split; [exact H1|]. split; [exact H2|]. unfold payloads_of in *. simpl.
    rewrite E1, E2, Hacc. now rewrite app_assoc.
Qed.

(** Two transfers with different keys, started one after the other on
    different files, neither of which was open: however their data events
    interleave, all of them are accepted, and after the two end events each
    file holds the payloads of its own key, in the order received. *)
Theorem interleaved_transfers_independent
    (pol : exn -> bool) (s1 s2 rel1 rel2 info1 info2 : value)
    (w0 wa w : World) (root p1 p2 : string) (k1 k2 : key)
    (es : list (bool * bytes)) :
  tempdir w0 = Some root ->
  hash_key s1 = Some k1 -> hash_key s2 = Some k2 -> k1 <> k2 ->
  (local_path rel1 w0).1 = Return p1 ->
  (local_path rel2 w0).1 = Return p2 ->
  target p1 <> target p2 ->
  unopened w0 (target p1) = true ->
  unopened w0 (target p2) = true ->
  on_message (download_start s1 rel1 info1) None w0 = (Return tt, wa) ->
  on_message (download_start s2 rel2 info2) None wa = (Return tt, w) ->
  exists w',
    deliver pol (interleaved s1 s2 es) w = (Return tt, w')
    /\ let w'' := (on_message (download_event "end" s2) None
                     (on_message (download_event "end" s1) None w').2).2 in
       read_file w'' p1 = Some (payloads_of true es)
       /\ read_file w'' p2 = Some (payloads_of false es).
Proof.
  intros Htmp Hk1 Hk2 Hne Hp1 Hp2 Hnn Hun1 Hun2 Hs1 Hs2.
  assert (hash_key s1 <> Some k2) as Hf1 by congruence.
  assert (hash_key s2 <> Some k1) as Hf2 by congruence.
  destruct (local_path_inv root p1 rel1 w0 Htmp Hp1) as (r1 & -> & Ep1 & _).
  destruct (local_path_inv root p2 rel2 w0 Htmp Hp2) as (r2 & -> & Ep2 & Hp2').
  (* the first start *)
  pose proof Hs1 as Hs1'. rewrite on_message_start in Hs1'.
  destruct (start_receiving root p1 k1 s1 (VStr r1) info1 w0 wa Htmp Hk1 Hp1 Hun1 Hs1')
    as (t1 & Hr1 & Hres1).
  assert (settled root (target p2) None wa) as Hset2.
  { pose proof (settled_message root (target p2) None
                  (download_start s1 (VStr r1) info1) None w0) as Hkeep.
    rewrite Hs1 in Hkeep. apply Hkeep.
    - apply allowed_download_start. rewrite <- Ep1. exact Hnn.
    - now apply unopened_settled. }
  (* the second start *)
  assert (tempdir wa = Some root) as Htmpa by (now destruct Hr1).
  pose proof Hs2 as Hs2'. rewrite on_message_start in Hs2'.
  destruct (start_receiving root p2 k2 s2 (VStr r2) info2 wa w Htmpa Hk2
              (Hp2' wa Htmpa) (settled_unopened _ _ _ _ Hset2) Hs2')
    as (t2 & Hr2 & Hres2).
  assert (receiving root k1 t1 (target p1) [] [] w) as Hr1w.
  { pose proof (receiving_foreign root k1 t1 (target p1) [] []
                  (download_start s2 (VStr r2) info2) None wa) as Hkeep.
    rewrite Hs2 in Hkeep. apply Hkeep; [|exact Hr1].
    apply foreign_download_start; [exact Hf2|]. rewrite <- Ep2. congruence. }
  assert (resolve (fs w) p1 = inr (target p1)) as Hres1w.
  { apply (resolve_keeps_dirs wa); [|exact Hres1].
    pose proof (keeps_dirs_on_message (download_start s2 (VStr r2) info2) None wa) as Hd.
    now rewrite Hs2 in Hd. }
  (* the data events *)
  destruct (interleaved_receiving pol root s1 s2 k1 k2 t1 t2 (target p1) (target p2) es
              Hk1 Hk2 Hne [] [] [] [] w Hr1w Hr2)
    as (w' & c1 & b1 & c2 & b2 & Hrun & H1 & H2 & E1 & E2).
  simpl in E1, E2.
  assert (keeps_dirs w w') as Hdirs.
  { pose proof (keeps_dirs_deliver pol (interleaved s1 s2 es) w) as Hd.
    now rewrite Hrun in Hd. }
  exists w'. split; [exact Hrun|]. cbv zeta.
  (* the first end *)
  set (m1 := download_event "end" s1). set (m2 := download_event "end" s2).
  pose proof (receiving_settles root k1 t1 (target p1) c1 b1 s1 w' Hk1 H1) as Hset1.
  rewrite <- (on_message_end s1 None w') in Hset1. fold m1 in Hset1.
  pose proof (receiving_foreign root k2 t2 (target p2) c2 b2 m1 None w'
                (foreign_download_event root k2 (target p2) "end" s1 Hf1) H2)
    as H2'.
  pose proof (keeps_dirs_on_message m1 None w') as Hd1.
  set (w1 := (on_message m1 None w').2) in *. clearbody w1.
  (* the second end *)
  pose proof (settled_message root (target p1) (Some (c1 ++ b1)%list) m2 None w1
                (allowed_download_event _ root "end" s2) Hset1) as Hset1'.
  pose proof (keeps_dirs_on_message m2 None w1) as Hd2.
  assert (resolve (fs w1) p2 = inr (target p2)) as Hres2'.
  { apply (resolve_keeps_dirs w'); [exact Hd1|].
    now apply (resolve_keeps_dirs w). }
  pose proof (receiving_end root k2 t2 (target p2) c2 b2 s2 p2 w1 Hk2 H2' Hres2')
    as Hread2.
  rewrite <- (on_message_end s2 None w1) in Hread2. fold m2 in Hread2.
  split.
  - rewrite <- E1. apply (settled_read root (target p1)); [exact Hset1'|].
    apply (resolve_keeps_dirs w1); [exact Hd2|].
    apply (resolve_keeps_dirs w'); [exact Hd1|].
    now apply (resolve_keeps_dirs w).
  - rewrite <- E2. exact Hread2.
Qed.

Lemma interleaved_transfers_independent_witness :
  let perm := VDict [("permission", VInt 420)] in
  let wa := (on_message (download_start (VInt 1) (VStr "a.bin") perm) None example_world).2 in
  let w := (on_message (download_start (VStr "two") (VStr "b.bin") perm) None wa).2 in
  let es := [(true, [Byte.x61]); (false, [Byte.x62]); (false, []); (true, [Byte.x63])] in
  exists w',
    deliver (fun _ => true) (interleaved (VInt 1) (VStr "two") es) w = (Return tt, w')
    /\ let w'' := (on_message (download_event "end" (VStr "two")) None
                     (on_message (download_event "end" (VInt 1)) None w').2).2 in
       read_file w'' "/tmp/ws/a.bin" = Some (payloads_of true es)
       /\ read_file w'' "/tmp/ws/b.bin" = Some (payloads_of false es).
Proof.
  intros perm wa w es.
  apply (interleaved_transfers_independent (fun _ => true)
           (VInt 1) (VStr "two") (VStr "a.bin") (VStr "b.bin") perm perm
           example_world wa w "/tmp/ws" "/tmp/ws/a.bin" "/tmp/ws/b.bin"
           (KInt 1) (KStr "two") es);
    try discriminate; vm_compute; try reflexivity; discriminate.
Defined.

(** ** Messages that are not recognised *)

(** A message that is not a [send], or whose payload (an empty one when the
    message has none) names a subject other than [download], [finish] and
    [mkdir], is printed and nothing else: [on_message] returns, and the
    state differs from the one before by the printed lines only. *)
Theorem unrecognized_message_only_prints (msg : dict) (data : option bytes) (w : World) :
  eq_str (default VNone (dict_get "type" msg)) "send" = false
  \/ (exists payload,
         default (VDict []) (dict_get "payload" msg) = VDict payload
         /\ let subject := default VNone (dict_get "subject" payload) in
            eq_str subject "download" = false
            /\ eq_str subject "finish" = false
            /\ eq_str subject "mkdir" = false) ->
  exists lines,
    lines <> []
    /\ on_message msg data w = (Return tt, set_stdout (stdout w ++ lines) w).
Proof.
  intros [Htype | (payload & Hpay & H1 & H2 & H3)].
  - exists [[PStr "unknown message:"; PVal (VDict msg)]].
    split; [discriminate | now apply unknown_type_logged].
  - destruct (eq_str (default VNone (dict_get "type" msg)) "send") eqn:Htype.
    + exists [[PStr "unknown message"]; [PVal (VDict msg)]].
      split; [discriminate|].
      unfold on_message. rewrite Htype, Hpay. simpl. rewrite H1, H2, H3.
      unfold mbind, M_bind, print, modify. simpl.
      now rewrite <- app_assoc.
    + exists [[PStr "unknown message:"; PVal (VDict msg)]].
      split; [discriminate | now apply unknown_type_logged].
Qed.

Lemma unrecognized_message_only_prints_witness :
  exists lines,
    lines <> []
    /\ on_message [("type", VStr "send")] (Some [Byte.x00]) one_open
       = (Return tt, set_stdout (stdout one_open ++ lines) one_open).
Proof.
  apply (unrecognized_message_only_prints [("type", VStr "send")] (Some [Byte.x00]) one_open).
  right. exists []. repeat split; reflexivity.
Defined.

(** ** [run] and the session *)

(** When loading the script fails after the attach, [run] raises that
    error; the workspace is removed, but the session stays attached:
    [detach] is reached only when the body of the [with] block returns. *)
Theorem failed_load_leaves_session_attached
    (c : Collaborator) (w : World) (n : fspath) (e : exn) :
  resolve (fs w) (workspace c) = inr n ->
  fs_lookup (fs w) n = None ->
  read_agent c = None ->
  attach c = None ->
  load c = Some e ->
  (run c w).1 = Raise e
  /\ session (run c w).2 = Some 0%nat
  /\ fs (run c w).2 !! n = None.
Proof.
  intros Hres Hn Hagent Hattach Hload.
  destruct (os_mkdtemp_workspace _ _ _ Hres Hn) as (Hres1 & Hdir1 & Hne).
  set (f1 := <[n := Dir]>
               (filter (fun kv : fspath * node => ¬ n `prefix_of` kv.1) (fs w))) in *.
  assert (dir_depth f1 n <= 0)%nat as Hdepth.
  { apply dir_depth_le. intros k Hk Hp.
    destruct (decide (k = n)) as [->|Hkn]; [lia|].
    subst f1. now rewrite (lookup_emptied _ _ _ Hp Hkn) in Hk. }
  unfold run.
  rewrite (bind_Return _ _ _ _ _ (os_mkdtemp_fresh _ _ _ Hres Hn)). fold f1.
  unfold inject. rewrite Hagent, Hattach, Hload.
  unfold mbind, M_bind, finally, external, print, modify, raise. simpl.
  rewrite (os_rmtree_removes (workspace c) _ n);
    [|simpl; exact Hres1 | simpl; lia].
  simpl. repeat split.
  apply map_lookup_filter_None. right. intros nd _ Hnot. now apply Hnot.
Qed.

Lemma failed_load_leaves_session_attached_witness :
  let c := mkCollaborator "/tmp/ws" "App" None None (Some (OSError PermissionError))
             [] (fun _ => true) None None in
  (run c fresh_world).1 = Raise (OSError PermissionError)
  /\ session (run c fresh_world).2 = Some 0%nat
  /\ fs (run c fresh_world).2 !! ["tmp"; "ws"] = None.
Proof.
  intros c.
  apply (failed_load_leaves_session_attached c fresh_world ["tmp"; "ws"]
           (OSError PermissionError)); vm_compute; reflexivity.
Defined.

(** ** [dump]: the device and the application *)

Lemma find_none_Forall {A : Type} (f : A -> bool) (l : list A) :
  Forall (fun x => f x = false) l -> List.find f l = None.
Proof.
  induction 1 as [|x l Hx _ IH]; [reflexivity|]. simpl. now rewrite Hx.
Qed.

Lemma find_first_match {A : Type} (f : A -> bool) (pre post : list A) (x : A) :
  Forall (fun y => f y = false) pre -> f x = true ->
  List.find f (pre ++ x :: post)%list = Some x.
Proof.
  induction 1 as [|y pre Hy _ IH]; intros Hx; simpl.
  - now rewrite Hx.
  - rewrite Hy. now apply IH.
Qed.

Lemma print_installed_lines (apps : list Application.t) (w : World) :
  print_installed apps w
  = (Return tt, set_stdout (stdout w ++ List.map installed_line apps) w).
Proof.
  revert w. induction apps as [|app apps IH]; intros w.
  - simpl. rewrite app_nil_r. now destruct w.
  - simpl. unfold mbind, M_bind, print, modify. rewrite IH. simpl.
    unfold installed_line at 2. now rewrite <- app_assoc.
Qed.

(** A device-id prefix that no enumerated device starts with: [dump] prints
    the [not found] line and exits with status [-1]; nothing is attached and
    nothing else changes. *)
Theorem dump_unknown_device
    (frida : Frida) (app_name_or_id device_id : string) (verbose : option string)
    (devs : list Device.t) (w : World) :
  enumerate_devices frida = inr devs ->
  Forall (fun dev => startswith (Device.id dev) device_id = false) devs ->
  dump frida app_name_or_id (Some device_id) verbose w
  = (Raise (SystemExit (-1)),
     set_stdout (stdout w ++ [[PStr ("device id " ++ device_id ++ " not found")]]) w).
Proof.
  intros Hdevs Hnone.
  assert (select_device frida (Some device_id) w
          = (Raise (SystemExit (-1)),
             set_stdout (stdout w ++ [[PStr ("device id " ++ device_id ++ " not found")]]) w))
    as Hsel.
  { unfold select_device. rewrite Hdevs.
    unfold from_frida, mbind, M_bind, mret, M_ret.
    now rewrite (find_none_Forall _ _ Hnone). }
  unfold dump. now rewrite (bind_Raise _ _ _ _ _ Hsel).
Qed.

(** A device that is selected, by [get_usb_device] or by its id, is refused
    when its type is not [tether]: [dump] prints [unable to find device] and
    exits with status [-1] before it looks at the applications. *)
Theorem dump_refuses_other_device_types
    (frida : Frida) (app_name_or_id : string) (device_id verbose : option string)
    (dev : Device.t) (w : World) :
  select_device frida device_id w = (Return dev, w) ->
  Device.type dev <> "tether" ->
  dump frida app_name_or_id device_id verbose w
  = (Raise (SystemExit (-1)),
     set_stdout (stdout w ++ [[PStr "unable to find device"]]) w).
Proof.
  intros Hsel Htype. unfold dump. rewrite (bind_Return _ _ _ _ _ Hsel).
  apply String.eqb_neq in Htype. rewrite Htype. reflexivity.
Qed.

(** No application of the device has the given identifier or name: [dump]
    prints the [not found] line, the heading, one line [name (identifier)]
    for every installed application in the order of the enumeration and an
    empty line, and exits with status [-1]; nothing else changes. *)
Theorem dump_unknown_app_lists_installed
    (frida : Frida) (app_name_or_id : string) (device_id verbose : option string)
    (dev : Device.t) (apps : list Application.t) (w : World) :
  select_device frida device_id w = (Return dev, w) ->
  Device.type dev = "tether" ->
  Device.enumerate_applications dev = inr apps ->
  Forall (fun app => Application.identifier app <> app_name_or_id
                     /\ Application.name app <> app_name_or_id) apps ->
  dump frida app_name_or_id device_id verbose w
  = (Raise (SystemExit (-1)),
     set_stdout
       (stdout w
          ++ [[PStr ("app " ++ dquote ++ app_name_or_id ++ dquote ++ " not found")];
              [PStr "installed app:"]]
          ++ List.map installed_line apps
          ++ [[PStr ""]]) w).
Proof.
  intros Hsel Htype Happs Hnone. unfold dump. rewrite (bind_Return _ _ _ _ _ Hsel).
  rewrite Htype. simpl.
  unfold mbind at 1, M_bind at 1. simpl.
  unfold select_app. rewrite Happs.
  rewrite find_none_Forall.
  2:{ eapply Forall_impl; [exact Hnone|]. intros app [Hid Hname]. simpl.
      apply orb_false_intro; apply String.eqb_neq; congruence. }
  unfold mbind, M_bind, from_frida, fatal, print, modify. simpl.
  rewrite print_installed_lines. simpl.
  unfold mbind, M_bind, print, modify. simpl.
  rewrite <- !app_assoc. reflexivity.
Qed.

(** The application is the first one of the enumeration whose identifier or
    name equals the argument; [dump] then is the run of a fresh [IPADump] on
    it, and the archive is named after the application's name, whichever of
    the two matched. *)
Theorem dump_runs_first_match
    (frida : Frida) (app_name_or_id : string) (device_id verbose : option string)
    (dev : Device.t) (pre post : list Application.t) (app : Application.t) (w : World) :
  select_device frida device_id w = (Return dev, w) ->
  Device.type dev = "tether" ->
  Device.enumerate_applications dev = inr (pre ++ app :: post)%list ->
  Forall (fun a => Application.identifier a <> app_name_or_id
                   /\ Application.name a <> app_name_or_id) pre ->
  Application.identifier app = app_name_or_id \/ Application.name app = app_name_or_id ->
  dump frida app_name_or_id device_id verbose w
  = (IPADump_init verbose;; run (runtime_of dev app)) w
  /\ app_name (runtime_of dev app) = Application.name app.
Proof.
  intros Hsel Htype Happs Hpre Hmatch. split; [|reflexivity].
  unfold dump. rewrite (bind_Return _ _ _ _ _ Hsel).
  rewrite Htype. simpl.
  unfold mbind at 1, M_bind at 1. simpl.
  assert (select_app dev app_name_or_id w = (Return app, w)) as Happ.
  { unfold select_app. rewrite Happs. rewrite (find_first_match _ pre post app).
    - reflexivity.
    - eapply Forall_impl; [exact Hpre|]. intros a [Hid Hname]. simpl.
      apply orb_false_intro; apply String.eqb_neq; congruence.
    - apply orb_true_iff.
      destruct Hmatch as [H|H]; [left|right]; now apply String.eqb_eq. }
  now rewrite (bind_Return _ _ _ _ _ Happ).
Qed.

Lemma dump_unknown_device_witness :
  dump example_frida "Notes" (Some "ffff") None fresh_world
  = (Raise (SystemExit (-1)),
     set_stdout (stdout fresh_world ++ [[PStr ("device id " ++ "ffff" ++ " not found")]])
       fresh_world).
Proof.
  apply (dump_unknown_device example_frida "Notes" "ffff" None [local_machine; phone]).
  - reflexivity.
  - repeat constructor.
Defined.

Lemma dump_refuses_other_device_types_witness :
  dump example_frida "Notes" (Some "loc") None fresh_world
  = (Raise (SystemExit (-1)),
     set_stdout (stdout fresh_world ++ [[PStr "unable to find device"]]) fresh_world).
Proof.
  apply (dump_refuses_other_device_types example_frida "Notes" (Some "loc") None
           local_machine).
  - reflexivity.
  - discriminate.
Defined.

Lemma dump_unknown_app_lists_installed_witness :
  dump example_frida "Mail" None (Some "1") fresh_world
  = (Raise (SystemExit (-1)),
     set_stdout
       (stdout fresh_world
          ++ [[PStr ("app " ++ dquote ++ "Mail" ++ dquote ++ " not found")];
              [PStr "installed app:"]]
          ++ List.map installed_line example_apps
          ++ [[PStr ""]]) fresh_world).
Proof.
  apply (dump_unknown_app_lists_installed example_frida "Mail" None (Some "1") phone
           example_apps).
  - reflexivity.
  - reflexivity.
  - reflexivity.
  - repeat constructor; discriminate.
Defined.

(** [Notes] is the name of the second application and the identifier of the
    third: the second is taken. *)
Lemma dump_runs_first_match_witness :
  dump example_frida "Notes" (Some "a1") None fresh_world
  = (IPADump_init None;;
     run (runtime_of phone (Application.mk "com.example.notes" "Notes" 412))) fresh_world
  /\ app_name (runtime_of phone (Application.mk "com.example.notes" "Notes" 412)) = "Notes".
Proof.
  apply (dump_runs_first_match example_frida "Notes" (Some "a1") None phone
           [Application.mk "com.apple.mobilesafari" "Safari" 0]
           [Application.mk "Notes" "Other" 0]
           (Application.mk "com.example.notes" "Notes" 412)).
  - reflexivity.
  - reflexivity.
  - reflexivity.
  - repeat constructor; discriminate.
  - right. reflexivity.
Defined.

(** [dump] from its arguments to the archive, on the phone. *)
Example dump_end_to_end :
  let r := dump example_frida "com.example.notes" None (Some "yes") fresh_world in
  r.1 = Return tt
  /\ stdout r.2 = [[PStr "[info]"; PStr "attaching to target"]; [PStr "write to Notes.zip"]]
  /\ fs r.2 = fs fresh_world
  /\ verbose r.2 = true.
Proof. vm_compute. repeat split; reflexivity. Qed.

(** ** [Task.finish] on a file that is there *)


Global Instance keeps_file_meta_preorder n tm md ow :
  PreOrder (keeps_file_meta n tm md ow).
Proof.
  split; [intros w H; exact H|].
  intros w1 w2 w3 H12 H23 H. apply H23, H12, H.
Qed.





(** A time stamp beyond what the file system stores is kept at the bound:
    the call is made with the value of [info], the file carries the
    bound. *)
Example finish_clamps_time :
  let t := stamped_task (VInt (2 ^ 40)) (VInt (2 ^ 40)) in
  let w := stamped_open (VInt (2 ^ 40)) (VInt (2 ^ 40)) in
  (Task_finish t w).1 = Return tt
  /\ fs (Task_finish t w).2 !! ["tmp"; "ws"; "a.bin"]
     = Some (File [] (Some (15032385535, 15032385535)) 420 true)
  /\ last (removelast (calls (Task_finish t w).2))
     = Some (SysUtime "/tmp/ws/a.bin" (2 ^ 40) (2 ^ 40)).
Proof. vm_compute. repeat split; reflexivity. Qed.

(** ** An [info] without permission bits *)

(** [info] is not looked at before the end of the transfer. When it has no
    [permission] entry (and the time stamps are skipped), the end event
    closes the file, which writes out what was in its buffer, and then
    raises [KeyError] from [info['permission']]: the state is the one the
    [close] left, the key stays in the registry with its file closed, and a
    later data event for it raises [ValueError]. *)
Theorem end_without_permission
    (s : value) (k : key) (t : Task.t) (w : World) (d : dict) (b : bytes) :
  hash_key s = Some k ->
  tasks w !! k = Some t ->
  Task.info t = VDict d ->
  dict_get "permission" d = None ->
  truthy (default VNone (dict_get "creation" d))
    && truthy (default VNone (dict_get "modification" d)) = false ->
  let r := on_message (download_event "end" s) None w in
  r = (Raise KeyError, (Task_close t w).2)
  /\ tasks r.2 !! k = Some t
  /\ ofiles r.2 !! Task.file t = None
  /\ on_message (download_event "data" s) (Some b) r.2 = (Raise ValueError, r.2).
Proof.
  intros Hk Ht Hinfo Hperm Hfalsy r.
  destruct (Task_close_returns t w) as (_ & Htasks & _).
  destruct (Task_finish_closes t w) as [Hclosed _].
  assert (Task_finish t w = (Raise KeyError, (Task_close t w).2)) as Hfin.
  { rewrite (Task_finish_unfold t w d Hinfo).
    unfold except_FileNotFoundError, restore_metadata, fst, snd.
    rewrite Hfalsy, Hinfo. unfold py_getitem. rewrite Hperm. reflexivity. }
  rewrite Hfin in Hclosed. simpl in Hclosed.
  assert (tasks_getitem s w = (Return t, w)) as Hget.
  { unfold tasks_getitem, mbind, M_bind. simpl. now rewrite Hk, Ht. }
  assert (r = (Raise KeyError, (Task_close t w).2)) as ->.
  { subst r. rewrite on_message_end. unfold close_session.
    rewrite (bind_Return _ _ _ _ _ Hget). now rewrite (bind_Raise _ _ _ _ _ Hfin). }
  simpl. set (w1 := (Task_close t w).2) in *. clearbody w1.
  repeat split.
  - now rewrite Htasks.
  - exact Hclosed.
  - rewrite on_message_data. unfold on_download_data.
    assert (tasks_getitem s w1 = (Return t, w1)) as Hget1.
    { unfold tasks_getitem, mbind, M_bind. simpl. now rewrite Hk, Htasks, Ht. }
    rewrite (bind_Return _ _ _ _ _ Hget1).
    unfold Task_write, os_write, mbind, M_bind. simpl. now rewrite Hclosed.
Qed.

Lemma end_without_permission_witness :
  let w := (deliver (fun _ => false)
              [(download_start (VInt 1) (VStr "a.bin") (VDict []), None);
               (download_event "data" (VInt 1), Some [Byte.x61])]
              example_world).2 in
  let t := Task.mk (VInt 1) "/tmp/ws/a.bin" (VDict []) 3 in
  let r := on_message (download_event "end" (VInt 1)) None w in
  (read_file w "/tmp/ws/a.bin" = Some []
   /\ read_file r.2 "/tmp/ws/a.bin" = Some [Byte.x61])
  /\ (r = (Raise KeyError, (Task_close t w).2)
      /\ tasks r.2 !! KInt 1 = Some t
      /\ ofiles r.2 !! Task.file t = None
      /\ on_message (download_event "data" (VInt 1)) (Some [Byte.x62]) r.2
         = (Raise ValueError, r.2)).
Proof.
  intros w t. split; [vm_compute; split; reflexivity|].
  apply (end_without_permission (VInt 1) (KInt 1) t w [] [Byte.x62]).
  - reflexivity.
  - vm_compute. reflexivity.
  - reflexivity.
  - reflexivity.
  - reflexivity.
Defined.
